(** * Sodaq_Ublox: line framer and response reader

    A shallow embedding of [src/Sodaq_Ublox.cpp] (functions [is_timedout],
    [timedRead], [readBytesUntil], [readLn], [startsWith], [readResponse],
    and further [readBytes], [waitForPrompt], [writeProlog], [print],
    [println], [dbprintln]), the properties of its natural-language
    specification and further properties of the code.

    Data model.
    - [size_t], [uint32_t] and [int] are 32 bits wide (the SAMD21 boards the
      driver targets); unsigned values are integers in [0, 2^32) and every
      arithmetic result is reduced with [wrap32]; [to_int] is the conversion
      to a signed [int].
    - Memory is a set of blocks: the driver's line buffer ([_inputBuffer])
      and the caller's output buffer.  A block maps a 32-bit offset to a
      byte, so that an index computed with wrap-around ([buffer[len - 1]]
      with [len = 0]) designates the byte just below the block, as it does on
      the machine.  How many of the offsets belong to the array is the
      capacity passed along with the pointer.
    - The machine state carries the millisecond clock, the script of what
      the next calls of [_modemUART->read()] return and how long each takes,
      the two blocks, and three logs that the program never reads: the
      memory accesses, the watchdog resets and the lines handed to
      [checkURC].  Time passes while the UART is polled and only then.
    - Loops take fuel: a function returns [None] when a loop has not ended
      within it.
    - The diagnostic stream ([debugPrint], [debugPrintln]) has no effect on
      what the reading functions compute and is left out of them; for
      [waitForPrompt] and the sending functions, whose locals and flag exist
      for it, the text sent to it is part of the result.
    - The sending functions work on a [Console]: the [_appendCommand] flag,
      the bytes written to the modem UART and the diagnostic text.  The
      modem UART takes every byte it is given. *)

From Stdlib Require Import ZArith List Bool Lia String Ascii.
Import ListNotations.
Open Scope Z_scope.

(** ** Machine integers *)

Definition wrap32 (z : Z) : Z := z mod 2 ^ 32.

Definition to_int (z : Z) : Z :=
  let u := wrap32 z in if u <? 2 ^ 31 then u else u - 2 ^ 32.

(** Bytes of a string literal. *)
Fixpoint bytes_of (s : string) : list Z :=
  match s with
  | EmptyString => []
  | String a r => Z.of_N (N_of_ascii a) :: bytes_of r
  end.

Definition CR : Z := 13.
Definition LF : Z := 10.

(** [#define SODAQ_UBLOX_TERMINATOR "\r\n"] and its length. *)
Definition SODAQ_UBLOX_TERMINATOR : list Z := [CR; LF].
Definition SODAQ_UBLOX_TERMINATOR_LEN : Z :=
  Z.of_nat (List.length SODAQ_UBLOX_TERMINATOR).

(** ** Memory and machine state *)

Inductive block := InputBlk | OutBlk.

Record ptr := mkPtr { blk : block; off : Z }.

Inductive Access :=
| Load (b : block) (o : Z)
| Store (b : block) (o : Z) (v : Z).

Record Machine := mkMachine {
  clock : Z;                      (* what millis() returns *)
  uart : list (Z * Z);            (* next polls: (ms taken, value returned) *)
  input_blk : Z -> Z;             (* block of _inputBuffer *)
  out_blk : Z -> Z;               (* block of the caller's outBuffer *)
  accesses : list Access;         (* newest first *)
  wdt_resets : nat;               (* calls of sodaq_wdt_reset() *)
  urc_offers : list (list Z)      (* lines passed to checkURC, newest first *)
}.

(** The driver object: the capacity of the line buffer and the virtual
    [checkURC] hook, which sees the NUL-terminated line. *)
Record Sodaq_Ublox := mkDriver {
  _inputBufferSize : Z;
  checkURC : list Z -> bool
}.

(** The outcomes that [readResponse] returns (of the enumeration that the
    driver's header declares). *)
Inductive GSMResponseTypes :=
| GSMResponseOK
| GSMResponseError
| GSMResponseTimeout.

Definition upd (m : Z -> Z) (k v : Z) : Z -> Z :=
  fun k' => if k' =? k then v else m k'.

Definition ptr_add (p : ptr) (i : Z) : ptr := mkPtr (blk p) (wrap32 (off p + i)).

Definition cell (p : ptr) (i : Z) : Z := wrap32 (off p + i).

(** Reading [p[i]] without logging: used for the reads that happen inside
    the C library routines. *)
Definition peek (p : ptr) (i : Z) (st : Machine) : Z :=
  match blk p with
  | InputBlk => input_blk st (cell p i)
  | OutBlk => out_blk st (cell p i)
  end.

Definition log (a : Access) (st : Machine) : Machine :=
  mkMachine (clock st) (uart st) (input_blk st) (out_blk st)
            (a :: accesses st) (wdt_resets st) (urc_offers st).

(** [p[i]] read by the driver's own code. *)
Definition load (p : ptr) (i : Z) (st : Machine) : Z * Machine :=
  (peek p i st, log (Load (blk p) (cell p i)) st).

(** [p[i] = v]. *)
Definition store (p : ptr) (i : Z) (v : Z) (st : Machine) : Machine :=
  match blk p with
  | InputBlk =>
      mkMachine (clock st) (uart st) (upd (input_blk st) (cell p i) v) (out_blk st)
                (Store InputBlk (cell p i) v :: accesses st)
                (wdt_resets st) (urc_offers st)
  | OutBlk =>
      mkMachine (clock st) (uart st) (input_blk st) (upd (out_blk st) (cell p i) v)
                (Store OutBlk (cell p i) v :: accesses st)
                (wdt_resets st) (urc_offers st)
  end.

(** ** The runtime the driver calls *)

Definition millis (st : Machine) : Z := clock st.

(** [_modemUART->read()]: the next entry of the script says how long the
    poll takes and what it returns (a negative value when no byte is there).
    Once the script is used up the line is silent and a poll takes one
    millisecond. *)
Definition tick (d : Z) (rest : list (Z * Z)) (st : Machine) : Machine :=
  mkMachine (wrap32 (clock st + d)) rest (input_blk st) (out_blk st)
            (accesses st) (wdt_resets st) (urc_offers st).

Definition uart_read (st : Machine) : Z * Machine :=
  match uart st with
  | [] => (-1, tick 1 [] st)
  | (d, c) :: rest => (c, tick d rest st)
  end.

Definition sodaq_wdt_reset (st : Machine) : Machine :=
  mkMachine (clock st) (uart st) (input_blk st) (out_blk st)
            (accesses st) (S (wdt_resets st)) (urc_offers st).

Definition offer_urc (line : list Z) (st : Machine) : Machine :=
  mkMachine (clock st) (uart st) (input_blk st) (out_blk st)
            (accesses st) (wdt_resets st) (line :: urc_offers st).

(** ** C library routines *)

(** [strlen] of a literal: the bytes before the first NUL. *)
Fixpoint strlen (s : list Z) : Z :=
  match s with
  | [] => 0
  | c :: r => if c =? 0 then 0 else 1 + strlen r
  end.

(** [strncmp(s1, p, n)] for a literal [s1] (followed by its NUL) and a
    string in memory; the result is zero when the first [n] characters
    agree or both strings end before. *)
Fixpoint strncmp (s1 : list Z) (p : ptr) (n : nat) (st : Machine) : Z :=
  match n with
  | O => 0
  | S k =>
      let a := hd 0 s1 in
      let b := peek p 0 st in
      if a =? b
      then if a =? 0 then 0 else strncmp (tl s1) (ptr_add p 1) k st
      else a - b
  end.

(** [memcpy(dst, src, n)], byte by byte from the low end. *)
Fixpoint memcpy (dst src : ptr) (n : nat) (st : Machine) : Machine :=
  match n with
  | O => st
  | S k => memcpy (ptr_add dst 1) (ptr_add src 1) k (store dst 0 (peek src 0 st) st)
  end.

(** The NUL-terminated string at [p], read for at most [n] bytes. *)
Fixpoint cstring (n : nat) (p : ptr) (st : Machine) : list Z :=
  match n with
  | O => []
  | S k =>
      let c := peek p 0 st in
      if c =? 0 then [] else c :: cstring k (ptr_add p 1) st
  end.

(** ** The driver *)

(** [static inline bool is_timedout(uint32_t from, uint32_t nr_ms)] *)
Definition is_timedout (from nr_ms : Z) (st : Machine) : bool :=
  wrap32 (millis st - from) >? nr_ms.

(** [bool Sodaq_Ublox::startsWith(const char* pre, const char* str)] *)
Definition startsWith (pre : list Z) (str : ptr) (st : Machine) : bool :=
  strncmp pre str (Z.to_nat (strlen pre)) st =? 0.

(** The do-while loop of [timedRead]; [fuel] bounds the number of polls. *)
Fixpoint timedRead_loop (fuel : nat) (_startMillis timeout : Z) (st : Machine)
  : option (Z * Machine) :=
  match fuel with
  | O => None
  | S k =>
      let (c, st1) := uart_read st in
      if 0 <=? c then Some (c, st1)
      else if negb (is_timedout _startMillis timeout st1)
           then timedRead_loop k _startMillis timeout st1
           else Some (-1, st1)
  end.

(** [int Sodaq_Ublox::timedRead(uint32_t timeout) const] *)
Definition timedRead (fuel : nat) (timeout : Z) (st : Machine) : option (Z * Machine) :=
  timedRead_loop fuel (millis st) timeout st.

(** The while loop of [readBytesUntil]: [n] bounds its iterations, [fuel]
    is handed to [timedRead]; [buffer + index] is the moving pointer. *)
Fixpoint readBytesUntil_loop (n fuel : nat) (terminator : Z) (buffer : ptr)
    (length timeout index : Z) (st : Machine) : option (Z * Machine) :=
  match n with
  | O => None
  | S k =>
      if index <? length then
        match timedRead fuel timeout st with
        | None => None
        | Some (c, st1) =>
            if (c <? 0) || (c =? terminator) then Some (index, st1)
            else readBytesUntil_loop k fuel terminator buffer length timeout
                   (wrap32 (index + 1)) (store buffer index (c mod 256) st1)
        end
      else Some (index, st)
  end.

(** [size_t Sodaq_Ublox::readBytesUntil(char terminator, char* buffer,
    size_t length, uint32_t timeout)] *)
Definition readBytesUntil (fuel : nat) (terminator : Z) (buffer : ptr)
    (length timeout : Z) (st : Machine) : option (Z * Machine) :=
  if length <? 1 then Some (0, st)
  else
    match readBytesUntil_loop fuel fuel terminator buffer length timeout 0 st with
    | None => None
    | Some (index, st1) =>
        Some (index, if index <? length then store buffer index 0 st1 else st1)
    end.

(** [size_t Sodaq_Ublox::readLn(char* buffer, size_t size, uint32_t timeout)] *)
Definition readLn (fuel : nat) (buffer : ptr) (size timeout : Z) (st : Machine)
  : option (Z * Machine) :=
  match readBytesUntil fuel
          (nth (Z.to_nat (SODAQ_UBLOX_TERMINATOR_LEN - 1)) SODAQ_UBLOX_TERMINATOR 0)
          buffer (wrap32 (size - 1)) timeout st with
  | None => None
  | Some (len, st1) =>
      let (len, st2) :=
        if 1 <? SODAQ_UBLOX_TERMINATOR_LEN then
          let (c, st2) := load buffer (wrap32 (len - (SODAQ_UBLOX_TERMINATOR_LEN - 1))) st1 in
          if c =? nth 0 SODAQ_UBLOX_TERMINATOR 0
          then (wrap32 (len - (SODAQ_UBLOX_TERMINATOR_LEN - 1)), st2)
          else (len, st2)
        else (len, st1) in
      Some (len, store buffer len 0 st2)
  end.

(** [getInputBuffer()]: the line buffer starts its block. *)
Definition getInputBuffer : ptr := mkPtr InputBlk 0.

(** Modelled from the spec: the header that declares the one-argument
    [readLn(timeout)] used by [readResponse] is not among the sources; the
    Line Framer is applied to the driver's Line Buffer with its configured
    capacity. *)
Definition readLn_input (dev : Sodaq_Ublox) (fuel : nat) (timeout : Z) (st : Machine)
  : option (Z * Machine) :=
  readLn fuel getInputBuffer (_inputBufferSize dev) timeout st.

(** The local [usePrefix] of [readResponse],
    [prefix != NULL && prefix[0] != 0]; a [NULL] pointer is [None]. *)
Definition usePrefix (prefix : option (list Z)) : bool :=
  match prefix with
  | None => false
  | Some p => negb (hd 0 p =? 0)
  end.

(** [outBuffer != NULL && outMaxSize > 0] *)
Definition useOutBuffer (outBuffer : option ptr) (outMaxSize : Z) : bool :=
  match outBuffer with
  | None => false
  | Some _ => 0 <? outMaxSize
  end.

(** What one turn of the [while] loop of [readResponse] does to the
    control flow: [continue] (or falling off the end of the body) with the
    current [outSize], or [return]. *)
Inductive Step :=
| Continue (outSize : Z)
| Return (r : GSMResponseTypes).

(** The last [if] of the loop body: the line is appended to [outBuffer]. *)
Definition append_line (ob : ptr) (outMaxSize : Z) (prefix : list Z) (hasPrefix : bool)
    (count outSize : Z) (st : Machine) : Z * Machine :=
  let (outSize, st) :=
    if (0 <? outSize) && (outSize <? wrap32 (outMaxSize - 1))
    then (wrap32 (outSize + 1), store ob outSize LF st)
    else (outSize, st) in
  if outSize <? wrap32 (outMaxSize - 1) then
    let inBuffer := getInputBuffer in
    let (count, inBuffer) :=
      if hasPrefix then
        let i := to_int (strlen prefix) in
        (to_int (count - i), ptr_add inBuffer i)
      else (count, inBuffer) in
    let count :=
      if wrap32 (outSize + count) >? wrap32 (outMaxSize - 1)
      then to_int (outMaxSize - 1 - outSize)
      else count in
    let st := memcpy (ptr_add ob outSize) inBuffer (Z.to_nat (wrap32 count)) st in
    let outSize := wrap32 (outSize + count) in
    (outSize, store ob outSize 0 st)
  else (outSize, st).

(** The loop body after the line has been read and found non-empty. *)
Definition classify_line (dev : Sodaq_Ublox) (outBuffer : option ptr) (outMaxSize : Z)
    (prefix : option (list Z)) (count outSize : Z) (st : Machine) : Step * Machine :=
  if startsWith (bytes_of "AT") getInputBuffer st then (Continue outSize, st)
  else if startsWith (bytes_of "OK") getInputBuffer st then (Return GSMResponseOK, st)
  else if startsWith (bytes_of "ERROR") getInputBuffer st
          || startsWith (bytes_of "+CME ERROR:") getInputBuffer st
          || startsWith (bytes_of "+CMS ERROR:") getInputBuffer st
  then (Return GSMResponseError, st)
  else
    let pre := match prefix with Some p => p | None => [] end in
    let hasPrefix :=
      usePrefix prefix && useOutBuffer outBuffer outMaxSize
      && startsWith pre getInputBuffer st in
    let line := cstring (Z.to_nat (_inputBufferSize dev)) getInputBuffer st in
    let (handled, st) :=
      if negb hasPrefix then (checkURC dev line, offer_urc line st)
      else (false, st) in
    if handled then (Continue outSize, st)
    else if hasPrefix || (negb (usePrefix prefix) && useOutBuffer outBuffer outMaxSize) then
      match outBuffer with
      | Some ob =>
          let (outSize, st) := append_line ob outMaxSize pre hasPrefix count outSize st in
          (Continue outSize, st)
      | None => (Continue outSize, st)   (* not reached: useOutBuffer holds *)
      end
    else (Continue outSize, st).

(** One turn of the loop: [readLn(250)], the watchdog reset, the test of
    [count], then the classification. *)
Definition readResponse_iter (dev : Sodaq_Ublox) (fuel : nat) (outBuffer : option ptr)
    (outMaxSize : Z) (prefix : option (list Z)) (outSize : Z) (st : Machine)
  : option (Step * Machine) :=
  match readLn_input dev fuel 250 st with
  | None => None
  | Some (len, st1) =>
      let count := to_int len in
      let st2 := sodaq_wdt_reset st1 in
      if count <=? 0 then Some (Continue outSize, st2)
      else Some (classify_line dev outBuffer outMaxSize prefix count outSize st2)
  end.

(** The [while (!is_timedout(from, timeout))] loop; [n] bounds its turns. *)
Fixpoint readResponse_loop (n : nat) (dev : Sodaq_Ublox) (fuel : nat)
    (outBuffer : option ptr) (outMaxSize : Z) (prefix : option (list Z))
    (timeout from outSize : Z) (st : Machine) : option (GSMResponseTypes * Machine) :=
  match n with
  | O => None
  | S k =>
      if negb (is_timedout from timeout st) then
        match readResponse_iter dev fuel outBuffer outMaxSize prefix outSize st with
        | None => None
        | Some (Return r, st1) => Some (r, st1)
        | Some (Continue outSize1, st1) =>
            readResponse_loop k dev fuel outBuffer outMaxSize prefix timeout from outSize1 st1
        end
      else Some (GSMResponseTimeout, st)
  end.

(** [GSMResponseTypes Sodaq_Ublox::readResponse(char* outBuffer,
    size_t outMaxSize, const char* prefix, uint32_t timeout)] *)
Definition readResponse (dev : Sodaq_Ublox) (fuel : nat) (outBuffer : option ptr)
    (outMaxSize : Z) (prefix : option (list Z)) (timeout : Z) (st : Machine)
  : option (GSMResponseTypes * Machine) :=
  let from := millis st in
  let outSize := 0 in
  let st1 := match outBuffer with
             | Some ob => store ob 0 0 st
             | None => st
             end in
  readResponse_loop fuel dev fuel outBuffer outMaxSize prefix timeout from outSize st1.

(** * More of the driver *)

(** The while loop of [readBytes]: [n] bounds its iterations, [fuel] is
    handed to [timedRead]; [buffer + count] is the moving pointer. *)
Fixpoint readBytes_loop (n fuel : nat) (buffer : ptr) (length timeout count : Z)
    (st : Machine) : option (Z * Machine) :=
  match n with
  | O => None
  | S k =>
      if count <? length then
        match timedRead fuel timeout st with
        | None => None
        | Some (c, st1) =>
            if c <? 0 then Some (count, st1)
            else readBytes_loop k fuel buffer length timeout
                   (wrap32 (count + 1)) (store buffer count (c mod 256) st1)
        end
      else Some (count, st)
  end.

(** [size_t Sodaq_Ublox::readBytes(uint8_t* buffer, size_t length,
    uint32_t timeout)] *)
Definition readBytes (fuel : nat) (buffer : ptr) (length timeout : Z) (st : Machine)
  : option (Z * Machine) :=
  readBytes_loop fuel fuel buffer length timeout 0 st.

(** [debugPrint(...)]: the text goes to the diagnostic stream when there is
    one ([_diagPrint] is not null). *)
Definition debugPrint (_diagPrint : bool) (text : list Z) (diag : list Z) : list Z :=
  if _diagPrint then diag ++ text else diag.

(** [debugPrintln()]: the line end of the Arduino [Print] class. *)
Definition debugPrintln (_diagPrint : bool) (diag : list Z) : list Z :=
  debugPrint _diagPrint [CR; LF] diag.

(** The locals of [waitForPrompt] and what it has sent to the diagnostic
    stream. *)
Record PromptScan := mkScan {
  at_bol : bool;
  retval : bool;
  done_diag : bool;
  diag_out : list Z
}.

(** What the body of the loop of [waitForPrompt] does with a character that
    was read, before the test for the prompt. *)
Definition echo_char (_diagPrint : bool) (c : Z) (sc : PromptScan) : PromptScan :=
  if c =? CR then mkScan true (retval sc) (done_diag sc) (diag_out sc)
  else if c =? LF then mkScan true (retval sc) (done_diag sc) (diag_out sc)
  else
    let sc1 :=
      if at_bol sc
      then mkScan false (retval sc) true (debugPrint _diagPrint (bytes_of ">> ") (diag_out sc))
      else sc in
    mkScan (at_bol sc1) (retval sc1) (done_diag sc1)
           (debugPrint _diagPrint [c mod 256] (diag_out sc1)).

(** The do-while loop of [waitForPrompt]; [fuel] bounds the number of
    polls.  [continue] goes to the loop condition. *)
Fixpoint waitForPrompt_loop (fuel : nat) (_diagPrint : bool) (prompt start_ts timeout : Z)
    (sc : PromptScan) (st : Machine) : option (PromptScan * Machine) :=
  match fuel with
  | O => None
  | S k =>
      let (c, st1) := uart_read st in
      if c <? 0 then
        if negb (is_timedout start_ts timeout st1)
        then waitForPrompt_loop k _diagPrint prompt start_ts timeout sc st1
        else Some (sc, st1)
      else
        let sc1 := echo_char _diagPrint c sc in
        if c =? prompt
        then Some (mkScan (at_bol sc1) true (done_diag sc1) (diag_out sc1), st1)
        else if negb (is_timedout start_ts timeout st1)
             then waitForPrompt_loop k _diagPrint prompt start_ts timeout sc1 st1
             else Some (sc1, st1)
  end.

(** [bool Sodaq_Ublox::waitForPrompt(char prompt, uint32_t timeout)];
    [prompt] is the character as the comparison [c == prompt] sees it,
    promoted to [int].  The result is the value returned, what the
    diagnostic stream holds and the machine. *)
Definition waitForPrompt (fuel : nat) (_diagPrint : bool) (prompt timeout : Z)
    (diag : list Z) (st : Machine) : option (bool * list Z * Machine) :=
  let start_ts := millis st in
  match waitForPrompt_loop fuel _diagPrint prompt start_ts timeout
          (mkScan true false false diag) st with
  | None => None
  | Some (sc, st1) =>
      let diag1 :=
        if done_diag sc && negb (at_bol sc)
        then debugPrintln _diagPrint (diag_out sc)
        else diag_out sc in
      Some (retval sc, diag1, st1)
  end.

(** The sending side of the driver: the [_appendCommand] flag, the bytes
    written to the modem UART and the text of the diagnostic stream. *)
Record Console := mkConsole {
  _appendCommand : bool;
  modem_tx : list Z;
  diag_tx : list Z
}.

(** The characters of the C string that starts [s]: those before its
    first NUL. *)
Fixpoint c_chars (s : list Z) : list Z :=
  match s with
  | [] => []
  | c :: r => if c =? 0 then [] else c :: c_chars r
  end.

(** [void Sodaq_Ublox::writeProlog()] *)
Definition writeProlog (_diagPrint : bool) (co : Console) : Console :=
  if negb (_appendCommand co)
  then mkConsole true (modem_tx co) (debugPrint _diagPrint (bytes_of ">> ") (diag_tx co))
  else co.

(** [size_t Sodaq_Ublox::print(const char buffer[])]; the count is what
    [_modemUART->print(buffer)] returns, the number of characters written. *)
Definition print (_diagPrint : bool) (buffer : list Z) (co : Console) : Z * Console :=
  let co1 := writeProlog _diagPrint co in
  let co2 := mkConsole (_appendCommand co1) (modem_tx co1)
                       (debugPrint _diagPrint (c_chars buffer) (diag_tx co1)) in
  (strlen buffer,
   mkConsole (_appendCommand co2) (modem_tx co2 ++ c_chars buffer) (diag_tx co2)).

(** [size_t Sodaq_Ublox::print(char value)] *)
Definition print_char (_diagPrint : bool) (value : Z) (co : Console) : Z * Console :=
  let co1 := writeProlog _diagPrint co in
  let co2 := mkConsole (_appendCommand co1) (modem_tx co1)
                       (debugPrint _diagPrint [value] (diag_tx co1)) in
  (1, mkConsole (_appendCommand co2) (modem_tx co2 ++ [value]) (diag_tx co2)).

(** [size_t Sodaq_Ublox::println()] *)
Definition println (_diagPrint : bool) (co : Console) : Z * Console :=
  let co1 := mkConsole (_appendCommand co) (modem_tx co)
                       (debugPrintln _diagPrint (diag_tx co)) in
  let (i, co2) := print_char _diagPrint CR co1 in
  (i, mkConsole false (modem_tx co2) (diag_tx co2)).

(** [void Sodaq_Ublox::dbprintln()] *)
Definition dbprintln (_diagPrint : bool) (co : Console) : Console :=
  mkConsole false (modem_tx co) (debugPrintln _diagPrint (diag_tx co)).

(** A command sent in pieces: [print] for each piece, then [println()].
    The result is the counts returned and the console. *)
Fixpoint print_all (_diagPrint : bool) (pieces : list (list Z)) (co : Console)
  : list Z * Console :=
  match pieces with
  | [] => ([], co)
  | p :: r =>
      let (n, co1) := print _diagPrint p co in
      let (ns, co2) := print_all _diagPrint r co1 in
      (n :: ns, co2)
  end.

Definition send_command (_diagPrint : bool) (pieces : list (list Z)) (co : Console)
  : list Z * Z * Console :=
  let (ns, co1) := print_all _diagPrint pieces co in
  let (i, co2) := println _diagPrint co1 in
  (ns, i, co2).

(** * Vocabulary of the properties *)

(** What reading from the UART into the line buffer leaves alone: the
    caller's block and the two hook logs. *)
Definition line_io (st st' : Machine) : Prop :=
  out_blk st' = out_blk st /\
  wdt_resets st' = wdt_resets st /\
  urc_offers st' = urc_offers st.

(** The time a stretch of the UART script takes. *)
Definition duration (ps : list (Z * Z)) : Z := fold_right Z.add 0 (map fst ps).

(** Polls that find no byte and take no longer than [timeout] ms
    altogether. *)
Definition idle (timeout : Z) (ms : list (Z * Z)) : Prop :=
  Forall (fun p => snd p < 0 /\ 0 <= fst p) ms /\ duration ms <= timeout.

(** The polls [ps] deliver [bytes] to [timedRead(timeout)]: each byte is
    returned by a poll, after polls in vain that last no longer than the
    time-out. *)
Inductive delivers (timeout : Z) : list (Z * Z) -> list Z -> Prop :=
| delivers_nil : delivers timeout [] []
| delivers_cons ms d c ps bytes :
    idle timeout ms -> 0 <= c -> delivers timeout ps bytes ->
    delivers timeout (ms ++ (d, c) :: ps) (c :: bytes).

(** Bytes that [readBytesUntil] stores: a character that is not the
    terminator. *)
Definition stored_byte (term : Z) (c : Z) : Prop := 0 <= c < 256 /\ c <> term.

(** The characters of a C string: no NUL among them. *)
Definition NoNul (l : list Z) : Prop := Forall (fun c => c <> 0) l.

(** The bytes at [p] are those of [pre], one by one. *)
Definition begins_with (pre : list Z) (p : ptr) (st : Machine) : Prop :=
  forall i, (i < List.length pre)%nat -> peek p (Z.of_nat i) st = nth i pre 0.

(** The buffer at [p] holds [line] followed by NUL. *)
Definition holds_line (line : list Z) (p : ptr) (st : Machine) : Prop :=
  begins_with line p st /\ peek p (Z.of_nat (List.length line)) st = 0.

(** [pre] is an initial segment of [l], byte for byte. *)
Fixpoint is_prefix (pre l : list Z) : bool :=
  match pre, l with
  | [], _ => true
  | _ :: _, [] => false
  | a :: r, b :: l' => (a =? b) && is_prefix r l'
  end.

(** A line on the wire as [readResponse] can frame it with a line buffer of
    [size] bytes: not empty, no LF inside, room for the terminator. *)
Definition framed (size : Z) (line : list Z) : Prop :=
  line <> [] /\ Forall (stored_byte LF) line
  /\ Z.of_nat (List.length line) + 2 < size /\ size < 2 ^ 31.

(** A line that is neither an echo nor a terminal marker. *)
Definition plain (line : list Z) : Prop :=
  is_prefix (bytes_of "AT") line = false
  /\ is_prefix (bytes_of "OK") line = false
  /\ is_prefix (bytes_of "ERROR") line = false
  /\ is_prefix (bytes_of "+CME ERROR:") line = false
  /\ is_prefix (bytes_of "+CMS ERROR:") line = false.

(** The characters of the expected prefix ([NULL] has none). *)
Definition prefix_bytes (prefix : option (list Z)) : list Z :=
  match prefix with Some p => p | None => [] end.

(** The local [hasPrefix] of [readResponse] for a framed line. *)
Definition hasPrefix_of (outBuffer : option ptr) (outMaxSize : Z)
    (prefix : option (list Z)) (line : list Z) : bool :=
  usePrefix prefix && useOutBuffer outBuffer outMaxSize
  && is_prefix (prefix_bytes prefix) line.

(** What writing to the caller's block leaves alone. *)
Definition out_io (st st' : Machine) : Prop :=
  clock st' = clock st /\ uart st' = uart st /\ input_blk st' = input_blk st
  /\ wdt_resets st' = wdt_resets st /\ urc_offers st' = urc_offers st.

(** Where the bytes to append start, as [append_line] computes it. *)
Definition append_src (pre : list Z) (hasPrefix : bool) : ptr :=
  if hasPrefix then ptr_add getInputBuffer (to_int (strlen pre)) else getInputBuffer.

(** How many bytes there are to append, before clipping. *)
Definition append_count (pre : list Z) (hasPrefix : bool) (count : Z) : Z :=
  if hasPrefix then to_int (count - to_int (strlen pre)) else count.

(** Where the appended bytes go: after a separator when the buffer is not
    empty. *)
Definition append_start (outSize : Z) : Z :=
  if 0 <? outSize then outSize + 1 else outSize.

(** Polls that do not make the clock run backwards. *)
Definition punctual (ps : list (Z * Z)) : Prop := Forall (fun p => 0 <= fst p) ps.

(** The polls that deliver one echoed command line to [readLn(250)]. *)
Definition echoed (size : Z) (fuel : nat) (ps : list (Z * Z)) : Prop :=
  exists line,
    delivers 250 ps (line ++ [CR; LF]) /\ framed size line
    /\ is_prefix (bytes_of "AT") line = true
    /\ (List.length ps < fuel)%nat.

(** A store into the caller's block that respects a buffer of
    [outMaxSize] bytes at [ob]: the index is below the capacity, and below
    the last byte unless a NUL is stored. *)
Definition out_store_ok (ob : ptr) (outMaxSize : Z) (a : Access) : Prop :=
  match a with
  | Store OutBlk o v =>
      exists i, 0 <= i < outMaxSize /\ o = cell ob i /\ (v <> 0 -> i < outMaxSize - 1)
  | _ => True
  end.

(** The accesses made from [st] to [st'] all satisfy [P]. *)
Definition logged (P : Access -> Prop) (st st' : Machine) : Prop :=
  exists new, accesses st' = new ++ accesses st /\ Forall P new.

(** The state in which the loop of [readResponse] starts: [outBuffer[0]]
    has been cleared when [outBuffer] is not null. *)
Definition cleared (outBuffer : option ptr) (st : Machine) : Machine :=
  match outBuffer with
  | Some ob => store ob 0 0 st
  | None => st
  end.

(** [turns ... k o st o' st']: from the head of a turn with [outSize = o]
    in state [st], the loop of [readResponse] makes [k] turns, each begun
    before the deadline and none of them returning, and stands at the head
    of the next turn with [outSize = o'] in state [st']. *)
Inductive turns (dev : Sodaq_Ublox) (fuel : nat) (outBuffer : option ptr)
    (outMaxSize : Z) (prefix : option (list Z)) (timeout from : Z)
  : nat -> Z -> Machine -> Z -> Machine -> Prop :=
| turns_none o st : turns dev fuel outBuffer outMaxSize prefix timeout from 0 o st o st
| turns_more k o st o1 st1 o' st' :
    is_timedout from timeout st = false ->
    readResponse_iter dev fuel outBuffer outMaxSize prefix o st = Some (Continue o1, st1) ->
    turns dev fuel outBuffer outMaxSize prefix timeout from k o1 st1 o' st' ->
    turns dev fuel outBuffer outMaxSize prefix timeout from (S k) o st o' st'.

(** The line buffer holds a terminal marker of outcome [r]: a line that
    does not begin with AT and begins with OK (Success), or with neither
    and with ERROR, +CME ERROR: or +CMS ERROR: (Error). *)
Definition marker_line (r : GSMResponseTypes) (st : Machine) : Prop :=
  ~ begins_with (bytes_of "AT") getInputBuffer st
  /\ match r with
     | GSMResponseOK => begins_with (bytes_of "OK") getInputBuffer st
     | GSMResponseError =>
         ~ begins_with (bytes_of "OK") getInputBuffer st
         /\ (begins_with (bytes_of "ERROR") getInputBuffer st
             \/ begins_with (bytes_of "+CME ERROR:") getInputBuffer st
             \/ begins_with (bytes_of "+CMS ERROR:") getInputBuffer st)
     | GSMResponseTimeout => False
     end.

(** ** Example machines *)

(** A machine that has just started: the clock at zero, [script] on the
    UART, every byte of both blocks equal to [fill], empty logs. *)
Definition boot (script : list (Z * Z)) (fill : Z) : Machine :=
  mkMachine 0 script (fun _ => fill) (fun _ => fill) [] 0 [].

(** Bytes that arrive one millisecond apart. *)
Definition wire (bytes : list Z) : list (Z * Z) := map (fun b => (1, b)) bytes.

(** [#define SODAQ_UBLOX_DEFAULT_INPUT_BUFFER_SIZE 1024] *)
Definition SODAQ_UBLOX_DEFAULT_INPUT_BUFFER_SIZE : Z := 1024.

(** A driver with the default line buffer whose URC hook claims nothing. *)
Definition plain_driver : Sodaq_Ublox :=
  mkDriver SODAQ_UBLOX_DEFAULT_INPUT_BUFFER_SIZE (fun _ => false).

(** A driver with the default line buffer whose URC hook claims every line. *)
Definition urc_driver : Sodaq_Ublox :=
  mkDriver SODAQ_UBLOX_DEFAULT_INPUT_BUFFER_SIZE (fun _ => true).

(** The caller's buffer starts its block. *)
Definition out_ptr : ptr := mkPtr OutBlk 0.

(** A line of text with its terminator. *)
Definition crlf (s : string) : list Z := bytes_of s ++ [CR; LF].

(** The state a run ends in ([d] when it does not end). *)
Definition final {A : Type} (r : option (A * Machine)) (d : Machine) : Machine :=
  match r with
  | Some (_, s) => s
  | None => d
  end.

(** * Properties *)

Arguments wrap32 : simpl never.
Arguments to_int : simpl never.

(** ** Machine arithmetic *)

Lemma wrap32_small z : 0 <= z < 2 ^ 32 -> wrap32 z = z.
Proof. intros H. unfold wrap32. apply Z.mod_small. exact H. Qed.

Lemma wrap32_range z : 0 <= wrap32 z < 2 ^ 32.
Proof. unfold wrap32. apply Z.mod_pos_bound. reflexivity. Qed.

Lemma wrap32_add_l a b : wrap32 (wrap32 a + b) = wrap32 (a + b).
Proof. unfold wrap32. apply Zplus_mod_idemp_l. Qed.

Lemma wrap32_add_r a b : wrap32 (a + wrap32 b) = wrap32 (a + b).
Proof. unfold wrap32. apply Zplus_mod_idemp_r. Qed.

Lemma wrap32_idem a : wrap32 (wrap32 a) = wrap32 a.
Proof. unfold wrap32. apply Z.mod_mod. lia. Qed.

Lemma wrap32_sub_l a b : wrap32 (wrap32 a - b) = wrap32 (a - b).
Proof. unfold wrap32. apply Zminus_mod_idemp_l. Qed.

Lemma to_int_small z : 0 <= z < 2 ^ 31 -> to_int z = z.
Proof.
  intros H. unfold to_int. rewrite wrap32_small by lia.
  destruct (Z.ltb_spec z (2 ^ 31)); lia.
Qed.

Lemma wrap32_inj_offset o i j :
  - 2 ^ 32 < i - j < 2 ^ 32 -> wrap32 (o + i) = wrap32 (o + j) -> i = j.
Proof.
  unfold wrap32. intros Hij H.
  assert (E : (i - j) mod 2 ^ 32 = 0).
  { replace (i - j) with ((o + i) - (o + j)) by ring.
    rewrite Zminus_mod, H, Z.sub_diag. reflexivity. }
  apply Z.mod_divide in E; [| lia].
  destruct E as [k E].
  assert (k = 0) by nia. nia.
Qed.

(** ** Memory *)

Lemma cell_ptr_add p k i : cell (ptr_add p k) i = cell p (k + i).
Proof. unfold cell, ptr_add. simpl. rewrite wrap32_add_l. f_equal. ring. Qed.

Lemma blk_ptr_add p k : blk (ptr_add p k) = blk p.
Proof. reflexivity. Qed.

Lemma ptr_add_add p a b : ptr_add (ptr_add p a) b = ptr_add p (a + b).
Proof. unfold ptr_add. simpl. rewrite wrap32_add_l. f_equal. f_equal. ring. Qed.

Lemma peek_ptr_add p k i st : peek (ptr_add p k) i st = peek p (k + i) st.
Proof. unfold peek. rewrite blk_ptr_add, cell_ptr_add. reflexivity. Qed.

Lemma peek_store_same p i v st : peek p i (store p i v st) = v.
Proof.
  unfold peek, store. destruct (blk p); simpl; unfold upd; rewrite Z.eqb_refl; reflexivity.
Qed.

Lemma peek_store_other p i j v st :
  cell p i <> cell p j -> peek p i (store p j v st) = peek p i st.
Proof.
  intros H. unfold peek, store.
  destruct (blk p); simpl; unfold upd;
    destruct (Z.eqb_spec (cell p i) (cell p j)); congruence.
Qed.

Lemma peek_store_block p q i j v st :
  blk p <> blk q -> peek p i (store q j v st) = peek p i st.
Proof.
  intros H. unfold peek, store. destruct (blk p), (blk q); simpl; congruence.
Qed.

Lemma cell_distinct p i j :
  - 2 ^ 32 < i - j < 2 ^ 32 -> i <> j -> cell p i <> cell p j.
Proof.
  intros Hij Hne E. apply Hne. unfold cell in E.
  eapply wrap32_inj_offset; eauto.
Qed.

(** Components of the state that an operation leaves alone. *)

Lemma store_clock p i v st : clock (store p i v st) = clock st.
Proof. unfold store. destruct (blk p); reflexivity. Qed.

Lemma store_uart p i v st : uart (store p i v st) = uart st.
Proof. unfold store. destruct (blk p); reflexivity. Qed.

Lemma store_wdt p i v st : wdt_resets (store p i v st) = wdt_resets st.
Proof. unfold store. destruct (blk p); reflexivity. Qed.

Lemma store_urc p i v st : urc_offers (store p i v st) = urc_offers st.
Proof. unfold store. destruct (blk p); reflexivity. Qed.

Lemma store_out_blk p i v st :
  blk p = InputBlk -> out_blk (store p i v st) = out_blk st.
Proof. intros H. unfold store. rewrite H. reflexivity. Qed.

Lemma store_input_blk p i v st :
  blk p = OutBlk -> input_blk (store p i v st) = input_blk st.
Proof. intros H. unfold store. rewrite H. reflexivity. Qed.

Lemma store_accesses p i v st :
  accesses (store p i v st) = Store (blk p) (cell p i) v :: accesses st.
Proof. unfold store. destruct (blk p); reflexivity. Qed.

(** ** Reading bytes *)

Lemma line_io_refl st : line_io st st.
Proof. repeat split. Qed.

Lemma line_io_trans a b c : line_io a b -> line_io b c -> line_io a c.
Proof.
  intros (H1 & H2 & H3) (K1 & K2 & K3).
  repeat split; congruence.
Qed.

Lemma line_io_store p i v st : blk p = InputBlk -> line_io st (store p i v st).
Proof.
  intros H. repeat split.
  - apply store_out_blk; assumption.
  - apply store_wdt.
  - apply store_urc.
Qed.

Lemma timedRead_loop_frame fuel :
  forall s t st c st',
    timedRead_loop fuel s t st = Some (c, st') ->
    input_blk st' = input_blk st /\ accesses st' = accesses st /\ line_io st st'.
Proof.
  induction fuel as [| k IH]; intros s t st c st' H; simpl in H.
  - discriminate.
  - assert (T : forall d r, input_blk (tick d r st) = input_blk st /\
                            accesses (tick d r st) = accesses st /\
                            line_io st (tick d r st))
      by (intros; repeat split).
    unfold uart_read in H.
    destruct (uart st) as [| [d c0] rest].
    + destruct (0 <=? -1) eqn:E; [discriminate |].
      destruct (negb (is_timedout s t (tick 1 [] st))).
      * apply IH in H. destruct H as (A & B & C).
        destruct (T 1 (@nil (Z * Z))) as (A' & B' & C').
        split; [congruence | split; [congruence | eapply line_io_trans; eauto]].
      * inversion H; subst. apply T.
    + destruct (0 <=? c0).
      * inversion H; subst. apply T.
      * destruct (negb (is_timedout s t (tick d rest st))).
        -- apply IH in H. destruct H as (A & B & C).
           destruct (T d rest) as (A' & B' & C').
           split; [congruence | split; [congruence | eapply line_io_trans; eauto]].
        -- inversion H; subst. apply T.
Qed.

(** A byte that is already there is returned by the first poll. *)
Lemma timedRead_hit fuel timeout st d c rest :
  uart st = (d, c) :: rest -> 0 <= c ->
  timedRead (S fuel) timeout st = Some (c, tick d rest st).
Proof.
  intros U Hc. unfold timedRead. simpl. unfold uart_read. rewrite U.
  destruct (Z.leb_spec 0 c); [reflexivity | lia].
Qed.

Lemma readBytesUntil_loop_frame n :
  forall fuel term buffer length timeout index st r st',
    blk buffer = InputBlk ->
    readBytesUntil_loop n fuel term buffer length timeout index st = Some (r, st') ->
    line_io st st'.
Proof.
  induction n as [| k IH]; intros fuel term buffer length timeout index st r st' B H;
    simpl in H.
  - discriminate.
  - destruct (index <? length).
    + destruct (timedRead fuel timeout st) as [[c st1] |] eqn:T; [| discriminate].
      apply timedRead_loop_frame in T. destruct T as (_ & _ & T).
      destruct ((c <? 0) || (c =? term)).
      * inversion H; subst. exact T.
      * apply IH in H; [| assumption].
        eapply line_io_trans; [exact T |].
        eapply line_io_trans; [| exact H].
        apply line_io_store; assumption.
    + inversion H; subst. apply line_io_refl.
Qed.

Lemma readLn_frame fuel buffer size timeout st len st' :
  blk buffer = InputBlk ->
  readLn fuel buffer size timeout st = Some (len, st') ->
  line_io st st'.
Proof.
  intros B H. unfold readLn, readBytesUntil in H.
  set (term := nth _ SODAQ_UBLOX_TERMINATOR 0) in H.
  assert (L : forall p i s, line_io s (snd (load p i s))) by (intros; repeat split).
  destruct (wrap32 (size - 1) <? 1).
  - simpl in H.
    match type of H with
    | context [if ?c then _ else _] => destruct c
    end; inversion H; subst;
      (eapply line_io_trans; [| apply line_io_store; assumption]); apply (L buffer _ st).
  - destruct (readBytesUntil_loop fuel fuel term buffer (wrap32 (size - 1)) timeout 0 st)
      as [[index st1] |] eqn:R; [| discriminate].
    apply readBytesUntil_loop_frame in R; [| assumption].
    simpl in H.
    assert (R' : line_io st (if index <? wrap32 (size - 1) then store buffer index 0 st1 else st1)).
    { destruct (index <? wrap32 (size - 1)); [| exact R].
      eapply line_io_trans; [exact R |]. apply line_io_store; assumption. }
    match type of H with
    | context [if ?c =? ?d then _ else _] => destruct (c =? d)
    end; inversion H; subst;
      (eapply line_io_trans; [| apply line_io_store; assumption]);
      (eapply line_io_trans; [exact R' |]); apply L.
Qed.


Lemma peek_tick p i d r st : peek p i (tick d r st) = peek p i st.
Proof. reflexivity. Qed.

Lemma peek_same_mem p i st st' :
  input_blk st' = input_blk st -> out_blk st' = out_blk st -> peek p i st' = peek p i st.
Proof. intros H1 H2. unfold peek. rewrite H1, H2. reflexivity. Qed.

Lemma duration_app ps qs : duration (ps ++ qs) = duration ps + duration qs.
Proof.
  unfold duration. induction ps as [| [d c] ps IH]; simpl; [reflexivity |].
  rewrite IH. ring.
Qed.

Lemma duration_cons d c ps : duration ((d, c) :: ps) = d + duration ps.
Proof. reflexivity. Qed.

Lemma is_timedout_false from timeout st :
  wrap32 (clock st - from) <= timeout -> is_timedout from timeout st = false.
Proof.
  intros H. unfold is_timedout, millis.
  destruct (Z.gtb_spec (wrap32 (clock st - from)) timeout); [lia | reflexivity].
Qed.

Lemma elapsed_step from st st' D :
  wrap32 (clock st') = wrap32 (clock st + D) -> 0 <= D ->
  wrap32 (clock st - from) + D < 2 ^ 32 ->
  wrap32 (clock st' - from) = wrap32 (clock st - from) + D.
Proof.
  intros C HD Hlt.
  rewrite <- wrap32_sub_l, C, wrap32_sub_l.
  replace (clock st + D - from) with ((clock st - from) + D) by ring.
  rewrite <- wrap32_add_l. apply wrap32_small.
  pose proof (wrap32_range (clock st - from)). lia.
Qed.

(** The loop of [timedRead] polls in vain until the byte is there, as long
    as the time-out has not run out. *)
Lemma timedRead_loop_arrives ms :
  forall fuel start timeout st d c rest,
    uart st = ms ++ (d, c) :: rest ->
    Forall (fun p => snd p < 0 /\ 0 <= fst p) ms ->
    wrap32 (clock st - start) + duration ms <= timeout -> timeout < 2 ^ 32 ->
    0 <= c -> (List.length ms < fuel)%nat ->
    exists st',
      timedRead_loop fuel start timeout st = Some (c, st')
      /\ uart st' = rest
      /\ wrap32 (clock st') = wrap32 (clock st + (duration ms + d)).
Proof.
  induction ms as [| [d0 c0] ms IH]; intros fuel start timeout st d c rest U I T Hmax Hc Hf;
    (destruct fuel as [| fuel]; [simpl in Hf; lia |]).
  - exists (tick d rest st). cbn [timedRead_loop]. unfold uart_read. rewrite U. cbn [app].
    destruct (Z.leb_spec 0 c); [| lia].
    split; [reflexivity |]. split; [reflexivity |].
    cbn [tick clock]. rewrite wrap32_idem. reflexivity.
  - inversion I as [| ? ? [Hc0 Hd0] I']; subst. cbn [fst snd] in *.
    rewrite duration_cons in T.
    assert (Hnn : 0 <= duration ms).
    { clear - I'. unfold duration. induction I' as [| [a b] l [_ Ha] _ IH]; simpl in *; lia. }
    pose proof (wrap32_range (clock st - start)) as Hr.
    set (st1 := tick d0 (ms ++ (d, c) :: rest) st).
    assert (E1 : wrap32 (clock st1 - start) = wrap32 (clock st - start) + d0).
    { apply elapsed_step; try lia. unfold st1. cbn [tick clock]. apply wrap32_idem. }
    destruct (IH fuel start timeout st1 d c rest) as (st' & R & U' & C'); try assumption.
    { reflexivity. }
    { lia. }
    { simpl in Hf. lia. }
    exists st'. split; [| split; [exact U' |]].
    + cbn [timedRead_loop]. unfold uart_read. rewrite U. cbn [app].
      destruct (Z.leb_spec 0 c0); [lia |]. fold st1.
      rewrite (is_timedout_false start timeout st1) by lia. exact R.
    + rewrite C'. unfold st1. cbn [tick clock]. rewrite wrap32_add_l.
      f_equal. rewrite duration_cons. ring.
Qed.

Lemma timedRead_arrives fuel timeout st ms d c rest :
  uart st = ms ++ (d, c) :: rest ->
  idle timeout ms -> timeout < 2 ^ 32 -> 0 <= c -> (List.length ms < fuel)%nat ->
  exists st',
    timedRead fuel timeout st = Some (c, st')
    /\ uart st' = rest
    /\ wrap32 (clock st') = wrap32 (clock st + (duration ms + d))
    /\ input_blk st' = input_blk st /\ out_blk st' = out_blk st.
Proof.
  intros U [I T] Hmax Hc Hf. unfold timedRead, millis.
  destruct (timedRead_loop_arrives ms fuel (clock st) timeout st d c rest U I)
    as (st' & R & U' & C'); try assumption.
  { rewrite Z.sub_diag. change (wrap32 0) with 0. lia. }
  destruct (timedRead_loop_frame _ _ _ _ _ _ R) as (M1 & _ & M2 & _).
  exists st'. repeat split; assumption.
Qed.

Lemma delivers_length timeout ps bytes :
  delivers timeout ps bytes -> (List.length bytes <= List.length ps)%nat.
Proof.
  induction 1 as [| ms d c ps bytes _ _ _ IH]; [simpl; lia |].
  rewrite length_app. simpl. lia.
Qed.

Lemma delivers_app_inv timeout l1 :
  forall ps l2, delivers timeout ps (l1 ++ l2) ->
    exists ps1 ps2, ps = ps1 ++ ps2 /\ delivers timeout ps1 l1 /\ delivers timeout ps2 l2.
Proof.
  induction l1 as [| c l1 IH]; intros ps l2 H.
  - exists [], ps. split; [reflexivity |]. split; [constructor | exact H].
  - cbn [app] in H. inversion H as [| ms d c' ps' bytes I Hc D]; subst.
    destruct (IH ps' l2 D) as (p1 & p2 & E & D1 & D2). subst ps'.
    exists (ms ++ (d, c) :: p1), p2.
    split; [rewrite <- app_assoc; reflexivity |].
    split; [constructor; assumption | exact D2].
Qed.

(** The loop of [readBytesUntil] stores the bytes that are delivered. *)
Lemma readBytesUntil_loop_consume timeout ps bytes :
  delivers timeout ps bytes ->
  forall n fuel term buffer length index st tail,
    uart st = ps ++ tail ->
    Forall (stored_byte term) bytes ->
    0 <= index -> index + Z.of_nat (List.length bytes) <= length -> length < 2 ^ 32 ->
    timeout < 2 ^ 32 -> (List.length ps < fuel)%nat ->
    exists st',
      readBytesUntil_loop (List.length bytes + n) fuel term buffer length timeout index st
      = readBytesUntil_loop n fuel term buffer length timeout
          (index + Z.of_nat (List.length bytes)) st'
      /\ uart st' = tail
      /\ wrap32 (clock st') = wrap32 (clock st + duration ps)
      /\ (forall i, (i < List.length bytes)%nat ->
                    peek buffer (index + Z.of_nat i) st' = nth i bytes 0)
      /\ (forall j, 0 <= j < index -> peek buffer j st' = peek buffer j st).
Proof.
  induction 1 as [| ms d c ps bytes I Hc D IH];
    intros n fuel term buffer length index st tail U V Hi Hlen Hmax Ht Hf.
  - exists st. simpl. rewrite !Z.add_0_r. repeat split; auto.
    intros i Hlt. inversion Hlt.
  - rewrite <- app_assoc in U. cbn [app] in U.
    inversion V as [| c' l' [Hc1 Hc2] V']; subst.
    cbn [List.length] in Hlen. rewrite Nat2Z.inj_succ in Hlen.
    rewrite length_app in Hf. cbn [List.length] in Hf.
    destruct (timedRead_arrives fuel timeout st ms d c (ps ++ tail) U I Ht Hc)
      as (st0 & R0 & U0 & C0 & M0 & O0); [lia |].
    set (st1 := store buffer index c st0).
    destruct (IH n fuel term buffer length (index + 1) st1 tail)
      as (st' & E & U' & C' & P' & F'); try assumption; try lia.
    { unfold st1. rewrite store_uart. exact U0. }
    exists st'. split; [| split; [| split; [| split]]].
    + cbn [List.length Nat.add readBytesUntil_loop].
      destruct (Z.ltb_spec index length); [| lia].
      rewrite R0.
      destruct (Z.ltb_spec c 0); [lia |].
      destruct (Z.eqb_spec c term); [contradiction |].
      cbn [orb].
      rewrite (wrap32_small (index + 1)) by lia.
      rewrite (Z.mod_small c 256) by lia.
      fold st1. rewrite E. f_equal. rewrite Nat2Z.inj_succ. lia.
    + exact U'.
    + rewrite C'. unfold st1. rewrite store_clock.
      rewrite <- wrap32_add_l, C0, wrap32_add_l. f_equal.
      rewrite duration_app, duration_cons. ring.
    + intros i Hlt. destruct i as [| i].
      * rewrite Z.add_0_r. rewrite F' by lia. unfold st1. apply peek_store_same.
      * change (nth (S i) (c :: bytes) 0) with (nth i bytes 0).
        rewrite <- (P' i) by (simpl in Hlt; lia).
        f_equal. rewrite Nat2Z.inj_succ. lia.
    + intros j Hj. rewrite F' by lia. unfold st1.
      rewrite peek_store_other by (apply cell_distinct; lia).
      apply peek_same_mem; assumption.
Qed.

(** [readBytesUntil] on bytes that are followed by the terminator. *)
Lemma readBytesUntil_terminated fuel term buffer length timeout st qs ts bytes rest :
  uart st = qs ++ ts ++ rest ->
  delivers timeout qs bytes -> delivers timeout ts [term] ->
  Forall (stored_byte term) bytes ->
  Z.of_nat (List.length bytes) < length -> length < 2 ^ 32 ->
  timeout < 2 ^ 32 -> (List.length (qs ++ ts) < fuel)%nat ->
  exists st',
    readBytesUntil fuel term buffer length timeout st
    = Some (Z.of_nat (List.length bytes), st')
    /\ uart st' = rest
    /\ wrap32 (clock st') = wrap32 (clock st + duration (qs ++ ts))
    /\ (forall i, (i < List.length bytes)%nat -> peek buffer (Z.of_nat i) st' = nth i bytes 0)
    /\ peek buffer (Z.of_nat (List.length bytes)) st' = 0.
Proof.
  intros U D Dt V Hlen Hmax Ht Hfuel.
  rewrite length_app in Hfuel.
  pose proof (delivers_length _ _ _ D) as Lq.
  destruct (readBytesUntil_loop_consume timeout qs bytes D (fuel - List.length bytes) fuel term
              buffer length 0 st _ U V) as (st1 & E & U1 & C1 & P1 & _); try lia.
  replace (List.length bytes + (fuel - List.length bytes))%nat with fuel in E by lia.
  destruct (fuel - List.length bytes)%nat as [| m] eqn:M; [lia |].
  inversion Dt as [| ms d c ps' bytes' I Hc D']; subst. inversion D'; subst.
  rewrite <- app_assoc in U1. cbn [app] in U1.
  rewrite length_app in Hfuel. cbn [List.length] in Hfuel.
  destruct (timedRead_arrives fuel timeout st1 ms d term rest U1 I Ht Hc)
    as (st2 & R2 & U2 & C2 & M2 & O2); [lia |].
  exists (store buffer (Z.of_nat (List.length bytes)) 0 st2).
  unfold readBytesUntil. destruct (Z.ltb_spec length 1); [lia |].
  rewrite E. cbn [readBytesUntil_loop]. rewrite Z.add_0_l.
  destruct (Z.ltb_spec (Z.of_nat (List.length bytes)) length); [| lia].
  rewrite R2. rewrite Z.eqb_refl, orb_true_r.
  destruct (Z.ltb_spec (Z.of_nat (List.length bytes)) length); [| lia].
  split; [reflexivity |]. split; [rewrite store_uart; exact U2 |].
  split; [| split].
  - rewrite store_clock, C2. rewrite <- wrap32_add_l, C1, wrap32_add_l. f_equal.
    rewrite !duration_app, duration_cons. change (duration []) with 0. ring.
  - intros i Hlt. rewrite peek_store_other by (apply cell_distinct; lia).
    rewrite (peek_same_mem _ _ st1 st2 M2 O2). apply (P1 i Hlt).
  - apply peek_store_same.
Qed.

(** [readBytesUntil] on bytes that fill the whole length. *)
Lemma readBytesUntil_full fuel term buffer length timeout st qs bytes tail :
  uart st = qs ++ tail ->
  delivers timeout qs bytes ->
  Forall (stored_byte term) bytes ->
  Z.of_nat (List.length bytes) = length -> 1 <= length < 2 ^ 32 ->
  timeout < 2 ^ 32 -> (List.length qs < fuel)%nat ->
  exists st',
    readBytesUntil fuel term buffer length timeout st = Some (length, st')
    /\ uart st' = tail
    /\ (forall i, (i < List.length bytes)%nat -> peek buffer (Z.of_nat i) st' = nth i bytes 0).
Proof.
  intros U D V Hlen Hmax Ht Hfuel.
  pose proof (delivers_length _ _ _ D) as Lq.
  destruct (readBytesUntil_loop_consume timeout qs bytes D (fuel - List.length bytes) fuel term
              buffer length 0 st _ U V) as (st1 & E & U1 & C1 & P1 & _); try lia.
  replace (List.length bytes + (fuel - List.length bytes))%nat with fuel in E by lia.
  destruct (fuel - List.length bytes)%nat as [| m] eqn:M; [lia |].
  exists st1. unfold readBytesUntil. destruct (Z.ltb_spec length 1); [lia |].
  rewrite E. cbn [readBytesUntil_loop]. rewrite Z.add_0_l.
  destruct (Z.ltb_spec (Z.of_nat (List.length bytes)) length); [lia |].
  rewrite Hlen. rewrite Z.ltb_irrefl.
  split; [reflexivity |]. split; [exact U1 |].
  intros i Hlt. apply (P1 i Hlt).
Qed.

(** ** Framing a line *)

Lemma terminator_last :
  nth (Z.to_nat (SODAQ_UBLOX_TERMINATOR_LEN - 1)) SODAQ_UBLOX_TERMINATOR 0 = LF.
Proof. reflexivity. Qed.

Lemma stored_bytes_cr line :
  Forall (stored_byte LF) line -> Forall (stored_byte LF) (line ++ [CR]).
Proof.
  intros H. apply Forall_app. split; [exact H |].
  constructor; [| constructor]. unfold stored_byte, CR, LF. lia.
Qed.

(** Bytes that arrive one by one, each found by the first poll. *)
Lemma delivers_wire timeout bytes :
  0 <= timeout -> Forall (fun c => 0 <= c) bytes -> delivers timeout (wire bytes) bytes.
Proof.
  intros Ht. induction 1 as [| c bytes Hc _ IH]; [constructor |].
  apply (delivers_cons timeout [] 1 c (wire bytes) bytes); try assumption.
  split; [constructor | exact Ht].
Qed.

(** The last steps of [readLn] when the bytes collected end with CR. *)
Lemma readLn_strip fuel buffer size timeout st line st1 :
  readBytesUntil fuel LF buffer (wrap32 (size - 1)) timeout st
  = Some (Z.of_nat (List.length (line ++ [CR])), st1) ->
  Z.of_nat (List.length line) + 2 <= size -> size < 2 ^ 32 ->
  (forall i, (i < List.length (line ++ [CR]))%nat ->
             peek buffer (Z.of_nat i) st1 = nth i (line ++ [CR]) 0) ->
  exists st',
    readLn fuel buffer size timeout st = Some (Z.of_nat (List.length line), st')
    /\ uart st' = uart st1
    /\ clock st' = clock st1
    /\ holds_line line buffer st'.
Proof.
  intros E Hsize Hmax P.
  rewrite length_app in E, P. cbn [List.length] in E, P.
  assert (L : (List.length line + 1)%nat = S (List.length line)) by lia.
  rewrite L in E, P. rewrite Nat2Z.inj_succ in E.
  set (n := Z.of_nat (List.length line)) in *.
  assert (Hn : 0 <= n) by (unfold n; lia).
  assert (Pcr : peek buffer n st1 = CR).
  { unfold n. rewrite (P (List.length line)) by lia.
    rewrite app_nth2 by lia. rewrite Nat.sub_diag. reflexivity. }
  exists (store buffer n 0 (log (Load (blk buffer) (cell buffer n)) st1)).
  split; [| split; [| split; [| split]]].
  - unfold readLn. rewrite terminator_last, E.
    change (1 <? SODAQ_UBLOX_TERMINATOR_LEN) with true. cbv iota.
    change (SODAQ_UBLOX_TERMINATOR_LEN - 1) with 1.
    replace (Z.succ n - 1) with n by lia.
    rewrite (wrap32_small n) by lia.
    unfold load. rewrite Pcr.
    change (CR =? nth 0 SODAQ_UBLOX_TERMINATOR 0) with true. cbv iota.
    reflexivity.
  - rewrite store_uart. reflexivity.
  - rewrite store_clock. reflexivity.
  - intros i Hlt. rewrite peek_store_other by (apply cell_distinct; unfold n; lia).
    change (peek buffer (Z.of_nat i) (log (Load (blk buffer) (cell buffer n)) st1))
      with (peek buffer (Z.of_nat i) st1).
    rewrite (P i) by lia. apply app_nth1. exact Hlt.
  - apply peek_store_same.
Qed.

(** A line that leaves room for more: [readLn] consumes its terminator. *)
Lemma readLn_crlf fuel buffer size timeout st ps line rest :
  uart st = ps ++ rest ->
  delivers timeout ps (line ++ [CR; LF]) ->
  Forall (stored_byte LF) line ->
  Z.of_nat (List.length line) + 2 < size -> size < 2 ^ 32 ->
  timeout < 2 ^ 32 -> (List.length ps < fuel)%nat ->
  exists st',
    readLn fuel buffer size timeout st = Some (Z.of_nat (List.length line), st')
    /\ uart st' = rest
    /\ wrap32 (clock st') = wrap32 (clock st + duration ps)
    /\ holds_line line buffer st'.
Proof.
  intros U D V Hsize Hmax Ht Hfuel.
  change (line ++ [CR; LF]) with (line ++ [CR] ++ [LF]) in D. rewrite app_assoc in D.
  destruct (delivers_app_inv timeout (line ++ [CR]) ps [LF] D) as (qs & ts & E & Dq & Dt).
  subst ps. rewrite <- app_assoc in U.
  destruct (readBytesUntil_terminated fuel LF buffer (wrap32 (size - 1)) timeout st
              qs ts (line ++ [CR]) rest U Dq Dt (stored_bytes_cr line V))
    as (st1 & R & U1 & C1 & P1 & _); try assumption.
  { rewrite wrap32_small by lia. rewrite length_app. simpl. lia. }
  { apply wrap32_range. }
  destruct (readLn_strip fuel buffer size timeout st line st1 R) as (st' & R' & U2 & C2 & H2);
    try lia; [exact P1 |].
  exists st'. split; [exact R' |]. split; [congruence |].
  split; [| exact H2]. rewrite C2. exact C1.
Qed.

(** A line that fills the buffer: the LF stays in the UART. *)
Lemma readLn_crlf_full fuel buffer size timeout st ps line rest :
  uart st = ps ++ rest ->
  delivers timeout ps (line ++ [CR; LF]) ->
  Forall (stored_byte LF) line ->
  Z.of_nat (List.length line) + 2 = size -> size < 2 ^ 32 ->
  timeout < 2 ^ 32 -> (List.length ps < fuel)%nat ->
  exists st',
    readLn fuel buffer size timeout st = Some (Z.of_nat (List.length line), st')
    /\ holds_line line buffer st'.
Proof.
  intros U D V Hsize Hmax Ht Hfuel.
  change (line ++ [CR; LF]) with (line ++ [CR] ++ [LF]) in D. rewrite app_assoc in D.
  destruct (delivers_app_inv timeout (line ++ [CR]) ps [LF] D) as (qs & ts & E & Dq & Dt).
  subst ps. rewrite <- app_assoc in U. rewrite length_app in Hfuel.
  assert (Hl : Z.of_nat (List.length (line ++ [CR])) = wrap32 (size - 1)).
  { rewrite wrap32_small by lia. rewrite length_app. simpl. lia. }
  destruct (readBytesUntil_full fuel LF buffer (wrap32 (size - 1)) timeout st
              qs (line ++ [CR]) _ U Dq (stored_bytes_cr line V) Hl)
    as (st1 & R & U1 & P1); try assumption; try lia.
  { rewrite wrap32_small; lia. }
  assert (R1 : readBytesUntil fuel LF buffer (wrap32 (size - 1)) timeout st
               = Some (Z.of_nat (List.length (line ++ [CR])), st1))
    by (rewrite Hl; exact R).
  destruct (readLn_strip fuel buffer size timeout st line st1 R1) as (st' & R' & _ & _ & H2);
    try lia; [exact P1 |].
  exists st'. split; assumption.
Qed.

(** C10. When the bytes of a line (none of them LF) followed by CR LF
    arrive, each within the time-out of [readLn], and line and terminator
    fit the [size] bytes of the buffer, [readLn] returns the length of the
    line without its two terminator bytes, the buffer holds NUL at that
    index and the line below it. *)
Theorem readLn_excludes_terminator fuel buffer size timeout st ps line rest :
  uart st = ps ++ rest ->
  delivers timeout ps (line ++ [CR; LF]) ->
  Forall (stored_byte LF) line ->
  Z.of_nat (List.length line) + 2 <= size -> size < 2 ^ 32 ->
  timeout < 2 ^ 32 -> (List.length ps < fuel)%nat ->
  exists st',
    readLn fuel buffer size timeout st = Some (Z.of_nat (List.length line), st')
    /\ peek buffer (Z.of_nat (List.length line)) st' = 0
    /\ (forall i, (i < List.length line)%nat -> peek buffer (Z.of_nat i) st' = nth i line 0).
Proof.
  intros U D V Hsize Hmax Ht Hfuel.
  destruct (Z.eq_dec (Z.of_nat (List.length line) + 2) size) as [Heq | Hne].
  - destruct (readLn_crlf_full fuel buffer size timeout st ps line rest U D V)
      as (st' & R & B & N); try assumption.
    exists st'. repeat split; assumption.
  - destruct (readLn_crlf fuel buffer size timeout st ps line rest U D V)
      as (st' & R & _ & _ & B & N); try assumption; try lia.
    exists st'. repeat split; assumption.
Qed.

Lemma readLn_excludes_terminator_witness :
  exists st',
    readLn 8 getInputBuffer 8 250
      (boot [(1, 72); (100, -1); (100, -1); (3, 105); (1, 13); (50, -1); (1, 10)] 85)
    = Some (2, st')
    /\ peek getInputBuffer 2 st' = 0
    /\ (forall i, (i < 2)%nat -> peek getInputBuffer (Z.of_nat i) st' = nth i [72; 105] 0).
Proof.
  apply (readLn_excludes_terminator 8 getInputBuffer 8 250
           (boot [(1, 72); (100, -1); (100, -1); (3, 105); (1, 13); (50, -1); (1, 10)] 85)
           [(1, 72); (100, -1); (100, -1); (3, 105); (1, 13); (50, -1); (1, 10)]
           [72; 105] []).
  - reflexivity.
  - apply (delivers_cons 250 [] 1 72); [split; [apply Forall_nil | vm_compute; discriminate] | lia |].
    apply (delivers_cons 250 [(100, -1); (100, -1)] 3 105);
      [split; [repeat constructor; simpl; lia | vm_compute; discriminate] | lia |].
    apply (delivers_cons 250 [] 1 13); [split; [apply Forall_nil | vm_compute; discriminate] | lia |].
    apply (delivers_cons 250 [(50, -1)] 1 10);
      [split; [repeat constructor; simpl; lia | vm_compute; discriminate] | lia |].
    constructor.
  - repeat constructor; unfold LF; lia.
  - simpl; lia.
  - lia.
  - lia.
  - simpl; lia.
Defined.

(** ** Strings in memory *)

Lemma strlen_nonul l : NoNul l -> strlen l = Z.of_nat (List.length l).
Proof.
  induction 1 as [| c l Hc _ IH]; [reflexivity |].
  cbn [strlen List.length]. destruct (Z.eqb_spec c 0); [contradiction |].
  rewrite IH. lia.
Qed.

Lemma begins_with_cons a r p st :
  begins_with (a :: r) p st <-> peek p 0 st = a /\ begins_with r (ptr_add p 1) st.
Proof.
  unfold begins_with. split.
  - intros H. split.
    + apply (H O). simpl. lia.
    + intros i Hi. rewrite peek_ptr_add.
      replace (1 + Z.of_nat i) with (Z.of_nat (S i)) by lia.
      apply (H (S i)). simpl. lia.
  - intros [H0 H] i Hi. destruct i as [| i]; [exact H0 |].
    replace (Z.of_nat (S i)) with (1 + Z.of_nat i) by lia.
    rewrite <- peek_ptr_add. apply H. simpl in Hi. lia.
Qed.

Lemma holds_line_cons b l p st :
  holds_line (b :: l) p st <-> peek p 0 st = b /\ holds_line l (ptr_add p 1) st.
Proof.
  unfold holds_line. rewrite begins_with_cons, peek_ptr_add.
  cbn [List.length]. replace (Z.of_nat (S (List.length l))) with (1 + Z.of_nat (List.length l)) by lia.
  tauto.
Qed.

Lemma strncmp_begins pre :
  forall p st, NoNul pre ->
    (strncmp pre p (List.length pre) st = 0 <-> begins_with pre p st).
Proof.
  induction pre as [| a r IH]; intros p st N.
  - simpl. split; [| reflexivity]. intros _ i Hi. inversion Hi.
  - inversion N as [| ? ? Ha Nr]; subst.
    rewrite begins_with_cons. cbn [List.length strncmp hd tl].
    destruct (Z.eqb_spec a (peek p 0 st)) as [E | E].
    + destruct (Z.eqb_spec a 0); [contradiction |].
      rewrite (IH (ptr_add p 1) st Nr). intuition congruence.
    + split; [lia | intros [H _]; congruence].
Qed.

(** [startsWith] is the literal comparison of the first bytes. *)
Lemma startsWith_begins pre p st :
  NoNul pre -> (startsWith pre p st = true <-> begins_with pre p st).
Proof.
  intros N. unfold startsWith. rewrite (strlen_nonul pre N), Nat2Z.id.
  rewrite Z.eqb_eq. apply strncmp_begins. exact N.
Qed.

Lemma begins_with_line pre :
  forall line p st, holds_line line p st -> NoNul pre ->
    (begins_with pre p st <-> is_prefix pre line = true).
Proof.
  induction pre as [| a r IH]; intros line p st H N.
  - simpl. split; [reflexivity |]. intros _ i Hi. inversion Hi.
  - inversion N as [| ? ? Ha Nr]; subst.
    rewrite begins_with_cons. destruct line as [| b l].
    + destruct H as [_ H]. simpl in H. simpl.
      split; [intros [E _]; congruence | discriminate].
    + apply holds_line_cons in H. destruct H as [Hb Hl].
      cbn [is_prefix]. rewrite andb_true_iff, Z.eqb_eq, (IH l (ptr_add p 1) st Hl Nr).
      rewrite Hb. intuition congruence.
Qed.

Lemma startsWith_line pre line p st :
  holds_line line p st -> NoNul pre -> startsWith pre p st = is_prefix pre line.
Proof.
  intros H N.
  destruct (is_prefix pre line) eqn:E.
  - apply startsWith_begins; [exact N |]. apply (begins_with_line pre line p st H N). exact E.
  - destruct (startsWith pre p st) eqn:S; [| reflexivity].
    apply startsWith_begins in S; [| exact N].
    apply (begins_with_line pre line p st H N) in S. congruence.
Qed.

Lemma cstring_line line :
  forall n p st, holds_line line p st -> NoNul line -> (List.length line < n)%nat ->
    cstring n p st = line.
Proof.
  induction line as [| b l IH]; intros n p st H N Hn.
  - destruct n as [| n]; [lia |]. destruct H as [_ H]. simpl in H.
    cbn [cstring]. rewrite H. reflexivity.
  - destruct n as [| n]; [simpl in Hn; lia |].
    apply holds_line_cons in H. destruct H as [Hb Hl].
    inversion N as [| ? ? Hb0 Nl]; subst.
    cbn [cstring]. destruct (Z.eqb_spec (peek p 0 st) 0); [contradiction |].
    f_equal. apply IH; try assumption. simpl in Hn. lia.
Qed.

Lemma nonul_AT : NoNul (bytes_of "AT").
Proof. repeat constructor; discriminate. Qed.

Lemma nonul_OK : NoNul (bytes_of "OK").
Proof. repeat constructor; discriminate. Qed.

Lemma nonul_ERROR : NoNul (bytes_of "ERROR").
Proof. repeat constructor; discriminate. Qed.

Lemma nonul_CME : NoNul (bytes_of "+CME ERROR:").
Proof. repeat constructor; discriminate. Qed.

Lemma nonul_CMS : NoNul (bytes_of "+CMS ERROR:").
Proof. repeat constructor; discriminate. Qed.

(** ** One turn of the response loop *)

Lemma begins_with_wdt pre p st :
  begins_with pre p (sodaq_wdt_reset st) <-> begins_with pre p st.
Proof. reflexivity. Qed.

Lemma startsWith_false pre p st :
  NoNul pre -> ~ begins_with pre p st -> startsWith pre p st = false.
Proof.
  intros N H. destruct (startsWith pre p st) eqn:E; [| reflexivity].
  apply startsWith_begins in E; [contradiction | exact N].
Qed.


(** *** The watchdog *)

Lemma memcpy_wdt n :
  forall dst src st, wdt_resets (memcpy dst src n st) = wdt_resets st.
Proof.
  induction n as [| n IH]; intros dst src st; [reflexivity |].
  cbn [memcpy]. rewrite IH. apply store_wdt.
Qed.

Lemma append_line_wdt ob outMaxSize prefix hasPrefix count outSize st :
  wdt_resets (snd (append_line ob outMaxSize prefix hasPrefix count outSize st))
  = wdt_resets st.
Proof.
  unfold append_line.
  destruct ((0 <? outSize) && (outSize <? wrap32 (outMaxSize - 1)));
    match goal with
    | |- context [if ?c <? ?d then _ else _] => destruct (c <? d)
    end; cbn [snd]; try reflexivity;
    destruct hasPrefix; cbn [snd];
    repeat (rewrite ?store_wdt, ?memcpy_wdt); reflexivity.
Qed.

Lemma classify_line_wdt dev outBuffer outMaxSize prefix count outSize st :
  wdt_resets (snd (classify_line dev outBuffer outMaxSize prefix count outSize st))
  = wdt_resets st.
Proof.
  unfold classify_line.
  destruct (startsWith (bytes_of "AT") getInputBuffer st); [reflexivity |].
  destruct (startsWith (bytes_of "OK") getInputBuffer st); [reflexivity |].
  destruct (startsWith (bytes_of "ERROR") getInputBuffer st
            || startsWith (bytes_of "+CME ERROR:") getInputBuffer st
            || startsWith (bytes_of "+CMS ERROR:") getInputBuffer st); [reflexivity |].
  set (pre := match prefix with Some p => p | None => [] end).
  set (line := cstring _ _ _).
  destruct (usePrefix prefix && useOutBuffer outBuffer outMaxSize
            && startsWith pre getInputBuffer st); cbn [negb orb].
  - destruct outBuffer as [ob |]; [| reflexivity].
    pose proof (append_line_wdt ob outMaxSize pre true count outSize st) as W.
    destruct (append_line ob outMaxSize pre true count outSize st). exact W.
  - destruct (checkURC dev line); [reflexivity |].
    destruct (negb (usePrefix prefix) && useOutBuffer outBuffer outMaxSize); [| reflexivity].
    destruct outBuffer as [ob |]; [| reflexivity].
    pose proof (append_line_wdt ob outMaxSize pre false count outSize (offer_urc line st)) as W.
    destruct (append_line ob outMaxSize pre false count outSize (offer_urc line st)). exact W.
Qed.

Lemma readResponse_iter_wdt dev fuel outBuffer outMaxSize prefix outSize st step st' :
  readResponse_iter dev fuel outBuffer outMaxSize prefix outSize st = Some (step, st') ->
  wdt_resets st' = S (wdt_resets st)
  /\ (forall len st1,
        readLn_input dev fuel 250 st = Some (len, st1) -> to_int len <= 0 ->
        step = Continue outSize /\ st' = sodaq_wdt_reset st1).
Proof.
  unfold readResponse_iter. intros H.
  destruct (readLn_input dev fuel 250 st) as [[len st1] |] eqn:R; [| discriminate].
  pose proof (readLn_frame fuel getInputBuffer _ 250 st len st1 eq_refl R) as (_ & W & _).
  split.
  - destruct (to_int len <=? 0).
    + inversion H; subst. simpl. rewrite W. reflexivity.
    + inversion H as [H1].
      pose proof (classify_line_wdt dev outBuffer outMaxSize prefix (to_int len) outSize
                    (sodaq_wdt_reset st1)) as K.
      rewrite H1 in K. simpl in K. rewrite K, W. reflexivity.
  - intros len' st1' E Hle. inversion E; subst len' st1'.
    destruct (Z.leb_spec (to_int len) 0); [| lia].
    inversion H; subst. split; reflexivity.
Qed.

(** *** A turn that reads a whole line *)

Lemma readResponse_iter_line dev fuel outBuffer outMaxSize prefix outSize st ps line rest :
  uart st = ps ++ rest ->
  delivers 250 ps (line ++ [CR; LF]) ->
  framed (_inputBufferSize dev) line ->
  (List.length ps < fuel)%nat ->
  exists st2,
    readResponse_iter dev fuel outBuffer outMaxSize prefix outSize st
    = Some (classify_line dev outBuffer outMaxSize prefix
              (Z.of_nat (List.length line)) outSize st2)
    /\ holds_line line getInputBuffer st2
    /\ uart st2 = rest
    /\ wrap32 (clock st2) = wrap32 (clock st + duration ps)
    /\ out_blk st2 = out_blk st
    /\ wdt_resets st2 = S (wdt_resets st)
    /\ urc_offers st2 = urc_offers st.
Proof.
  intros U D (Hne & V & Hsize & Hmax) Hfuel.
  destruct (readLn_crlf fuel getInputBuffer (_inputBufferSize dev) 250 st ps line rest U D V)
    as (st1 & R & U1 & C1 & H1); try lia.
  pose proof (readLn_frame fuel getInputBuffer _ 250 st _ st1 eq_refl R) as (F1 & F2 & F3).
  exists (sodaq_wdt_reset st1).
  split; [| split; [| split; [| split; [| split; [| split]]]]].
  - unfold readResponse_iter, readLn_input. rewrite R.
    assert (0 < Z.of_nat (List.length line)).
    { destruct line; [congruence | simpl; lia]. }
    rewrite to_int_small by lia.
    destruct (Z.leb_spec (Z.of_nat (List.length line)) 0); [lia | reflexivity].
  - exact H1.
  - exact U1.
  - exact C1.
  - exact F1.
  - cbn [sodaq_wdt_reset wdt_resets]. rewrite F2. reflexivity.
  - exact F3.
Qed.

Lemma classify_line_echo dev outBuffer outMaxSize prefix count outSize st line :
  holds_line line getInputBuffer st ->
  is_prefix (bytes_of "AT") line = true ->
  classify_line dev outBuffer outMaxSize prefix count outSize st = (Continue outSize, st).
Proof.
  intros H A. unfold classify_line.
  rewrite (startsWith_line _ line _ st H nonul_AT), A. reflexivity.
Qed.

Lemma classify_line_ok dev outBuffer outMaxSize prefix count outSize st line :
  holds_line line getInputBuffer st ->
  is_prefix (bytes_of "AT") line = false ->
  is_prefix (bytes_of "OK") line = true ->
  classify_line dev outBuffer outMaxSize prefix count outSize st = (Return GSMResponseOK, st).
Proof.
  intros H A K. unfold classify_line.
  rewrite (startsWith_line _ line _ st H nonul_AT), A.
  rewrite (startsWith_line _ line _ st H nonul_OK), K. reflexivity.
Qed.

Lemma classify_line_plain dev outBuffer outMaxSize prefix count outSize st line :
  holds_line line getInputBuffer st ->
  plain line -> NoNul line -> NoNul (prefix_bytes prefix) ->
  (List.length line < Z.to_nat (_inputBufferSize dev))%nat ->
  classify_line dev outBuffer outMaxSize prefix count outSize st
  = let hasPrefix := hasPrefix_of outBuffer outMaxSize prefix line in
    let (handled, st1) :=
      if negb hasPrefix then (checkURC dev line, offer_urc line st) else (false, st) in
    if handled then (Continue outSize, st1)
    else if hasPrefix || (negb (usePrefix prefix) && useOutBuffer outBuffer outMaxSize) then
      match outBuffer with
      | Some ob =>
          let (outSize1, st2) :=
            append_line ob outMaxSize (prefix_bytes prefix) hasPrefix count outSize st1 in
          (Continue outSize1, st2)
      | None => (Continue outSize, st1)
      end
    else (Continue outSize, st1).
Proof.
  intros H (A & K & E1 & E2 & E3) N Np Hn. unfold classify_line.
  rewrite (startsWith_line _ line _ st H nonul_AT), A.
  rewrite (startsWith_line _ line _ st H nonul_OK), K.
  rewrite (startsWith_line _ line _ st H nonul_ERROR), E1.
  rewrite (startsWith_line _ line _ st H nonul_CME), E2.
  rewrite (startsWith_line _ line _ st H nonul_CMS), E3.
  cbn [orb]. fold (prefix_bytes prefix).
  rewrite (startsWith_line _ line _ st H Np).
  rewrite (cstring_line line _ _ st H N Hn).
  reflexivity.
Qed.

(** *** Appending to the output buffer *)

Lemma out_io_refl st : out_io st st.
Proof. repeat split. Qed.

Lemma out_io_trans a b c : out_io a b -> out_io b c -> out_io a c.
Proof.
  intros (H1 & H2 & H3 & H4 & H5) (K1 & K2 & K3 & K4 & K5).
  repeat split; congruence.
Qed.

Lemma out_io_store p i v st : blk p = OutBlk -> out_io st (store p i v st).
Proof.
  intros H. unfold out_io.
  rewrite store_clock, store_uart, store_wdt, store_urc, (store_input_blk p i v st H).
  repeat split.
Qed.

Lemma peek_input_out_io p i st st' :
  blk p = InputBlk -> out_io st st' -> peek p i st' = peek p i st.
Proof.
  intros B (_ & _ & H & _). unfold peek. rewrite B, H. reflexivity.
Qed.

(** [memcpy] from the line buffer into the output buffer. *)
Lemma memcpy_out n :
  forall dst src st,
    blk dst = OutBlk -> blk src = InputBlk -> Z.of_nat n < 2 ^ 32 ->
    let st' := memcpy dst src n st in
    out_io st st'
    /\ (forall i, (i < n)%nat -> peek dst (Z.of_nat i) st' = peek src (Z.of_nat i) st)
    /\ (forall j, Z.of_nat n - 2 ^ 32 < j < 2 ^ 32 -> ~ 0 <= j < Z.of_nat n ->
                  peek dst j st' = peek dst j st).
Proof.
  induction n as [| n IH]; intros dst src st Bd Bs Hn; cbn zeta.
  - simpl. split; [apply out_io_refl |]. split; [| reflexivity].
    intros i Hi. inversion Hi.
  - cbn [memcpy]. set (st1 := store dst 0 (peek src 0 st) st).
    destruct (IH (ptr_add dst 1) (ptr_add src 1) st1) as (F & P & Q); try assumption; try lia.
    assert (F1 : out_io st st1) by (apply out_io_store; assumption).
    split; [eapply out_io_trans; eauto |]. split.
    + intros i Hi. destruct i as [| i].
      * specialize (Q (-1)). rewrite !peek_ptr_add in Q.
        replace (1 + -1) with 0 in Q by lia.
        replace (Z.of_nat 0) with 0 by reflexivity.
        rewrite Q by lia. unfold st1. apply peek_store_same.
      * specialize (P i). rewrite !peek_ptr_add in P.
        replace (Z.of_nat (S i)) with (1 + Z.of_nat i) by lia.
        rewrite P by lia. apply peek_input_out_io; assumption.
    + intros j Hj Hout. specialize (Q (j - 1)). rewrite !peek_ptr_add in Q.
      replace (1 + (j - 1)) with j in Q by lia. rewrite Q by lia.
      unfold st1. apply peek_store_other. apply cell_distinct; lia.
Qed.

(** [append_line] when separator and bytes fit below the last byte of the
    buffer. *)
Lemma append_line_fits ob outMaxSize pre hasPrefix count outSize st body :
  blk ob = OutBlk -> 0 < outMaxSize < 2 ^ 32 -> 0 <= outSize ->
  append_count pre hasPrefix count = Z.of_nat (List.length body) ->
  begins_with body (append_src pre hasPrefix) st ->
  append_start outSize < outMaxSize - 1 ->
  append_start outSize + Z.of_nat (List.length body) <= outMaxSize - 1 ->
  exists st',
    append_line ob outMaxSize pre hasPrefix count outSize st
    = (append_start outSize + Z.of_nat (List.length body), st')
    /\ out_io st st'
    /\ (0 < outSize -> peek ob outSize st' = LF)
    /\ begins_with body (ptr_add ob (append_start outSize)) st'
    /\ peek ob (append_start outSize + Z.of_nat (List.length body)) st' = 0
    /\ (forall j, 0 <= j < outSize -> peek ob j st' = peek ob j st).
Proof.
  intros Bo HM Ho Hc Hb Hs Hfit.
  set (n := List.length body) in *.
  set (start := append_start outSize) in *.
  set (sta := if 0 <? outSize then store ob outSize LF st else st).
  assert (Hstart : outSize <= start /\ (0 < outSize -> start = outSize + 1)
                   /\ (outSize <= 0 -> start = outSize)).
  { unfold start, append_start. destruct (Z.ltb_spec 0 outSize); lia. }
  assert (Fa : out_io st sta).
  { unfold sta. destruct (0 <? outSize); [apply out_io_store; exact Bo | apply out_io_refl]. }
  assert (La : 0 < outSize -> peek ob outSize sta = LF).
  { intros H. unfold sta. destruct (Z.ltb_spec 0 outSize); [| lia]. apply peek_store_same. }
  assert (Ka : forall j, 0 <= j < outSize -> peek ob j sta = peek ob j st).
  { intros j Hj. unfold sta. destruct (0 <? outSize); [| reflexivity].
    apply peek_store_other. apply cell_distinct; lia. }
  assert (E1 : (if (0 <? outSize) && (outSize <? wrap32 (outMaxSize - 1))
                then (wrap32 (outSize + 1), store ob outSize LF st)
                else (outSize, st)) = (start, sta)).
  { rewrite (wrap32_small (outMaxSize - 1)) by lia. unfold sta, start, append_start.
    destruct (Z.ltb_spec 0 outSize); cbn [andb]; [| reflexivity].
    destruct (Z.ltb_spec outSize (outMaxSize - 1)); [| lia].
    rewrite wrap32_small by lia. reflexivity. }
  set (stm := memcpy (ptr_add ob start) (append_src pre hasPrefix) n sta).
  destruct (memcpy_out n (ptr_add ob start) (append_src pre hasPrefix) sta) as (Fm & Pm & Qm).
  { exact Bo. }
  { unfold append_src. destruct hasPrefix; reflexivity. }
  { lia. }
  fold stm in Fm, Pm, Qm.
  assert (Bs : blk (append_src pre hasPrefix) = InputBlk)
    by (unfold append_src; destruct hasPrefix; reflexivity).
  exists (store ob (start + Z.of_nat n) 0 stm).
  split; [| split; [| split; [| split; [| split]]]].
  - unfold append_line. rewrite E1.
    rewrite (wrap32_small (outMaxSize - 1)) by lia.
    destruct (Z.ltb_spec start (outMaxSize - 1)); [| lia].
    assert (E2 : (if hasPrefix
                  then (to_int (count - to_int (strlen pre)),
                        ptr_add getInputBuffer (to_int (strlen pre)))
                  else (count, getInputBuffer))
                 = (Z.of_nat n, append_src pre hasPrefix)).
    { unfold append_src. unfold append_count in Hc. destruct hasPrefix; rewrite Hc; reflexivity. }
    rewrite E2. cbv zeta.
    rewrite !(wrap32_small (start + Z.of_nat n)) by lia.
    destruct (Z.gtb_spec (start + Z.of_nat n) (outMaxSize - 1)); [lia |].
    rewrite !(wrap32_small (start + Z.of_nat n)) by lia.
    rewrite (wrap32_small (Z.of_nat n)) by lia. rewrite Nat2Z.id.
    reflexivity.
  - eapply out_io_trans; [exact Fa |]. eapply out_io_trans; [exact Fm |].
    apply out_io_store. exact Bo.
  - intros H. rewrite peek_store_other by (apply cell_distinct; lia).
    specialize (Qm (outSize - start)). rewrite !peek_ptr_add in Qm.
    replace (start + (outSize - start)) with outSize in Qm by lia.
    rewrite Qm by lia. apply La. exact H.
  - intros i Hi. rewrite peek_ptr_add.
    rewrite peek_store_other by (apply cell_distinct; lia).
    rewrite <- peek_ptr_add. rewrite (Pm i Hi).
    rewrite (peek_input_out_io _ _ st sta Bs Fa). apply Hb. exact Hi.
  - apply peek_store_same.
  - intros j Hj. rewrite peek_store_other by (apply cell_distinct; lia).
    specialize (Qm (j - start)). rewrite !peek_ptr_add in Qm.
    replace (start + (j - start)) with j in Qm by lia.
    rewrite Qm by lia. apply Ka. exact Hj.
Qed.

Lemma memcpy_urc n :
  forall dst src st, urc_offers (memcpy dst src n st) = urc_offers st.
Proof.
  induction n as [| n IH]; intros dst src st; [reflexivity |].
  cbn [memcpy]. rewrite IH. apply store_urc.
Qed.

Lemma append_line_urc ob outMaxSize prefix hasPrefix count outSize st :
  urc_offers (snd (append_line ob outMaxSize prefix hasPrefix count outSize st))
  = urc_offers st.
Proof.
  unfold append_line.
  destruct ((0 <? outSize) && (outSize <? wrap32 (outMaxSize - 1)));
    match goal with
    | |- context [if ?c <? ?d then _ else _] => destruct (c <? d)
    end; cbn [snd]; try reflexivity;
    destruct hasPrefix; cbn [snd];
    repeat (rewrite ?store_urc, ?memcpy_urc); reflexivity.
Qed.

Lemma framed_length size line :
  framed size line -> (List.length line < Z.to_nat size)%nat.
Proof. intros (_ & _ & H & _). lia. Qed.

(** *** The URC hook *)

(** C9, as the code has it.  A framed line that is neither an echo nor a
    terminal marker is handed to [checkURC] unless it is taken as a
    prefixed payload line, which needs a non-empty expected prefix, an
    enabled output buffer and a line that begins with the prefix.  When the
    hook claims the line, the turn ends there: [outSize] and the output
    buffer are as before and the loop goes on.  A line taken as prefixed
    payload is not handed to the hook. *)
Theorem urc_dispatch dev fuel outBuffer outMaxSize prefix outSize st ps line rest :
  uart st = ps ++ rest ->
  delivers 250 ps (line ++ [CR; LF]) ->
  framed (_inputBufferSize dev) line -> (List.length ps < fuel)%nat ->
  plain line -> NoNul line -> NoNul (prefix_bytes prefix) ->
  exists step st',
    readResponse_iter dev fuel outBuffer outMaxSize prefix outSize st = Some (step, st')
    /\ (hasPrefix_of outBuffer outMaxSize prefix line = false ->
        urc_offers st' = line :: urc_offers st
        /\ (checkURC dev line = true ->
            step = Continue outSize /\ out_blk st' = out_blk st))
    /\ (hasPrefix_of outBuffer outMaxSize prefix line = true ->
        urc_offers st' = urc_offers st).
Proof.
  intros U P F Hf Hp N Np.
  destruct (readResponse_iter_line dev fuel outBuffer outMaxSize prefix outSize st ps line rest
              U P F Hf) as (st2 & R & H & _ & _ & O2 & _ & U2).
  rewrite (classify_line_plain dev outBuffer outMaxSize prefix _ outSize st2 line
             H Hp N Np (framed_length _ _ F)) in R.
  cbv zeta in R.
  destruct (hasPrefix_of outBuffer outMaxSize prefix line) eqn:HP; cbn [negb orb] in R.
  - destruct outBuffer as [ob |].
    + pose proof (append_line_urc ob outMaxSize (prefix_bytes prefix) true
                    (Z.of_nat (List.length line)) outSize st2) as A.
      destruct (append_line ob outMaxSize (prefix_bytes prefix) true
                  (Z.of_nat (List.length line)) outSize st2) as [o' s'].
      cbn [snd] in A. exists (Continue o'), s'.
      split; [exact R |]. split; [discriminate |]. intros _. congruence.
    + exists (Continue outSize), st2.
      split; [exact R |]. split; [discriminate |]. intros _. exact U2.
  - destruct (checkURC dev line) eqn:K.
    + exists (Continue outSize), (offer_urc line st2).
      split; [exact R |]. split; [| discriminate]. intros _.
      split; [cbn [offer_urc urc_offers]; rewrite U2; reflexivity |].
      intros _. split; [reflexivity | exact O2].
    + destruct (negb (usePrefix prefix) && useOutBuffer outBuffer outMaxSize).
      * destruct outBuffer as [ob |].
        -- pose proof (append_line_urc ob outMaxSize (prefix_bytes prefix) false
                         (Z.of_nat (List.length line)) outSize (offer_urc line st2)) as A.
           destruct (append_line ob outMaxSize (prefix_bytes prefix) false
                       (Z.of_nat (List.length line)) outSize (offer_urc line st2)) as [o' s'].
           cbn [snd] in A. exists (Continue o'), s'.
           split; [exact R |]. split; [| discriminate]. intros _.
           split; [rewrite A; cbn [offer_urc urc_offers]; rewrite U2; reflexivity |].
           discriminate.
        -- exists (Continue outSize), (offer_urc line st2).
           split; [exact R |]. split; [| discriminate]. intros _.
           split; [cbn [offer_urc urc_offers]; rewrite U2; reflexivity | discriminate].
      * exists (Continue outSize), (offer_urc line st2).
        split; [exact R |]. split; [| discriminate]. intros _.
        split; [cbn [offer_urc urc_offers]; rewrite U2; reflexivity | discriminate].
Qed.

(** ** The response loop *)

Lemma duration_nonneg ps : punctual ps -> 0 <= duration ps.
Proof.
  unfold punctual, duration. induction 1 as [| [d c] ps H _ IH]; simpl in *; lia.
Qed.

Lemma punctual_app ps qs : punctual (ps ++ qs) <-> punctual ps /\ punctual qs.
Proof. apply Forall_app. Qed.

Lemma loop_continue n dev fuel outBuffer outMaxSize prefix timeout from outSize st o1 st1 :
  is_timedout from timeout st = false ->
  readResponse_iter dev fuel outBuffer outMaxSize prefix outSize st = Some (Continue o1, st1) ->
  readResponse_loop (S n) dev fuel outBuffer outMaxSize prefix timeout from outSize st
  = readResponse_loop n dev fuel outBuffer outMaxSize prefix timeout from o1 st1.
Proof. intros T R. cbn [readResponse_loop]. rewrite T, R. reflexivity. Qed.

Lemma loop_return n dev fuel outBuffer outMaxSize prefix timeout from outSize st r st1 :
  is_timedout from timeout st = false ->
  readResponse_iter dev fuel outBuffer outMaxSize prefix outSize st = Some (Return r, st1) ->
  readResponse_loop (S n) dev fuel outBuffer outMaxSize prefix timeout from outSize st
  = Some (r, st1).
Proof. intros T R. cbn [readResponse_loop]. rewrite T, R. reflexivity. Qed.

(** Echoed command lines that arrive in time are skipped. *)
Lemma loop_skips_echoes dev fuel outBuffer outMaxSize prefix timeout from tail lines :
  forall n outSize st,
    uart st = List.concat lines ++ tail ->
    Forall (echoed (_inputBufferSize dev) fuel) lines ->
    punctual (List.concat lines) ->
    wrap32 (clock st - from) + duration (List.concat lines) <= timeout -> timeout < 2 ^ 32 ->
    exists st',
      readResponse_loop (List.length lines + n) dev fuel outBuffer outMaxSize prefix timeout
        from outSize st
      = readResponse_loop n dev fuel outBuffer outMaxSize prefix timeout from outSize st'
      /\ uart st' = tail
      /\ wrap32 (clock st' - from) = wrap32 (clock st - from) + duration (List.concat lines)
      /\ out_blk st' = out_blk st
      /\ urc_offers st' = urc_offers st
      /\ wdt_resets st' = (List.length lines + wdt_resets st)%nat.
Proof.
  induction lines as [| ps lines IH]; intros n outSize st U E Pn T Hmax.
  - exists st. unfold duration. simpl. rewrite Z.add_0_r. repeat split. exact U.
  - inversion E as [| ? ? (line & P & F & A & Hf) E']; subst.
    cbn [List.concat] in U, Pn, T. rewrite <- app_assoc in U.
    apply punctual_app in Pn. destruct Pn as [Pn1 Pn2].
    rewrite duration_app in T.
    pose proof (duration_nonneg _ Pn1). pose proof (duration_nonneg _ Pn2).
    pose proof (wrap32_range (clock st - from)).
    destruct (readResponse_iter_line dev fuel outBuffer outMaxSize prefix outSize st ps line _
                U P F Hf) as (st2 & R & H2 & U2 & C2 & O2 & W2 & K2).
    rewrite (classify_line_echo dev outBuffer outMaxSize prefix _ outSize st2 line H2 A) in R.
    pose proof (elapsed_step from st st2 (duration ps) C2) as El.
    destruct (IH n outSize st2 U2 E' Pn2) as (st' & L & U' & C' & O' & K' & W'); try lia.
    exists st'. split; [| split; [| split; [| split; [| split]]]].
    + cbn [List.length Nat.add].
      rewrite (loop_continue _ dev fuel outBuffer outMaxSize prefix timeout from outSize st
                 outSize st2); [exact L | | exact R].
      apply is_timedout_false. lia.
    + exact U'.
    + rewrite C', El by lia. cbn [List.concat]. rewrite duration_app. ring.
    + congruence.
    + congruence.
    + rewrite W', W2. cbn [List.length]. lia.
Qed.

Lemma framed_OK size : 4 < size < 2 ^ 31 -> framed size (bytes_of "OK").
Proof.
  intros Hs. unfold framed. split; [discriminate |].
  split; [repeat constructor; unfold LF; simpl; lia |].
  simpl. lia.
Qed.

(** C4, as the code has it.  When echoed lines that begin with AT and then
    the line OK arrive within the timeout, no byte after a pause of more
    than 250 ms and each line shorter with its CR LF than the line buffer,
    [readResponse] returns GSMResponseOK; the only byte of the output
    buffer it has changed is the first one, set to NUL when the call
    began: the buffer holds the empty string, the bytes after it are those
    of before the call. *)
Theorem echo_then_ok dev fuel outBuffer outMaxSize prefix timeout st lines okp rest :
  uart st = List.concat lines ++ okp ++ rest ->
  Forall (echoed (_inputBufferSize dev) fuel) lines ->
  delivers 250 okp (bytes_of "OK" ++ [CR; LF]) ->
  punctual (List.concat lines ++ okp) ->
  duration (List.concat lines ++ okp) <= timeout -> timeout < 2 ^ 32 ->
  4 < _inputBufferSize dev < 2 ^ 31 ->
  (List.length lines < fuel)%nat -> (List.length okp < fuel)%nat ->
  (forall ob, outBuffer = Some ob -> blk ob = OutBlk) ->
  exists st',
    readResponse dev fuel outBuffer outMaxSize prefix timeout st = Some (GSMResponseOK, st')
    /\ out_blk st' = match outBuffer with
                     | Some ob => upd (out_blk st) (cell ob 0) 0
                     | None => out_blk st
                     end
    /\ uart st' = rest
    /\ urc_offers st' = urc_offers st.
Proof.
  intros U E P Pn T Hmax Hs Hf1 Hf2 Hb.
  apply punctual_app in Pn. destruct Pn as [Pn1 Pn2].
  rewrite duration_app in T.
  pose proof (duration_nonneg _ Pn1). pose proof (duration_nonneg _ Pn2).
  unfold readResponse, millis.
  set (st0 := match outBuffer with Some ob => store ob 0 0 st | None => st end).
  assert (C0 : clock st0 = clock st)
    by (unfold st0; destruct outBuffer; [apply store_clock | reflexivity]).
  assert (U0 : uart st0 = List.concat lines ++ okp ++ rest)
    by (unfold st0; destruct outBuffer; [rewrite store_uart |]; exact U).
  assert (K0 : urc_offers st0 = urc_offers st)
    by (unfold st0; destruct outBuffer; [apply store_urc | reflexivity]).
  assert (O0 : out_blk st0 = match outBuffer with
                             | Some ob => upd (out_blk st) (cell ob 0) 0
                             | None => out_blk st
                             end).
  { unfold st0. destruct outBuffer as [ob |]; [| reflexivity].
    unfold store. rewrite (Hb ob eq_refl). reflexivity. }
  assert (E0 : wrap32 (clock st0 - clock st) = 0).
  { rewrite C0, Z.sub_diag. reflexivity. }
  destruct (loop_skips_echoes dev fuel outBuffer outMaxSize prefix timeout (clock st)
              (okp ++ rest) lines (fuel - List.length lines) 0 st0 U0 E Pn1)
    as (st1 & L & U1 & C1 & O1 & K1 & _); try lia.
  replace (List.length lines + (fuel - List.length lines))%nat with fuel in L by lia.
  rewrite L.
  destruct (fuel - List.length lines)%nat as [| m] eqn:M; [lia |].
  destruct (readResponse_iter_line dev fuel outBuffer outMaxSize prefix 0 st1 okp
              (bytes_of "OK") rest U1 P (framed_OK _ Hs) Hf2)
    as (st2 & R & H2 & U2 & _ & O2 & _ & K2).
  rewrite (classify_line_ok dev outBuffer outMaxSize prefix _ 0 st2 (bytes_of "OK") H2
             eq_refl eq_refl) in R.
  exists st2. split; [| split; [| split]].
  - apply loop_return; [| exact R]. apply is_timedout_false. lia.
  - congruence.
  - exact U2.
  - congruence.
Qed.

(** ** Prefixed payload lines *)

Lemma is_prefix_length pre :
  forall l, is_prefix pre l = true -> (List.length pre <= List.length l)%nat.
Proof.
  induction pre as [| a r IH]; intros l H; simpl; [lia |].
  destruct l as [| b l]; [discriminate |].
  simpl in H. apply andb_true_iff in H. destruct H as [_ H].
  apply IH in H. simpl. lia.
Qed.

Lemma nth_after_skipn k :
  forall (l : list Z) i, nth i (skipn k l) 0 = nth (k + i) l 0.
Proof.
  induction k as [| k IH]; intros l i; [reflexivity |].
  destruct l as [| b l]; [destruct i; reflexivity |].
  simpl. apply IH.
Qed.

Lemma peek_out_blk ob j st st' :
  blk ob = OutBlk -> out_blk st' = out_blk st -> peek ob j st' = peek ob j st.
Proof. intros B H. unfold peek. rewrite B, H. reflexivity. Qed.

Lemma hasPrefix_of_true ob outMaxSize p line :
  p <> [] -> NoNul p -> 0 < outMaxSize -> is_prefix p line = true ->
  hasPrefix_of (Some ob) outMaxSize (Some p) line = true.
Proof.
  intros Hp N HM H. unfold hasPrefix_of, usePrefix, useOutBuffer, prefix_bytes.
  rewrite H. destruct p as [| a r]; [congruence |].
  inversion N; subst. simpl.
  destruct (Z.eqb_spec a 0); [contradiction |].
  destruct (Z.ltb_spec 0 outMaxSize); [reflexivity | lia].
Qed.

(** A turn that reads a line beginning with the expected prefix, when the
    rest of the line fits the output buffer. *)
Lemma prefixed_line_turn dev fuel ob outMaxSize p outSize st ps line rest :
  uart st = ps ++ rest ->
  delivers 250 ps (line ++ [CR; LF]) ->
  framed (_inputBufferSize dev) line -> (List.length ps < fuel)%nat ->
  plain line -> NoNul line ->
  p <> [] -> NoNul p -> is_prefix p line = true ->
  blk ob = OutBlk -> 0 < outMaxSize < 2 ^ 32 -> 0 <= outSize ->
  let body := skipn (List.length p) line in
  let start := append_start outSize in
  start < outMaxSize - 1 ->
  start + Z.of_nat (List.length body) <= outMaxSize - 1 ->
  exists st',
    readResponse_iter dev fuel (Some ob) outMaxSize (Some p) outSize st
    = Some (Continue (start + Z.of_nat (List.length body)), st')
    /\ (0 < outSize -> peek ob outSize st' = LF)
    /\ begins_with body (ptr_add ob start) st'
    /\ peek ob (start + Z.of_nat (List.length body)) st' = 0
    /\ (forall j, 0 <= j < outSize -> peek ob j st' = peek ob j st)
    /\ uart st' = rest
    /\ wrap32 (clock st') = wrap32 (clock st + duration ps)
    /\ urc_offers st' = urc_offers st.
Proof.
  intros U P F Hf Hpl N Hp Np Hpre Bo HM Ho body start Hs Hfit.
  destruct (readResponse_iter_line dev fuel (Some ob) outMaxSize (Some p) outSize st ps line rest
              U P F Hf) as (st2 & R & H & U2 & C2 & O2 & _ & K2).
  rewrite (classify_line_plain dev (Some ob) outMaxSize (Some p) _ outSize st2 line
             H Hpl N Np (framed_length _ _ F)) in R.
  rewrite (hasPrefix_of_true ob outMaxSize p line Hp Np) in R by (lia || assumption).
  cbn [negb orb prefix_bytes] in R.
  pose proof (is_prefix_length p line Hpre) as Hle.
  destruct F as (_ & _ & Hsz & Hmax).
  assert (Hbody : List.length body = (List.length line - List.length p)%nat)
    by (unfold body; apply length_skipn).
  destruct (append_line_fits ob outMaxSize p true (Z.of_nat (List.length line)) outSize st2 body)
    as (st' & A & Fo & Sep & B & Z0 & Old); try assumption.
  - unfold append_count. rewrite (strlen_nonul p Np).
    rewrite (to_int_small (Z.of_nat (List.length p))) by lia.
    rewrite to_int_small by lia. lia.
  - unfold append_src. rewrite (strlen_nonul p Np).
    rewrite (to_int_small (Z.of_nat (List.length p))) by lia.
    intros i Hi. rewrite peek_ptr_add. unfold body. rewrite nth_after_skipn.
    replace (Z.of_nat (List.length p) + Z.of_nat i)
      with (Z.of_nat (List.length p + i)) by lia.
    apply (proj1 H). lia.
  - rewrite A in R. destruct Fo as (Fc & Fu & _ & _ & Fk).
    exists st'. split; [exact R |].
    split; [exact Sep |]. split; [exact B |]. split; [exact Z0 |].
    split; [| split; [| split]].
    + intros j Hj. rewrite (Old j Hj). apply peek_out_blk; assumption.
    + congruence.
    + rewrite Fc. exact C2.
    + congruence.
Qed.

Lemma begins_with_ptr_add_0 body ob st :
  begins_with body (ptr_add ob 0) st -> begins_with body ob st.
Proof.
  intros H i Hi. specialize (H i Hi). rewrite peek_ptr_add in H. exact H.
Qed.

(** C7, as the code has it.  With a non-empty expected prefix and an
    enabled output buffer, a framed line (no byte of it after a pause of
    more than 250 ms, shorter with its CR LF than the line buffer) that
    begins with the prefix (and is neither an echo nor a terminal marker)
    and whose rest starts below the last byte of the buffer and ends at
    or below it is appended with exactly the length of the prefix stripped
    from its front and a NUL after it; one LF is written in front of it,
    and counted in where the rest starts, exactly when the buffer already
    holds a byte ([outSize] is positive), and what the buffer held is
    kept.  In particular, with prefix [+CSQ: ], a buffer of six bytes or
    more and the lines [+CSQ: 15,99] and [OK] arriving so and within the
    timeout, the call returns GSMResponseOK and the buffer holds
    [15,99]. *)
Theorem prefixed_lines_joined :
  (forall dev fuel ob outMaxSize p outSize st ps line rest,
      uart st = ps ++ rest ->
      delivers 250 ps (line ++ [CR; LF]) ->
      framed (_inputBufferSize dev) line -> (List.length ps < fuel)%nat ->
      plain line -> NoNul line ->
      p <> [] -> NoNul p -> is_prefix p line = true ->
      blk ob = OutBlk -> 0 < outMaxSize < 2 ^ 32 -> 0 <= outSize ->
      let body := skipn (List.length p) line in
      let start := append_start outSize in
      start < outMaxSize - 1 ->
      start + Z.of_nat (List.length body) <= outMaxSize - 1 ->
      exists st',
        readResponse_iter dev fuel (Some ob) outMaxSize (Some p) outSize st
        = Some (Continue (start + Z.of_nat (List.length body)), st')
        /\ (0 < outSize -> peek ob outSize st' = LF)
        /\ begins_with body (ptr_add ob start) st'
        /\ peek ob (start + Z.of_nat (List.length body)) st' = 0
        /\ (forall j, 0 <= j < outSize -> peek ob j st' = peek ob j st))
  /\ (forall dev fuel ob outMaxSize timeout st ps1 ps2 rest,
        uart st = ps1 ++ ps2 ++ rest ->
        delivers 250 ps1 (bytes_of "+CSQ: 15,99" ++ [CR; LF]) ->
        delivers 250 ps2 (bytes_of "OK" ++ [CR; LF]) ->
        punctual (ps1 ++ ps2) ->
        duration (ps1 ++ ps2) <= timeout -> timeout < 2 ^ 32 ->
        13 < _inputBufferSize dev < 2 ^ 31 ->
        (List.length ps1 < fuel)%nat -> (List.length ps2 < fuel)%nat ->
        blk ob = OutBlk -> 6 <= outMaxSize < 2 ^ 32 ->
        exists st',
          readResponse dev fuel (Some ob) outMaxSize (Some (bytes_of "+CSQ: ")) timeout st
          = Some (GSMResponseOK, st')
          /\ holds_line (bytes_of "15,99") ob st').
Proof.
  split.
  - intros dev fuel ob outMaxSize p outSize st ps line rest U P F Hf Hpl N Hp Np Hpre Bo HM Ho
           body start Hs Hfit.
    destruct (prefixed_line_turn dev fuel ob outMaxSize p outSize st ps line rest
                U P F Hf Hpl N Hp Np Hpre Bo HM Ho Hs Hfit)
      as (st' & R & Sep & B & Z0 & Old & _).
    exists st'. repeat split; assumption.
  - intros dev fuel ob outMaxSize timeout st ps1 ps2 rest U P1 P2 Pn T Hmax Hs Hf1 Hf2 Bo HM.
    apply punctual_app in Pn. destruct Pn as [Pn1 Pn2].
    rewrite duration_app in T.
    pose proof (duration_nonneg _ Pn1). pose proof (duration_nonneg _ Pn2).
    unfold readResponse, millis.
    set (st0 := store ob 0 0 st).
    assert (U0 : uart st0 = ps1 ++ ps2 ++ rest) by (unfold st0; rewrite store_uart; exact U).
    assert (C0 : clock st0 = clock st) by apply store_clock.
    assert (F1 : framed (_inputBufferSize dev) (bytes_of "+CSQ: 15,99")).
    { unfold framed. split; [discriminate |].
      split; [repeat constructor; unfold LF; simpl; lia |]. simpl. lia. }
    pose proof (delivers_length _ _ _ P1) as L1. simpl in L1.
    assert (Hpl : plain (bytes_of "+CSQ: 15,99")) by (repeat split).
    assert (N1 : NoNul (bytes_of "+CSQ: 15,99")) by (repeat constructor; discriminate).
    assert (Np : NoNul (bytes_of "+CSQ: ")) by (repeat constructor; discriminate).
    assert (Hp : bytes_of "+CSQ: " <> []) by discriminate.
    destruct (prefixed_line_turn dev fuel ob outMaxSize (bytes_of "+CSQ: ") 0 st0 ps1
                (bytes_of "+CSQ: 15,99") (ps2 ++ rest) U0 P1 F1 Hf1 Hpl N1 Hp Np eq_refl Bo)
      as (st1 & R1 & _ & B1 & Z1 & _ & U1 & C1 & _);
      try (unfold append_start; simpl; lia).
    destruct (readResponse_iter_line dev fuel (Some ob) outMaxSize (Some (bytes_of "+CSQ: "))
                (append_start 0 + Z.of_nat (List.length (skipn (List.length (bytes_of "+CSQ: "))
                                                               (bytes_of "+CSQ: 15,99"))))
                st1 ps2 (bytes_of "OK") rest U1 P2)
      as (st2 & R2 & H2 & _ & _ & O2 & _); [apply framed_OK; lia | exact Hf2 |].
    rewrite (classify_line_ok dev (Some ob) outMaxSize _ _ _ st2 (bytes_of "OK") H2
               eq_refl eq_refl) in R2.
    assert (E0 : wrap32 (clock st0 - clock st) = 0) by (rewrite C0, Z.sub_diag; reflexivity).
    pose proof (elapsed_step (clock st) st0 st1 (duration ps1) C1) as El.
    assert (T0 : is_timedout (clock st) timeout st0 = false)
      by (apply is_timedout_false; lia).
    assert (T1 : is_timedout (clock st) timeout st1 = false)
      by (apply is_timedout_false; lia).
    exists st2. split.
    + destruct fuel as [| [| m]]; try lia.
      rewrite (loop_continue _ _ _ _ _ _ _ _ _ _ _ _ T0 R1).
      apply loop_return; [exact T1 | exact R2].
    + split.
      * intros i Hi. rewrite (peek_out_blk ob _ st1 st2 Bo O2).
        apply (begins_with_ptr_add_0 _ _ _ B1 i Hi).
      * rewrite (peek_out_blk ob _ st1 st2 Bo O2). exact Z1.
Qed.

(** ** Stores into the output buffer *)

Lemma logged_refl P st : logged P st st.
Proof. exists []. split; [reflexivity | constructor]. Qed.

Lemma logged_trans P a b c : logged P a b -> logged P b c -> logged P a c.
Proof.
  intros (l1 & E1 & F1) (l2 & E2 & F2). exists (l2 ++ l1).
  split; [rewrite E2, E1; apply app_assoc | apply Forall_app; split; assumption].
Qed.

Lemma logged_same P st st' : accesses st' = accesses st -> logged P st st'.
Proof. intros E. exists []. split; [exact E | constructor]. Qed.

Lemma logged_store P p i v st :
  P (Store (blk p) (cell p i) v) -> logged P st (store p i v st).
Proof.
  intros H. exists [Store (blk p) (cell p i) v].
  split; [apply store_accesses | constructor; [exact H | constructor]].
Qed.

Lemma logged_load ob outMaxSize p i st :
  logged (out_store_ok ob outMaxSize) st (snd (load p i st)).
Proof.
  exists [Load (blk p) (cell p i)]. split; [reflexivity |].
  constructor; [exact I | constructor].
Qed.

Lemma logged_input_store ob outMaxSize p i v st :
  blk p = InputBlk -> logged (out_store_ok ob outMaxSize) st (store p i v st).
Proof. intros B. apply logged_store. rewrite B. exact I. Qed.

Lemma readBytesUntil_loop_logged ob outMaxSize n :
  forall fuel term buffer length timeout index st r st',
    blk buffer = InputBlk ->
    readBytesUntil_loop n fuel term buffer length timeout index st = Some (r, st') ->
    logged (out_store_ok ob outMaxSize) st st'.
Proof.
  induction n as [| k IH]; intros fuel term buffer length timeout index st r st' B H;
    simpl in H.
  - discriminate.
  - destruct (index <? length).
    + destruct (timedRead fuel timeout st) as [[c st1] |] eqn:T; [| discriminate].
      apply timedRead_loop_frame in T. destruct T as (_ & T & _).
      destruct ((c <? 0) || (c =? term)).
      * inversion H; subst. apply logged_same. exact T.
      * apply IH in H; [| assumption].
        eapply logged_trans; [apply logged_same; exact T |].
        eapply logged_trans; [| exact H].
        apply logged_input_store; assumption.
    + inversion H; subst. apply logged_refl.
Qed.

(** Whatever arrives, [readLn] on the line buffer stores nothing into the
    caller's block and leaves NUL at the length it returns. *)
Lemma readLn_logged ob outMaxSize fuel buffer size timeout st len st' :
  blk buffer = InputBlk ->
  readLn fuel buffer size timeout st = Some (len, st') ->
  logged (out_store_ok ob outMaxSize) st st' /\ peek buffer len st' = 0.
Proof.
  intros B H. unfold readLn, readBytesUntil in H.
  set (term := nth _ SODAQ_UBLOX_TERMINATOR 0) in H.
  assert (R : exists index st1,
             logged (out_store_ok ob outMaxSize) st st1 /\
             (let (len, st2) :=
                if 1 <? SODAQ_UBLOX_TERMINATOR_LEN
                then
                  let (c, st2) :=
                    load buffer (wrap32 (index - (SODAQ_UBLOX_TERMINATOR_LEN - 1))) st1 in
                  if c =? nth 0 SODAQ_UBLOX_TERMINATOR 0
                  then (wrap32 (index - (SODAQ_UBLOX_TERMINATOR_LEN - 1)), st2)
                  else (index, st2)
                else (index, st1) in
              Some (len, store buffer len 0 st2)) = Some (len, st')).
  { destruct (wrap32 (size - 1) <? 1).
    - exists 0, st. split; [apply logged_refl | exact H].
    - destruct (readBytesUntil_loop fuel fuel term buffer (wrap32 (size - 1)) timeout 0 st)
        as [[index st1] |] eqn:L; [| discriminate].
      apply (readBytesUntil_loop_logged ob outMaxSize) in L; [| assumption].
      eexists index, _. split; [| exact H].
      destruct (index <? wrap32 (size - 1)); [| exact L].
      eapply logged_trans; [exact L |]. apply logged_input_store; assumption. }
  destruct R as (index & st1 & L1 & E).
  change (1 <? SODAQ_UBLOX_TERMINATOR_LEN) with true in E. cbv iota in E.
  pose proof (logged_load ob outMaxSize buffer
                (wrap32 (index - (SODAQ_UBLOX_TERMINATOR_LEN - 1))) st1) as L2.
  destruct (load buffer (wrap32 (index - (SODAQ_UBLOX_TERMINATOR_LEN - 1))) st1) as [c st2].
  cbn [snd] in L2.
  destruct (c =? nth 0 SODAQ_UBLOX_TERMINATOR 0); inversion E; subst;
    (split; [| apply peek_store_same]);
    (eapply logged_trans; [exact L1 |]);
    (eapply logged_trans; [exact L2 |]);
    apply logged_input_store; assumption.
Qed.

Lemma memcpy_logged P n :
  forall dst src st,
    (forall i v, 0 <= i < Z.of_nat n -> P (Store (blk dst) (cell dst i) v)) ->
    logged P st (memcpy dst src n st).
Proof.
  induction n as [| n IH]; intros dst src st H; [apply logged_refl |].
  cbn [memcpy]. apply (logged_trans P st (store dst 0 (peek src 0 st) st)).
  - apply logged_store. apply H. lia.
  - apply IH. intros i v Hi. rewrite blk_ptr_add, cell_ptr_add. apply H. lia.
Qed.

(** Appending keeps [outSize] and every store within the buffer. *)
Lemma append_line_logged ob outMaxSize pre hasPrefix count outSize st :
  blk ob = OutBlk -> 1 <= outMaxSize <= 2 ^ 31 ->
  0 <= outSize <= outMaxSize - 1 ->
  0 <= append_count pre hasPrefix count < 2 ^ 31 ->
  0 <= fst (append_line ob outMaxSize pre hasPrefix count outSize st) <= outMaxSize - 1
  /\ logged (out_store_ok ob outMaxSize) st
       (snd (append_line ob outMaxSize pre hasPrefix count outSize st)).
Proof.
  intros Bo HM Ho Hc.
  unfold append_line. rewrite (wrap32_small (outMaxSize - 1)) by lia.
  set (start := append_start outSize).
  set (sta := if (0 <? outSize) && (outSize <? outMaxSize - 1)
              then store ob outSize LF st else st).
  assert (E1 : (if (0 <? outSize) && (outSize <? outMaxSize - 1)
                then (wrap32 (outSize + 1), store ob outSize LF st)
                else (outSize, st))
               = (if (0 <? outSize) && (outSize <? outMaxSize - 1)
                  then outSize + 1 else outSize, sta)).
  { unfold sta. destruct (Z.ltb_spec 0 outSize); cbn [andb]; [| reflexivity].
    destruct (Z.ltb_spec outSize (outMaxSize - 1)); [| reflexivity].
    rewrite wrap32_small by lia. reflexivity. }
  rewrite E1. clear E1.
  set (s1 := if (0 <? outSize) && (outSize <? outMaxSize - 1) then outSize + 1 else outSize).
  assert (Hs1 : 0 <= s1 <= outMaxSize - 1).
  { unfold s1. destruct (Z.ltb_spec 0 outSize); cbn [andb]; [| lia].
    destruct (Z.ltb_spec outSize (outMaxSize - 1)); lia. }
  assert (La : logged (out_store_ok ob outMaxSize) st sta).
  { unfold sta. destruct (Z.ltb_spec 0 outSize); cbn [andb]; [| apply logged_refl].
    destruct (Z.ltb_spec outSize (outMaxSize - 1)); [| apply logged_refl].
    apply logged_store. rewrite Bo. exists outSize. repeat split; lia. }
  destruct (Z.ltb_spec s1 (outMaxSize - 1)); [| cbn [fst snd]; split; [lia | exact La]].
  assert (E2 : (if hasPrefix
                then (to_int (count - to_int (strlen pre)),
                      ptr_add getInputBuffer (to_int (strlen pre)))
                else (count, getInputBuffer))
               = (append_count pre hasPrefix count, append_src pre hasPrefix))
    by (unfold append_count, append_src; destruct hasPrefix; reflexivity).
  rewrite E2. clear E2. set (c := append_count pre hasPrefix count) in *.
  cbv zeta.
  rewrite (wrap32_small (s1 + c)) by lia.
  set (c' := if s1 + c >? outMaxSize - 1 then to_int (outMaxSize - 1 - s1) else c).
  assert (Hc' : 0 <= c' /\ s1 + c' <= outMaxSize - 1).
  { unfold c'. destruct (Z.gtb_spec (s1 + c) (outMaxSize - 1)); [| lia].
    rewrite to_int_small by lia. lia. }
  rewrite (wrap32_small c') by lia. rewrite (wrap32_small (s1 + c')) by lia.
  cbn [fst snd]. split; [lia |].
  eapply logged_trans; [exact La |].
  apply (logged_trans _ sta (memcpy (ptr_add ob s1) (append_src pre hasPrefix) (Z.to_nat c') sta)).
  - apply memcpy_logged. intros i v Hi. rewrite blk_ptr_add, cell_ptr_add, Bo.
    exists (s1 + i). rewrite Z2Nat.id in Hi by lia. repeat split; lia.
  - apply logged_store. rewrite Bo. exists (s1 + c'). repeat split; lia.
Qed.

Lemma strlen_nonneg pre : 0 <= strlen pre.
Proof.
  induction pre as [| a r IH]; cbn [strlen]; [lia |].
  destruct (a =? 0); lia.
Qed.

(** Where [strncmp] finds the first [n] characters of a literal, none of
    them is NUL. *)
Lemma strncmp_nonzero n :
  forall pre p st,
    strncmp pre p n st = 0 -> Z.of_nat n <= strlen pre ->
    forall i, 0 <= i < Z.of_nat n -> peek p i st <> 0.
Proof.
  induction n as [| k IH]; intros pre p st H Hn i Hi; [simpl in Hi; lia |].
  destruct pre as [| a r]; [simpl in Hn; lia |].
  cbn [strlen] in Hn. destruct (Z.eqb_spec a 0) as [Ea | Ea]; [lia |].
  cbn [strncmp hd tl] in H.
  destruct (Z.eqb_spec a (peek p 0 st)) as [E | E]; [| lia].
  destruct (Z.eqb_spec a 0); [contradiction |].
  destruct (Z.eq_dec i 0) as [-> | Hi0]; [congruence |].
  replace i with (1 + (i - 1)) by lia. rewrite <- peek_ptr_add.
  apply (IH r (ptr_add p 1) st H); lia.
Qed.

Lemma startsWith_strlen_le pre p st count :
  startsWith pre p st = true -> 0 <= count -> peek p count st = 0 ->
  strlen pre <= count.
Proof.
  intros H Hc Hz. unfold startsWith in H. apply Z.eqb_eq in H.
  destruct (Z_le_gt_dec (strlen pre) count) as [Hle | Hgt]; [exact Hle |].
  exfalso. pose proof (strlen_nonneg pre).
  apply (strncmp_nonzero _ pre p st H) with (i := count); [| | exact Hz];
    rewrite Z2Nat.id; lia.
Qed.

Lemma classify_line_logged dev ob outMaxSize prefix count outSize st :
  blk ob = OutBlk -> 1 <= outMaxSize <= 2 ^ 31 ->
  0 <= outSize <= outMaxSize - 1 ->
  0 < count < 2 ^ 31 -> peek getInputBuffer count st = 0 ->
  logged (out_store_ok ob outMaxSize) st
    (snd (classify_line dev (Some ob) outMaxSize prefix count outSize st))
  /\ match fst (classify_line dev (Some ob) outMaxSize prefix count outSize st) with
     | Continue o => 0 <= o <= outMaxSize - 1
     | Return _ => True
     end.
Proof.
  intros Bo HM Ho Hc Hz. unfold classify_line.
  destruct (startsWith (bytes_of "AT") getInputBuffer st);
    [cbn [fst snd]; split; [apply logged_refl | exact Ho] |].
  destruct (startsWith (bytes_of "OK") getInputBuffer st);
    [cbn [fst snd]; split; [apply logged_refl | exact I] |].
  destruct (startsWith (bytes_of "ERROR") getInputBuffer st
            || startsWith (bytes_of "+CME ERROR:") getInputBuffer st
            || startsWith (bytes_of "+CMS ERROR:") getInputBuffer st);
    [cbn [fst snd]; split; [apply logged_refl | exact I] |].
  set (pre := match prefix with Some p => p | None => [] end).
  set (line := cstring _ _ _).
  destruct (usePrefix prefix && useOutBuffer (Some ob) outMaxSize
            && startsWith pre getInputBuffer st) eqn:HP; cbn [negb orb].
  - apply andb_true_iff in HP. destruct HP as [_ HP].
    pose proof (startsWith_strlen_le pre getInputBuffer st count HP ltac:(lia) Hz) as Hle.
    pose proof (strlen_nonneg pre) as Hnn.
    destruct (append_line_logged ob outMaxSize pre true count outSize st Bo HM Ho) as [A1 A2].
    { unfold append_count. rewrite (to_int_small (strlen pre)) by lia.
      rewrite to_int_small by lia. lia. }
    destruct (append_line ob outMaxSize pre true count outSize st) as [o' s'].
    cbn [fst snd] in *. split; assumption.
  - destruct (checkURC dev line);
      [cbn [fst snd]; split; [apply logged_same; reflexivity | exact Ho] |].
    destruct (negb (usePrefix prefix) && useOutBuffer (Some ob) outMaxSize);
      [| cbn [fst snd]; split; [apply logged_same; reflexivity | exact Ho]].
    destruct (append_line_logged ob outMaxSize pre false count outSize (offer_urc line st)
                Bo HM Ho) as [A1 A2].
    { unfold append_count. lia. }
    destruct (append_line ob outMaxSize pre false count outSize (offer_urc line st)) as [o' s'].
    cbn [fst snd] in *. split; [| exact A1].
    eapply logged_trans; [| exact A2]. apply logged_same. reflexivity.
Qed.

Lemma readResponse_iter_logged dev fuel ob outMaxSize prefix outSize st step st' :
  blk ob = OutBlk -> 1 <= outMaxSize <= 2 ^ 31 ->
  0 <= outSize <= outMaxSize - 1 ->
  readResponse_iter dev fuel (Some ob) outMaxSize prefix outSize st = Some (step, st') ->
  logged (out_store_ok ob outMaxSize) st st'
  /\ match step with
     | Continue o => 0 <= o <= outMaxSize - 1
     | Return _ => True
     end.
Proof.
  intros Bo HM Ho H. unfold readResponse_iter, readLn_input in H.
  destruct (readLn fuel getInputBuffer (_inputBufferSize dev) 250 st) as [[len st1] |] eqn:R;
    [| discriminate].
  destruct (readLn_logged ob outMaxSize fuel getInputBuffer _ 250 st len st1 eq_refl R)
    as [L Hz].
  destruct (Z.leb_spec (to_int len) 0) as [Hle | Hgt].
  - inversion H; subst. split; [| exact Ho].
    eapply logged_trans; [exact L |]. apply logged_same. reflexivity.
  - assert (Hc : to_int len = wrap32 len /\ wrap32 len < 2 ^ 31).
    { unfold to_int in *. destruct (Z.ltb_spec (wrap32 len) (2 ^ 31)); [lia |].
      pose proof (wrap32_range len). lia. }
    destruct Hc as [Hc1 Hc2].
    destruct (classify_line_logged dev ob outMaxSize prefix (to_int len) outSize
                (sodaq_wdt_reset st1) Bo HM Ho) as [C1 C2].
    { lia. }
    { rewrite Hc1. unfold peek, cell in *. simpl in *. rewrite wrap32_idem. exact Hz. }
    inversion H as [H1]. rewrite H1 in C1, C2. cbn [fst snd] in C1, C2.
    split; [| exact C2].
    eapply logged_trans; [exact L |].
    eapply logged_trans; [| exact C1]. apply logged_same. reflexivity.
Qed.

Lemma readResponse_loop_logged dev fuel ob outMaxSize prefix timeout from n :
  forall outSize st r st',
    blk ob = OutBlk -> 1 <= outMaxSize <= 2 ^ 31 ->
    0 <= outSize <= outMaxSize - 1 ->
    readResponse_loop n dev fuel (Some ob) outMaxSize prefix timeout from outSize st
    = Some (r, st') ->
    logged (out_store_ok ob outMaxSize) st st'.
Proof.
  induction n as [| k IH]; intros outSize st r st' Bo HM Ho H; [discriminate |].
  cbn [readResponse_loop] in H.
  destruct (negb (is_timedout from timeout st)).
  - destruct (readResponse_iter dev fuel (Some ob) outMaxSize prefix outSize st)
      as [[step st1] |] eqn:R; [| discriminate].
    destruct (readResponse_iter_logged dev fuel ob outMaxSize prefix outSize st step st1
                Bo HM Ho R) as [L Hs].
    destruct step as [o | r1].
    + eapply logged_trans; [exact L |]. eapply IH; eauto.
    + inversion H; subst. exact L.
  - inversion H; subst. apply logged_refl.
Qed.

(** X20. With a capacity of at least one byte, every store that
    [readResponse] makes into the caller's block is at an index below
    [outMaxSize], and what is stored at the last index is a NUL. *)
Theorem readResponse_stores_in_bounds dev fuel ob outMaxSize prefix timeout st r st' :
  blk ob = OutBlk -> 1 <= outMaxSize <= 2 ^ 31 ->
  readResponse dev fuel (Some ob) outMaxSize prefix timeout st = Some (r, st') ->
  logged (out_store_ok ob outMaxSize) st st'.
Proof.
  intros Bo HM H. unfold readResponse in H.
  eapply logged_trans; [| eapply readResponse_loop_logged; eauto; lia].
  apply logged_store. rewrite Bo. exists 0. repeat split; lia.
Qed.

(** ** The silent line and the time-out *)

(** On a silent line the loop of [timedRead] polls once a millisecond
    until the time-out has run out. *)
Lemma timedRead_loop_silent k :
  forall fuel start timeout st,
    uart st = [] ->
    wrap32 (clock st - start) + Z.of_nat k = timeout -> timeout + 1 < 2 ^ 32 ->
    (k < fuel)%nat ->
    exists st',
      timedRead_loop fuel start timeout st = Some (-1, st')
      /\ uart st' = []
      /\ wrap32 (clock st') = wrap32 (clock st + (Z.of_nat k + 1)).
Proof.
  induction k as [| k IH]; intros fuel start timeout st U E Hmax Hf;
    (destruct fuel as [| fuel]; [lia |]);
    pose proof (wrap32_range (clock st - start)) as Hr;
    set (st1 := tick 1 [] st);
    assert (E1 : wrap32 (clock st1 - start) = wrap32 (clock st - start) + 1)
      by (apply elapsed_step; [unfold st1; cbn [tick clock]; apply wrap32_idem | lia | lia]).
  - exists st1. cbn [timedRead_loop]. unfold uart_read. rewrite U. fold st1.
    change (0 <=? -1) with false. cbv iota.
    unfold is_timedout, millis. rewrite E1.
    destruct (Z.gtb_spec (wrap32 (clock st - start) + 1) timeout); [| lia].
    cbn [negb]. split; [reflexivity |]. split; [reflexivity |].
    unfold st1. cbn [tick clock]. rewrite wrap32_idem. reflexivity.
  - destruct (IH fuel start timeout st1) as (st' & R & U' & C'); try lia.
    { reflexivity. }
    exists st'. cbn [timedRead_loop]. unfold uart_read. rewrite U. fold st1.
    change (0 <=? -1) with false. cbv iota.
    rewrite (is_timedout_false start timeout st1) by lia. cbn [negb].
    split; [exact R |]. split; [exact U' |].
    rewrite C'. unfold st1. cbn [tick clock]. rewrite wrap32_add_l. f_equal. lia.
Qed.

Lemma timedRead_silent fuel timeout st :
  uart st = [] -> 0 <= timeout -> timeout + 1 < 2 ^ 32 ->
  (Z.to_nat timeout < fuel)%nat ->
  exists st',
    timedRead fuel timeout st = Some (-1, st')
    /\ uart st' = []
    /\ wrap32 (clock st') = wrap32 (clock st + (timeout + 1))
    /\ input_blk st' = input_blk st /\ out_blk st' = out_blk st.
Proof.
  intros U Ht Hmax Hf. unfold timedRead, millis.
  destruct (timedRead_loop_silent (Z.to_nat timeout) fuel (clock st) timeout st U)
    as (st' & R & U' & C'); try lia.
  { rewrite Z.sub_diag. change (wrap32 0) with 0. lia. }
  destruct (timedRead_loop_frame _ _ _ _ _ _ R) as (M1 & _ & M2 & _).
  exists st'. rewrite Z2Nat.id in C' by lia. repeat split; assumption.
Qed.

(** On a silent line [readLn] returns after the time-out of one byte with
    a length that [readResponse] takes as no line: 0, or [SIZE_MAX] when
    the byte below the buffer is CR. *)
Lemma readLn_silent fuel buffer size timeout st :
  uart st = [] -> blk buffer = InputBlk ->
  2 <= size < 2 ^ 32 -> 0 <= timeout -> timeout + 1 < 2 ^ 32 ->
  (Z.to_nat timeout < fuel)%nat ->
  exists len st',
    readLn fuel buffer size timeout st = Some (len, st')
    /\ to_int len <= 0
    /\ uart st' = []
    /\ wrap32 (clock st') = wrap32 (clock st + (timeout + 1))
    /\ line_io st st'.
Proof.
  intros U B Hs Ht Hmax Hf.
  destruct (timedRead_silent fuel timeout st U Ht Hmax Hf) as (st1 & R & U1 & C1 & _).
  assert (E : readBytesUntil fuel LF buffer (wrap32 (size - 1)) timeout st
              = Some (0, store buffer 0 0 st1)).
  { unfold readBytesUntil. rewrite wrap32_small by lia.
    destruct (Z.ltb_spec (size - 1) 1); [lia |].
    destruct fuel as [| fuel]; [lia |]. cbn [readBytesUntil_loop].
    destruct (Z.ltb_spec 0 (size - 1)); [| lia].
    rewrite R. change (-1 <? 0) with true. cbn [orb].
    destruct (Z.ltb_spec 0 (size - 1)); [reflexivity | lia]. }
  assert (X : exists len st',
             readLn fuel buffer size timeout st = Some (len, st')
             /\ to_int len <= 0 /\ uart st' = uart st1 /\ clock st' = clock st1).
  { unfold readLn. rewrite terminator_last, E.
    change (1 <? SODAQ_UBLOX_TERMINATOR_LEN) with true. cbv iota.
    change (wrap32 (0 - (SODAQ_UBLOX_TERMINATOR_LEN - 1))) with (2 ^ 32 - 1).
    unfold load.
    destruct (peek buffer (2 ^ 32 - 1) (store buffer 0 0 st1) =? nth 0 SODAQ_UBLOX_TERMINATOR 0).
    - eexists _, _. split; [reflexivity |].
      split; [vm_compute; discriminate |].
      rewrite store_uart, store_clock. cbn [log uart clock].
      rewrite store_uart, store_clock. split; reflexivity.
    - eexists _, _. split; [reflexivity |].
      split; [vm_compute; discriminate |].
      rewrite store_uart, store_clock. cbn [log uart clock].
      rewrite store_uart, store_clock. split; reflexivity. }
  destruct X as (len & st' & R' & Hl & U' & C').
  exists len, st'. split; [exact R' |]. split; [exact Hl |].
  split; [congruence |]. split; [rewrite C'; exact C1 |].
  eapply readLn_frame; eauto.
Qed.

(** A turn on a silent line: nothing but the watchdog reset and the 251 ms
    that [readLn(250)] has waited. *)
Lemma readResponse_iter_silent dev fuel outBuffer outMaxSize prefix outSize st :
  uart st = [] -> 2 <= _inputBufferSize dev < 2 ^ 32 -> (250 < fuel)%nat ->
  exists st',
    readResponse_iter dev fuel outBuffer outMaxSize prefix outSize st
    = Some (Continue outSize, st')
    /\ uart st' = []
    /\ wrap32 (clock st') = wrap32 (clock st + 251)
    /\ out_blk st' = out_blk st
    /\ urc_offers st' = urc_offers st
    /\ wdt_resets st' = S (wdt_resets st).
Proof.
  intros U Hs Hf.
  destruct (readLn_silent fuel getInputBuffer (_inputBufferSize dev) 250 st U eq_refl Hs)
    as (len & st1 & R & Hl & U1 & C1 & O1 & W1 & K1); try lia.
  exists (sodaq_wdt_reset st1). unfold readResponse_iter, readLn_input. rewrite R.
  destruct (Z.leb_spec (to_int len) 0); [| lia].
  split; [reflexivity |]. split; [exact U1 |]. split; [exact C1 |].
  split; [exact O1 |]. split; [exact K1 |].
  cbn [sodaq_wdt_reset wdt_resets]. rewrite W1. reflexivity.
Qed.

(** Once the line is silent the loop turns, changing nothing in the output
    buffer, until the time-out has elapsed at the head of a turn; it then
    returns GSMResponseTimeout. *)
Lemma readResponse_loop_silent dev fuel outBuffer outMaxSize prefix timeout from k :
  forall n outSize st,
    uart st = [] -> 2 <= _inputBufferSize dev < 2 ^ 32 -> (250 < fuel)%nat ->
    timeout + 251 < 2 ^ 32 ->
    timeout < wrap32 (clock st - from) + 251 * Z.of_nat k -> (k < n)%nat ->
    exists st',
      readResponse_loop n dev fuel outBuffer outMaxSize prefix timeout from outSize st
      = Some (GSMResponseTimeout, st')
      /\ is_timedout from timeout st' = true
      /\ out_blk st' = out_blk st
      /\ urc_offers st' = urc_offers st.
Proof.
  induction k as [| k IH]; intros n outSize st U Hs Hf Hmax Hk Hn;
    (destruct n as [| n]; [lia |]); cbn [readResponse_loop];
    unfold is_timedout at 1; unfold millis;
    destruct (Z.gtb_spec (wrap32 (clock st - from)) timeout) as [Hgt | Hle]; cbn [negb].
  - exists st. repeat split.
    unfold is_timedout, millis. destruct (Z.gtb_spec (wrap32 (clock st - from)) timeout); [reflexivity | lia].
  - lia.
  - exists st. repeat split.
    unfold is_timedout, millis. destruct (Z.gtb_spec (wrap32 (clock st - from)) timeout); [reflexivity | lia].
  - destruct (readResponse_iter_silent dev fuel outBuffer outMaxSize prefix outSize st U Hs Hf)
      as (st1 & R & U1 & C1 & O1 & K1 & _).
    rewrite R.
    pose proof (wrap32_range (clock st - from)) as Hr.
    pose proof (elapsed_step from st st1 251 C1) as El.
    destruct (IH n outSize st1 U1 Hs Hf Hmax) as (st' & L & T & O' & K'); try lia.
    exists st'. split; [exact L |]. split; [exact T |]. split; congruence.
Qed.

(** The loop body returns GSMResponseOK or GSMResponseError, never
    GSMResponseTimeout. *)
Lemma classify_line_not_timeout dev outBuffer outMaxSize prefix count outSize st :
  fst (classify_line dev outBuffer outMaxSize prefix count outSize st)
  <> Return GSMResponseTimeout.
Proof.
  unfold classify_line.
  destruct (startsWith (bytes_of "AT") getInputBuffer st); [discriminate |].
  destruct (startsWith (bytes_of "OK") getInputBuffer st); [discriminate |].
  destruct (startsWith (bytes_of "ERROR") getInputBuffer st
            || startsWith (bytes_of "+CME ERROR:") getInputBuffer st
            || startsWith (bytes_of "+CMS ERROR:") getInputBuffer st); [discriminate |].
  set (pre := match prefix with Some p => p | None => [] end).
  set (line := cstring _ _ _).
  destruct (usePrefix prefix && useOutBuffer outBuffer outMaxSize
            && startsWith pre getInputBuffer st); cbn [negb orb].
  - destruct outBuffer as [ob |]; [| discriminate].
    destruct (append_line ob outMaxSize pre true count outSize st). discriminate.
  - destruct (checkURC dev line); [discriminate |].
    destruct (negb (usePrefix prefix) && useOutBuffer outBuffer outMaxSize); [| discriminate].
    destruct outBuffer as [ob |]; [| discriminate].
    destruct (append_line ob outMaxSize pre false count outSize (offer_urc line st)).
    discriminate.
Qed.

Lemma readResponse_loop_timeout dev fuel outBuffer outMaxSize prefix timeout from n :
  forall outSize st st',
    readResponse_loop n dev fuel outBuffer outMaxSize prefix timeout from outSize st
    = Some (GSMResponseTimeout, st') ->
    is_timedout from timeout st' = true.
Proof.
  induction n as [| n IH]; intros outSize st st' H; [discriminate |].
  cbn [readResponse_loop] in H.
  destruct (is_timedout from timeout st) eqn:T; cbn [negb] in H.
  - inversion H; subst. exact T.
  - destruct (readResponse_iter dev fuel outBuffer outMaxSize prefix outSize st)
      as [[[o | r] st1] |] eqn:R; [| | discriminate].
    + eapply IH. exact H.
    + inversion H; subst. exfalso.
      unfold readResponse_iter in R.
      destruct (readLn_input dev fuel 250 st) as [[len s1] |]; [| discriminate].
      destruct (to_int len <=? 0); [discriminate |].
      inversion R as [R1].
      apply (classify_line_not_timeout dev outBuffer outMaxSize prefix (to_int len) outSize
               (sodaq_wdt_reset s1)).
      rewrite R1. reflexivity.
Qed.


(** ** Every line read returns *)

(** On a silent line [timedRead] gives up, wherever the clock stands. *)
Lemma timedRead_loop_gives_up fuel start timeout st :
  uart st = [] -> 0 <= timeout -> timeout + 1 < 2 ^ 32 ->
  (Z.to_nat timeout + 1 < fuel)%nat ->
  exists st', timedRead_loop fuel start timeout st = Some (-1, st') /\ uart st' = [].
Proof.
  intros U Ht Hmax Hf. destruct fuel as [| fuel]; [lia |].
  cbn [timedRead_loop]. unfold uart_read. rewrite U.
  change (0 <=? -1) with false. cbv iota.
  set (st1 := tick 1 [] st).
  destruct (is_timedout start timeout st1) eqn:T; cbn [negb].
  - exists st1. split; reflexivity.
  - unfold is_timedout, millis in T.
    destruct (Z.gtb_spec (wrap32 (clock st1 - start)) timeout) as [| Hle]; [discriminate |].
    pose proof (wrap32_range (clock st1 - start)) as Hr.
    destruct (timedRead_loop_silent (Z.to_nat (timeout - wrap32 (clock st1 - start)))
                fuel start timeout st1) as (st' & R & U' & _); try lia.
    { reflexivity. }
    exists st'. split; assumption.
Qed.

(** Whatever the UART does, [timedRead] returns; a byte it returns has
    left the script. *)
Lemma timedRead_loop_total script :
  forall fuel start timeout st,
    uart st = script -> 0 <= timeout -> timeout + 1 < 2 ^ 32 ->
    (List.length script + Z.to_nat timeout + 1 < fuel)%nat ->
    exists c st',
      timedRead_loop fuel start timeout st = Some (c, st')
      /\ (List.length (uart st') <= List.length script)%nat
      /\ (0 <= c -> (List.length (uart st') < List.length script)%nat).
Proof.
  induction script as [| [d c0] script IH]; intros fuel start timeout st U Ht Hmax Hf.
  - destruct (timedRead_loop_gives_up fuel start timeout st U Ht Hmax) as (st' & R & U');
      [simpl in Hf; lia |].
    exists (-1), st'. rewrite U'. split; [exact R |]. split; [simpl; lia | lia].
  - destruct fuel as [| fuel]; [lia |].
    cbn [timedRead_loop]. unfold uart_read. rewrite U.
    destruct (Z.leb_spec 0 c0).
    + exists c0, (tick d script st). split; [reflexivity |]. simpl. lia.
    + destruct (is_timedout start timeout (tick d script st)); cbn [negb].
      * exists (-1), (tick d script st). split; [reflexivity |]. simpl. lia.
      * destruct (IH fuel start timeout (tick d script st) eq_refl Ht Hmax)
          as (c & st' & R & L1 & L2); [simpl in Hf; lia |].
        exists c, st'. split; [exact R |]. simpl. split; [lia |]. intros Hc.
        specialize (L2 Hc). lia.
Qed.

Lemma readBytesUntil_loop_total n :
  forall fuel term buffer length timeout index st,
    0 <= timeout -> timeout + 1 < 2 ^ 32 ->
    (List.length (uart st) + Z.to_nat timeout + 1 < fuel)%nat ->
    (List.length (uart st) < n)%nat ->
    exists r, readBytesUntil_loop n fuel term buffer length timeout index st = Some r.
Proof.
  induction n as [| n IH]; intros fuel term buffer length timeout index st Ht Hmax Hf Hn;
    [lia |].
  cbn [readBytesUntil_loop].
  destruct (index <? length); [| eexists; reflexivity].
  unfold timedRead.
  destruct (timedRead_loop_total (uart st) fuel (millis st) timeout st eq_refl Ht Hmax Hf)
    as (c & st1 & R & L1 & L2).
  rewrite R.
  destruct (Z.ltb_spec c 0); cbn [orb]; [eexists; reflexivity |].
  destruct (c =? term); [eexists; reflexivity |].
  apply IH; try assumption; rewrite store_uart; specialize (L2 ltac:(lia)); lia.
Qed.

(** [readLn] returns, whatever arrives: the byte reads end with the script
    or the time-out. *)
Lemma readLn_total fuel buffer size timeout st :
  0 <= timeout -> timeout + 1 < 2 ^ 32 ->
  (List.length (uart st) + Z.to_nat timeout + 1 < fuel)%nat ->
  exists r, readLn fuel buffer size timeout st = Some r.
Proof.
  intros Ht Hmax Hf. unfold readLn, readBytesUntil.
  set (term := nth _ SODAQ_UBLOX_TERMINATOR 0).
  assert (X : exists r,
             (if wrap32 (size - 1) <? 1
              then Some (0, st)
              else
                match readBytesUntil_loop fuel fuel term buffer (wrap32 (size - 1)) timeout 0 st with
                | Some (index, st1) =>
                    Some (index, if index <? wrap32 (size - 1)
                                 then store buffer index 0 st1 else st1)
                | None => None
                end) = Some r).
  { destruct (wrap32 (size - 1) <? 1); [eexists; reflexivity |].
    destruct (readBytesUntil_loop_total fuel fuel term buffer (wrap32 (size - 1)) timeout 0 st
                Ht Hmax Hf) as ([index st1] & R); [lia |].
    rewrite R. eexists; reflexivity. }
  destruct X as ([len st1] & X). rewrite X.
  change (1 <? SODAQ_UBLOX_TERMINATOR_LEN) with true. cbv iota.
  destruct (load buffer (wrap32 (len - (SODAQ_UBLOX_TERMINATOR_LEN - 1))) st1) as [c st2].
  destruct (c =? nth 0 SODAQ_UBLOX_TERMINATOR 0); eexists; reflexivity.
Qed.

(** C3, as the code has it.  Every turn of the loop of [readResponse]
    completes and calls [sodaq_wdt_reset] exactly once, whether the line
    read returned bytes or not; a turn whose line read returned nothing
    does nothing else. *)
Theorem wdt_reset_once_per_turn dev fuel outBuffer outMaxSize prefix outSize st :
  (List.length (uart st) + 251 < fuel)%nat ->
  exists step st',
    readResponse_iter dev fuel outBuffer outMaxSize prefix outSize st = Some (step, st')
    /\ wdt_resets st' = S (wdt_resets st)
    /\ (forall len st1,
          readLn_input dev fuel 250 st = Some (len, st1) -> to_int len <= 0 ->
          step = Continue outSize /\ st' = sodaq_wdt_reset st1).
Proof.
  intros Hf.
  destruct (readLn_total fuel getInputBuffer (_inputBufferSize dev) 250 st) as ([len st1] & R);
    try lia.
  assert (T : exists step st',
             readResponse_iter dev fuel outBuffer outMaxSize prefix outSize st
             = Some (step, st')).
  { unfold readResponse_iter, readLn_input. rewrite R.
    destruct (to_int len <=? 0); [eexists _, _; reflexivity |].
    destruct (classify_line dev outBuffer outMaxSize prefix (to_int len) outSize
                (sodaq_wdt_reset st1)) as [step st'].
    exists step, st'. reflexivity. }
  destruct T as (step & st' & T). exists step, st'. split; [exact T |].
  eapply readResponse_iter_wdt. exact T.
Qed.

(** ** A disabled output buffer *)

Lemma classify_line_disabled dev outBuffer outMaxSize prefix count outSize st :
  useOutBuffer outBuffer outMaxSize = false ->
  accesses (snd (classify_line dev outBuffer outMaxSize prefix count outSize st))
  = accesses st.
Proof.
  intros H. unfold classify_line. rewrite H.
  destruct (startsWith (bytes_of "AT") getInputBuffer st); [reflexivity |].
  destruct (startsWith (bytes_of "OK") getInputBuffer st); [reflexivity |].
  destruct (startsWith (bytes_of "ERROR") getInputBuffer st
            || startsWith (bytes_of "+CME ERROR:") getInputBuffer st
            || startsWith (bytes_of "+CMS ERROR:") getInputBuffer st); [reflexivity |].
  rewrite !andb_false_r. cbn [andb negb orb].
  destruct (checkURC dev _); reflexivity.
Qed.

Lemma readResponse_loop_disabled dev fuel ob prefix timeout from n :
  forall outSize st r st',
    readResponse_loop n dev fuel (Some ob) 0 prefix timeout from outSize st = Some (r, st') ->
    logged (out_store_ok ob 0) st st'.
Proof.
  induction n as [| n IH]; intros outSize st r st' H; [discriminate |].
  cbn [readResponse_loop] in H.
  destruct (negb (is_timedout from timeout st)); [| inversion H; subst; apply logged_refl].
  destruct (readResponse_iter dev fuel (Some ob) 0 prefix outSize st)
    as [[step st1] |] eqn:R; [| discriminate].
  assert (L : logged (out_store_ok ob 0) st st1).
  { unfold readResponse_iter, readLn_input in R.
    destruct (readLn fuel getInputBuffer (_inputBufferSize dev) 250 st) as [[len s1] |] eqn:E;
      [| discriminate].
    destruct (readLn_logged ob 0 fuel getInputBuffer _ 250 st len s1 eq_refl E) as [L _].
    eapply logged_trans; [exact L |]. apply logged_same.
    destruct (to_int len <=? 0); [inversion R; reflexivity |].
    inversion R as [R1].
    pose proof (classify_line_disabled dev (Some ob) 0 prefix (to_int len) outSize
                  (sodaq_wdt_reset s1) eq_refl) as A.
    rewrite R1 in A. exact A. }
  destruct step as [o | r1].
  - eapply logged_trans; [exact L |]. eapply IH. exact H.
  - inversion H; subst. exact L.
Qed.

(** X21. With a capacity of 0 and a non-null [outBuffer], the store that
    clears index 0 is the one store that [readResponse] makes into the
    caller's block. *)
Lemma readResponse_zero_capacity_store dev fuel ob prefix timeout st r st' :
  blk ob = OutBlk ->
  readResponse dev fuel (Some ob) 0 prefix timeout st = Some (r, st') ->
  exists new,
    accesses st' = new ++ Store OutBlk (cell ob 0) 0 :: accesses st
    /\ Forall (out_store_ok ob 0) new.
Proof.
  intros Bo H. unfold readResponse in H.
  apply readResponse_loop_disabled in H. destruct H as (new & E & F).
  exists new. split; [| exact F].
  rewrite E, store_accesses, Bo. reflexivity.
Qed.

(** ** The empty line *)

(** C2 fails in the code.  When the first byte that arrives is LF,
    [readBytesUntil] returns 0 and [readLn] reads [buffer[len - 1]] with
    [len = 0]: index [SIZE_MAX], the byte just below the buffer.  When that
    byte happens to be CR, the length is decremented below zero to
    [SIZE_MAX] and the NUL is stored below the buffer as well. *)
Theorem readLn_empty_line_below_buffer fuel buffer size timeout st d rest :
  uart st = (d, LF) :: rest ->
  2 <= size < 2 ^ 32 -> (1 < fuel)%nat ->
  exists st',
    readLn fuel buffer size timeout st
    = Some (if peek buffer (2 ^ 32 - 1) st =? CR then 2 ^ 32 - 1 else 0, st')
    /\ In (Load (blk buffer) (cell buffer (2 ^ 32 - 1))) (accesses st')
    /\ (peek buffer (2 ^ 32 - 1) st = CR ->
        In (Store (blk buffer) (cell buffer (2 ^ 32 - 1)) 0) (accesses st')).
Proof.
  intros U Hs Hf.
  destruct fuel as [| [| f]]; try lia.
  set (st1 := store buffer 0 0 (tick d rest st)).
  assert (R : readBytesUntil (S (S f)) LF buffer (wrap32 (size - 1)) timeout st = Some (0, st1)).
  { unfold readBytesUntil. rewrite wrap32_small by lia.
    destruct (Z.ltb_spec (size - 1) 1); [lia |].
    cbn [readBytesUntil_loop].
    destruct (Z.ltb_spec 0 (size - 1)); [| lia].
    rewrite (timedRead_hit (S f) timeout st d LF rest U) by (unfold LF; lia).
    rewrite Z.eqb_refl, orb_true_r.
    destruct (Z.ltb_spec 0 (size - 1)); [reflexivity | lia]. }
  assert (P : peek buffer (2 ^ 32 - 1) st1 = peek buffer (2 ^ 32 - 1) st).
  { unfold st1. rewrite peek_store_other by (apply cell_distinct; lia). apply peek_tick. }
  unfold readLn. rewrite terminator_last, R.
  change (1 <? SODAQ_UBLOX_TERMINATOR_LEN) with true. cbv iota.
  change (wrap32 (0 - (SODAQ_UBLOX_TERMINATOR_LEN - 1))) with (2 ^ 32 - 1).
  unfold load. rewrite P.
  change (nth 0 SODAQ_UBLOX_TERMINATOR 0) with CR.
  destruct (Z.eqb_spec (peek buffer (2 ^ 32 - 1) st) CR) as [E | E].
  - eexists. split; [reflexivity |]. rewrite store_accesses. split.
    + right. left. reflexivity.
    + intros _. left. reflexivity.
  - eexists. split; [reflexivity |]. rewrite store_accesses. split.
    + right. left. reflexivity.
    + intros K. contradiction.
Qed.

Lemma readLn_empty_line_below_buffer_witness :
  exists st',
    readLn 2 getInputBuffer 1024 250 (boot [(1, LF)] CR)
    = Some (if peek getInputBuffer (2 ^ 32 - 1) (boot [(1, LF)] CR) =? CR
            then 2 ^ 32 - 1 else 0, st')
    /\ In (Load InputBlk (2 ^ 32 - 1)) (accesses st')
    /\ (peek getInputBuffer (2 ^ 32 - 1) (boot [(1, LF)] CR) = CR ->
        In (Store InputBlk (2 ^ 32 - 1) 0) (accesses st')).
Proof.
  apply (readLn_empty_line_below_buffer 2 getInputBuffer 1024 250 (boot [(1, LF)] CR) 1 []).
  - reflexivity.
  - lia.
  - lia.
Defined.

(** ** Runs on example machines *)

(** Side conditions of the examples: bytes sent one per poll are
    delivered, and small lines are framed. *)
Ltac on_wire :=
  apply delivers_wire;
  [lia | repeat (apply Forall_cons; [vm_compute; discriminate |]); apply Forall_nil].

Ltac is_framed :=
  unfold framed; split; [discriminate |];
  split; [repeat constructor; unfold LF; simpl; lia |];
  unfold plain_driver, urc_driver, SODAQ_UBLOX_DEFAULT_INPUT_BUFFER_SIZE; simpl; lia.

(** C1 fails in the code.  With a non-null [outBuffer] and
    [outMaxSize = 0] the first store of [readResponse], [outBuffer[0] = 0],
    is made all the same: index 0 is not below the capacity 0, and the
    byte that was there is overwritten. *)
Theorem readResponse_zero_capacity_write :
  let st := boot (wire (crlf "OK")) 85 in
  match readResponse plain_driver 8 (Some out_ptr) 0 None 1000 st with
  | Some (r, st') =>
      r = GSMResponseOK
      /\ In (Store OutBlk 0 0) (accesses st')
      /\ out_blk st 0 = 85 /\ out_blk st' 0 = 0
  | None => False
  end.
Proof.
  vm_compute. split; [reflexivity |]. split; [| split; reflexivity].
  repeat (first [left; reflexivity | right]).
Qed.

(** C5 fails in the code.  With a buffer of three bytes, the line [a]
    leaves room for one more byte; the line [bcd] then gets its separator
    stored over the NUL at index 1 and nothing else: the buffer is [a],
    LF and the byte that was at index 2 before the call, with no NUL in
    it, and the call still returns GSMResponseOK. *)
Theorem readResponse_truncation_unterminated :
  let st := boot (wire (crlf "a" ++ crlf "bcd" ++ crlf "OK")) 85 in
  match readResponse plain_driver 16 (Some out_ptr) 3 None 1000 st with
  | Some (r, st') =>
      r = GSMResponseOK /\ map (out_blk st') [0; 1; 2] = [97; LF; 85]
  | None => False
  end.
Proof. vm_compute. split; reflexivity. Qed.

(** The same defect seen at a time-out: the lines [a] and [b] arrive and
    then nothing; the call returns GSMResponseTimeout after 300 ms, and the
    buffer of three bytes holds [a], LF and the byte that was at index 2
    before the call. *)
Theorem readResponse_timeout_unterminated :
  let st := boot (wire (crlf "a" ++ crlf "b")) 85 in
  match readResponse plain_driver 300 (Some out_ptr) 3 None 300 st with
  | Some (r, st') =>
      r = GSMResponseTimeout /\ map (out_blk st') [0; 1; 2] = [97; LF; 85]
  | None => False
  end.
Proof. vm_compute. split; reflexivity. Qed.

(** X28. The general form of the defect behind the last two runs: a line
    appended when [outSize] is [outMaxSize - 2] stores the separator on
    the terminator and nothing after it. *)
Lemma append_line_last_slot ob outMaxSize pre hasPrefix count st :
  2 < outMaxSize < 2 ^ 32 ->
  append_line ob outMaxSize pre hasPrefix count (outMaxSize - 2) st
  = (outMaxSize - 1, store ob (outMaxSize - 2) LF st).
Proof.
  intros H. unfold append_line.
  rewrite (wrap32_small (outMaxSize - 1)) by lia.
  destruct (Z.ltb_spec 0 (outMaxSize - 2)); [| lia].
  destruct (Z.ltb_spec (outMaxSize - 2) (outMaxSize - 1)); [| lia].
  cbn [andb]. replace (outMaxSize - 2 + 1) with (outMaxSize - 1) by lia.
  rewrite (wrap32_small (outMaxSize - 1)) by lia.
  rewrite Z.ltb_irrefl. reflexivity.
Qed.

(** C3 as stated fails: on a silent line [readLn(250)] returns 0 bytes and
    the turn still resets the watchdog. *)
Lemma wdt_reset_on_empty_read_counterexample :
  let st := boot [] 85 in
  match readLn_input plain_driver 300 250 st,
        readResponse_iter plain_driver 300 None 0 None 0 st with
  | Some (len, _), Some (step, st') =>
      len = 0 /\ step = Continue 0 /\ wdt_resets st = 0%nat /\ wdt_resets st' = 1%nat
  | _, _ => False
  end.
Proof. vm_compute. repeat split; reflexivity. Qed.

Lemma wdt_reset_once_per_turn_witness :
  let st := boot [] 85 in
  exists step st',
    readResponse_iter plain_driver 300 None 0 None 0 st = Some (step, st')
    /\ wdt_resets st' = S (wdt_resets st)
    /\ (forall len st1,
          readLn_input plain_driver 300 250 st = Some (len, st1) -> to_int len <= 0 ->
          step = Continue 0 /\ st' = sodaq_wdt_reset st1).
Proof.
  apply (wdt_reset_once_per_turn plain_driver 300 None 0 None 0 (boot [] 85)).
  simpl. lia.
Defined.

(** C4 as stated fails: after an echo and OK the first byte of the output
    buffer is not the one of before the call.  And an echo does not leave
    the buffer alone when it is split: by a pause of more than 250 ms
    inside it (the echo [AT+CSQ] with 300 ms between [AT+] and [CSQ]), or
    by a line buffer shorter than the echo (eight bytes for [AT+CSQ=1,2]);
    the second part is then appended as payload. *)
Lemma echo_then_ok_counterexample :
  (let st := boot (wire (crlf "AT+CSQ" ++ crlf "OK")) 85 in
   match readResponse plain_driver 16 (Some out_ptr) 8 None 1000 st with
   | Some (r, st') => r = GSMResponseOK /\ out_blk st 0 = 85 /\ out_blk st' 0 = 0
   | None => False
   end)
  /\ (let st := boot (wire (bytes_of "AT+") ++ (300, -1) :: wire (crlf "CSQ" ++ crlf "OK")) 85 in
      match readResponse plain_driver 400 (Some out_ptr) 8 None 1000 st with
      | Some (r, st') =>
          r = GSMResponseOK /\ clock st' = 312
          /\ map (out_blk st') [0; 1; 2; 3] = bytes_of "CSQ" ++ [0]
      | None => False
      end)
  /\ (let st := boot (wire (crlf "AT+CSQ=1,2" ++ crlf "OK")) 85 in
      match readResponse (mkDriver 8 (fun _ => false)) 16 (Some out_ptr) 8 None 1000 st with
      | Some (r, st') =>
          r = GSMResponseOK /\ map (out_blk st') [0; 1; 2; 3] = bytes_of "1,2" ++ [0]
      | None => False
      end).
Proof. vm_compute. repeat split; reflexivity. Qed.

Lemma echo_then_ok_witness :
  exists st',
    readResponse plain_driver 16 (Some out_ptr) 8 None 1000
      (boot (wire (crlf "AT+CSQ" ++ crlf "OK")) 85)
    = Some (GSMResponseOK, st')
    /\ out_blk st' = upd (fun _ => 85) (cell out_ptr 0) 0
    /\ uart st' = []
    /\ urc_offers st' = [].
Proof.
  apply (echo_then_ok plain_driver 16 (Some out_ptr) 8 None 1000
           (boot (wire (crlf "AT+CSQ" ++ crlf "OK")) 85)
           [wire (crlf "AT+CSQ")] (wire (crlf "OK")) []).
  - reflexivity.
  - constructor; [| constructor]. exists (bytes_of "AT+CSQ").
    split; [on_wire |]. split; [is_framed |]. split; [reflexivity | simpl; lia].
  - on_wire.
  - repeat constructor; simpl; lia.
  - vm_compute. discriminate.
  - lia.
  - unfold plain_driver, SODAQ_UBLOX_DEFAULT_INPUT_BUFFER_SIZE. simpl. lia.
  - simpl. lia.
  - simpl. lia.
  - intros ob E. inversion E. reflexivity.
Defined.


(** C7 as stated fails.  With a buffer of four bytes the line
    [+CSQ: 15,99] is cut to [15,]; after a first prefixed line with
    nothing behind the prefix, the second one is appended without a
    separator in front of it; and with a pause of 300 ms inside the line
    [+CSQ: 15,99] the buffer ends up holding [15]. *)
Lemma prefixed_lines_joined_counterexample :
  match readResponse plain_driver 16 (Some out_ptr) 4 (Some (bytes_of "+CSQ: ")) 1000
          (boot (wire (crlf "+CSQ: 15,99" ++ crlf "OK")) 85) with
  | Some (r, st') =>
      r = GSMResponseOK /\ map (out_blk st') [0; 1; 2; 3] = bytes_of "15," ++ [0]
  | None => False
  end
  /\ match readResponse plain_driver 16 (Some out_ptr) 16 (Some (bytes_of "+CSQ: ")) 1000
             (boot (wire (crlf "+CSQ: " ++ crlf "+CSQ: 5" ++ crlf "OK")) 85) with
     | Some (r, st') =>
         r = GSMResponseOK /\ map (out_blk st') [0; 1] = bytes_of "5" ++ [0]
     | None => False
     end
  /\ match readResponse plain_driver 400 (Some out_ptr) 8 (Some (bytes_of "+CSQ: ")) 1000
             (boot (wire (bytes_of "+CSQ: 15") ++ (300, -1) :: wire (crlf ",99" ++ crlf "OK"))
                85) with
     | Some (r, st') =>
         r = GSMResponseOK /\ clock st' = 317
         /\ map (out_blk st') [0; 1; 2] = bytes_of "15" ++ [0]
     | None => False
     end.
Proof. vm_compute. repeat split; reflexivity. Qed.

Lemma prefixed_lines_joined_witness :
  (exists st',
      readResponse_iter plain_driver 16 (Some out_ptr) 8 (Some (bytes_of "+X: ")) 1
        (boot (wire (crlf "+X: bc")) 85)
      = Some (Continue 4, st')
      /\ (0 < 1 -> peek out_ptr 1 st' = LF)
      /\ begins_with (bytes_of "bc") (ptr_add out_ptr 2) st'
      /\ peek out_ptr 4 st' = 0
      /\ (forall j, 0 <= j < 1 ->
            peek out_ptr j st' = peek out_ptr j (boot (wire (crlf "+X: bc")) 85)))
  /\ (exists st',
        readResponse plain_driver 16 (Some out_ptr) 6 (Some (bytes_of "+CSQ: ")) 1000
          (boot (wire (crlf "+CSQ: 15,99" ++ crlf "OK")) 85)
        = Some (GSMResponseOK, st')
        /\ holds_line (bytes_of "15,99") out_ptr st').
Proof.
  split.
  - apply (proj1 prefixed_lines_joined plain_driver 16%nat out_ptr 8 (bytes_of "+X: ") 1
             (boot (wire (crlf "+X: bc")) 85) (wire (crlf "+X: bc")) (bytes_of "+X: bc") []).
    + reflexivity.
    + on_wire.
    + is_framed.
    + simpl. lia.
    + repeat split.
    + repeat constructor; discriminate.
    + discriminate.
    + repeat constructor; discriminate.
    + reflexivity.
    + reflexivity.
    + lia.
    + lia.
    + vm_compute. reflexivity.
    + vm_compute. discriminate.
  - apply (proj2 prefixed_lines_joined plain_driver 16%nat out_ptr 6 1000
             (boot (wire (crlf "+CSQ: 15,99" ++ crlf "OK")) 85)
             (wire (crlf "+CSQ: 15,99")) (wire (crlf "OK")) []).
    + reflexivity.
    + on_wire.
    + on_wire.
    + repeat constructor; simpl; lia.
    + vm_compute. discriminate.
    + lia.
    + unfold plain_driver, SODAQ_UBLOX_DEFAULT_INPUT_BUFFER_SIZE. simpl. lia.
    + simpl. lia.
    + simpl. lia.
    + reflexivity.
    + lia.
Defined.

(** C9 as stated fails: when the output buffer is disabled ([NULL], or a
    capacity of 0) a line that begins with the expected prefix is handed to
    [checkURC]. *)
Lemma urc_dispatch_counterexample :
  let st := boot (wire (crlf "+CSQ: 1")) 85 in
  is_prefix (bytes_of "+CSQ: ") (bytes_of "+CSQ: 1") = true
  /\ match readResponse_iter plain_driver 16 None 0 (Some (bytes_of "+CSQ: ")) 0 st with
     | Some (_, st') => urc_offers st' = [bytes_of "+CSQ: 1"]
     | None => False
     end
  /\ match readResponse_iter plain_driver 16 (Some out_ptr) 0 (Some (bytes_of "+CSQ: ")) 0 st with
     | Some (_, st') => urc_offers st' = [bytes_of "+CSQ: 1"]
     | None => False
     end.
Proof. vm_compute. repeat split; reflexivity. Qed.

Lemma urc_dispatch_witness :
  let st := boot (wire (crlf "+CEREG: 1")) 85 in
  exists step st',
    readResponse_iter urc_driver 16 (Some out_ptr) 8 (Some (bytes_of "+CSQ: ")) 0 st
    = Some (step, st')
    /\ (hasPrefix_of (Some out_ptr) 8 (Some (bytes_of "+CSQ: ")) (bytes_of "+CEREG: 1") = false ->
        urc_offers st' = bytes_of "+CEREG: 1" :: urc_offers st
        /\ (checkURC urc_driver (bytes_of "+CEREG: 1") = true ->
            step = Continue 0 /\ out_blk st' = out_blk st))
    /\ (hasPrefix_of (Some out_ptr) 8 (Some (bytes_of "+CSQ: ")) (bytes_of "+CEREG: 1") = true ->
        urc_offers st' = urc_offers st).
Proof.
  intros st.
  apply (urc_dispatch urc_driver 16 (Some out_ptr) 8 (Some (bytes_of "+CSQ: ")) 0 st
           (wire (crlf "+CEREG: 1")) (bytes_of "+CEREG: 1") []).
  - reflexivity.
  - on_wire.
  - is_framed.
  - simpl. lia.
  - repeat split.
  - repeat constructor; discriminate.
  - repeat constructor; discriminate.
Defined.

(** C8 as stated fails: the time-out is 100 ms and the first byte of the
    line OK arrives after 201 ms, in the middle of the first [readLn(250)];
    no terminal marker has been classified when the 100 ms have elapsed,
    and the call returns GSMResponseOK at 204 ms. *)
Lemma timeout_keeps_buffer_counterexample :
  let st := boot ((200, -1) :: wire (crlf "OK")) 85 in
  match readResponse plain_driver 16 (Some out_ptr) 8 None 100 st with
  | Some (r, st') => r = GSMResponseOK /\ clock st' = 204
  | None => False
  end.
Proof. vm_compute. split; reflexivity. Qed.


(** * Further properties of the driver *)

(** ** Waiting for a byte *)

(** Polls in vain that stay within the time-out are passed over by the
    loop of [timedRead]. *)
Lemma timedRead_loop_idle ms :
  forall fuel start timeout st tail,
    uart st = ms ++ tail ->
    Forall (fun p => snd p < 0 /\ 0 <= fst p) ms ->
    wrap32 (clock st - start) + duration ms <= timeout -> timeout < 2 ^ 32 ->
    exists st',
      timedRead_loop (List.length ms + fuel) start timeout st
      = timedRead_loop fuel start timeout st'
      /\ uart st' = tail
      /\ wrap32 (clock st' - start) = wrap32 (clock st - start) + duration ms
      /\ wrap32 (clock st') = wrap32 (clock st + duration ms)
      /\ input_blk st' = input_blk st /\ out_blk st' = out_blk st
      /\ accesses st' = accesses st.
Proof.
  induction ms as [| [d0 c0] ms IH]; intros fuel start timeout st tail U I T Hmax.
  - exists st. change (duration []) with 0. rewrite !Z.add_0_r.
    repeat split. exact U.
  - inversion I as [| ? ? [Hc0 Hd0] I']; subst. cbn [fst snd] in *.
    rewrite duration_cons in T.
    assert (Hnn : 0 <= duration ms).
    { clear - I'. unfold duration. induction I' as [| [a b] l [_ Ha] _ IH]; simpl in *; lia. }
    pose proof (wrap32_range (clock st - start)) as Hr.
    set (st1 := tick d0 (ms ++ tail) st).
    assert (E1 : wrap32 (clock st1 - start) = wrap32 (clock st - start) + d0).
    { apply elapsed_step; try lia. unfold st1. cbn [tick clock]. apply wrap32_idem. }
    destruct (IH fuel start timeout st1 tail eq_refl I') as (st' & R & U' & E' & C' & M' & O' & A');
      try lia.
    exists st'. split; [| split; [exact U' | split; [| split; [| split; [| split]]]]].
    + cbn [List.length Nat.add timedRead_loop]. unfold uart_read. rewrite U. cbn [app].
      destruct (Z.leb_spec 0 c0); [lia |]. fold st1.
      rewrite (is_timedout_false start timeout st1) by lia. exact R.
    + rewrite E', E1, duration_cons. ring.
    + rewrite C'. unfold st1. cbn [tick clock]. rewrite wrap32_add_l.
      f_equal. rewrite duration_cons. ring.
    + exact M'.
    + exact O'.
    + exact A'.
Qed.

(** X1. A byte that a poll returns after polls in vain lasting no longer
    than the time-out is what [timedRead] returns; the polls up to it are
    used up, the clock has advanced by the time they took, and memory is
    as it was.  The first poll is made whatever the time-out is. *)
Theorem timedRead_returns_byte_in_time fuel timeout st ms d c rest :
  uart st = ms ++ (d, c) :: rest ->
  idle timeout ms -> timeout < 2 ^ 32 -> 0 <= c -> (List.length ms < fuel)%nat ->
  exists st',
    timedRead fuel timeout st = Some (c, st')
    /\ uart st' = rest
    /\ wrap32 (clock st') = wrap32 (clock st + (duration ms + d))
    /\ input_blk st' = input_blk st /\ out_blk st' = out_blk st
    /\ accesses st' = accesses st.
Proof.
  intros U I Hmax Hc Hf.
  destruct (timedRead_arrives fuel timeout st ms d c rest U I Hmax Hc Hf)
    as (st' & R & U' & C' & M' & O').
  exists st'. repeat split; try assumption.
  unfold timedRead in R. apply timedRead_loop_frame in R. apply R.
Qed.

Lemma timedRead_returns_byte_in_time_witness :
  exists st',
    timedRead 1 0 (boot [(7, 65); (1, 66)] 85) = Some (65, st')
    /\ uart st' = [(1, 66)]
    /\ wrap32 (clock st') = wrap32 (clock (boot [(7, 65); (1, 66)] 85) + (duration [] + 7))
    /\ input_blk st' = input_blk (boot [(7, 65); (1, 66)] 85)
    /\ out_blk st' = out_blk (boot [(7, 65); (1, 66)] 85)
    /\ accesses st' = accesses (boot [(7, 65); (1, 66)] 85).
Proof.
  apply (timedRead_returns_byte_in_time 1 0 (boot [(7, 65); (1, 66)] 85) [] 7 65 [(1, 66)]).
  - reflexivity.
  - split; [apply Forall_nil | vm_compute; discriminate].
  - lia.
  - lia.
  - simpl; lia.
Defined.

(** X2. On a silent line [timedRead] polls until more than [timeout]
    milliseconds have passed and returns -1: with polls of one millisecond,
    after [timeout + 1] ms. *)
Theorem timedRead_gives_up_on_silence fuel timeout st :
  uart st = [] -> 0 <= timeout -> timeout + 1 < 2 ^ 32 ->
  (Z.to_nat timeout < fuel)%nat ->
  exists st',
    timedRead fuel timeout st = Some (-1, st')
    /\ wrap32 (clock st') = wrap32 (clock st + (timeout + 1))
    /\ input_blk st' = input_blk st /\ out_blk st' = out_blk st
    /\ accesses st' = accesses st.
Proof.
  intros U Ht Hmax Hf.
  destruct (timedRead_silent fuel timeout st U Ht Hmax Hf) as (st' & R & _ & C' & M' & O').
  exists st'. repeat split; try assumption.
  unfold timedRead in R. apply timedRead_loop_frame in R. apply R.
Qed.

Lemma timedRead_gives_up_on_silence_witness :
  exists st',
    timedRead 4 3 (boot [] 85) = Some (-1, st')
    /\ wrap32 (clock st') = wrap32 (clock (boot [] 85) + (3 + 1))
    /\ input_blk st' = input_blk (boot [] 85) /\ out_blk st' = out_blk (boot [] 85)
    /\ accesses st' = accesses (boot [] 85).
Proof.
  apply (timedRead_gives_up_on_silence 4 3 (boot [] 85)).
  - reflexivity.
  - lia.
  - lia.
  - simpl; lia.
Defined.

(** X3. A byte that comes too late is not taken: when the polls in vain
    last longer than the time-out, [timedRead] returns -1 at the poll that
    crosses it and what the UART delivers afterwards is still to be read. *)
Theorem timedRead_leaves_late_byte fuel timeout st ms d c rest :
  uart st = ms ++ (d, c) :: rest ->
  idle timeout ms -> c < 0 -> timeout < duration ms + d -> duration ms + d < 2 ^ 32 ->
  (List.length ms < fuel)%nat ->
  exists st',
    timedRead fuel timeout st = Some (-1, st')
    /\ uart st' = rest
    /\ wrap32 (clock st') = wrap32 (clock st + (duration ms + d)).
Proof.
  intros U [I T] Hc Hlate Hmax Hf.
  assert (Hnn : 0 <= duration ms).
  { clear - I. unfold duration. induction I as [| [a b] l [_ Ha] _ IH]; simpl in *; lia. }
  unfold timedRead, millis.
  assert (E0 : wrap32 (clock st - clock st) = 0) by (rewrite Z.sub_diag; reflexivity).
  destruct (timedRead_loop_idle ms (fuel - List.length ms) (clock st) timeout st _ U I)
    as (st1 & R & U1 & E1 & C1 & _); try lia.
  replace (List.length ms + (fuel - List.length ms))%nat with fuel in R by lia.
  rewrite R.
  destruct (fuel - List.length ms)%nat as [| k] eqn:K; [lia |].
  set (st2 := tick d rest st1).
  assert (E2 : wrap32 (clock st2 - clock st) = wrap32 (clock st1 - clock st) + d).
  { apply elapsed_step; try lia. unfold st2. cbn [tick clock]. apply wrap32_idem. }
  exists st2. cbn [timedRead_loop]. unfold uart_read. rewrite U1.
  destruct (Z.leb_spec 0 c); [lia |]. fold st2.
  unfold is_timedout, millis. rewrite E2, E1, E0.
  destruct (Z.gtb_spec (0 + duration ms + d) timeout); [| lia].
  cbn [negb]. split; [reflexivity |]. split; [reflexivity |].
  unfold st2. cbn [tick clock]. rewrite wrap32_idem, <- wrap32_add_l, C1, wrap32_add_l.
  f_equal. ring.
Qed.

Lemma timedRead_leaves_late_byte_witness :
  exists st',
    timedRead 3 10 (boot [(6, -1); (6, -1); (1, 65)] 85) = Some (-1, st')
    /\ uart st' = [(1, 65)]
    /\ wrap32 (clock st')
       = wrap32 (clock (boot [(6, -1); (6, -1); (1, 65)] 85) + (duration [(6, -1)] + 6)).
Proof.
  apply (timedRead_leaves_late_byte 3 10 (boot [(6, -1); (6, -1); (1, 65)] 85)
           [(6, -1)] 6 (-1) [(1, 65)]).
  - reflexivity.
  - split; [repeat constructor; simpl; lia | vm_compute; discriminate].
  - lia.
  - vm_compute; reflexivity.
  - vm_compute; reflexivity.
  - simpl; lia.
Defined.

Lemma timedRead_loop_unbounded fuel :
  forall start st, uart st = [] -> timedRead_loop fuel start (2 ^ 32 - 1) st = None.
Proof.
  induction fuel as [| k IH]; intros start st U; [reflexivity |].
  cbn [timedRead_loop]. unfold uart_read. rewrite U.
  change (0 <=? -1) with false. cbv iota.
  rewrite is_timedout_false.
  - cbn [negb]. apply IH. reflexivity.
  - pose proof (wrap32_range (clock (tick 1 [] st) - start)). lia.
Qed.

(** X4. With a time-out of [UINT32_MAX] the test [elapsed > timeout] can
    never hold: on a silent line [timedRead] polls for ever, whatever
    number of polls it is given. *)
Theorem timedRead_max_timeout_never_returns fuel st :
  uart st = [] -> timedRead fuel (2 ^ 32 - 1) st = None.
Proof. intros U. apply timedRead_loop_unbounded. exact U. Qed.

Lemma timedRead_max_timeout_never_returns_witness :
  timedRead 5000 (2 ^ 32 - 1) (boot [] 85) = None.
Proof. apply (timedRead_max_timeout_never_returns 5000 (boot [] 85)). reflexivity. Defined.

(** X5. [is_timedout] measures the time elapsed since [from] modulo 2^32:
    when [e] milliseconds (fewer than 2^32) have passed, the result is
    [e > nr_ms], also when [millis()] has rolled over in between. *)
Theorem is_timedout_across_rollover from e nr_ms st :
  0 <= e < 2 ^ 32 -> clock st = wrap32 (from + e) ->
  is_timedout from nr_ms st = (e >? nr_ms).
Proof.
  intros He C. unfold is_timedout, millis. rewrite C.
  rewrite wrap32_sub_l. replace (from + e - from) with e by ring.
  rewrite wrap32_small by exact He. reflexivity.
Qed.

Lemma is_timedout_across_rollover_witness :
  is_timedout (2 ^ 32 - 10) 15 (tick 20 [] (tick (2 ^ 32 - 10) [] (boot [] 85))) = (20 >? 15).
Proof.
  apply (is_timedout_across_rollover (2 ^ 32 - 10) 20 15).
  - lia.
  - vm_compute; reflexivity.
Defined.

(** ** Reading up to a terminator *)

(** The loop of [readBytesUntil] stores at the indices it passes and
    nowhere else in the block of the buffer. *)
Lemma readBytesUntil_loop_range n :
  forall fuel term buffer length timeout index st r st',
    readBytesUntil_loop n fuel term buffer length timeout index st = Some (r, st') ->
    0 <= index <= length -> length < 2 ^ 32 ->
    index <= r <= length
    /\ (forall j, 0 <= j < 2 ^ 32 -> ~ index <= j < r ->
                  peek buffer j st' = peek buffer j st).
Proof.
  induction n as [| k IH]; intros fuel term buffer length timeout index st r st' H Hi Hmax;
    cbn [readBytesUntil_loop] in H; [discriminate |].
  destruct (Z.ltb_spec index length).
  - destruct (timedRead fuel timeout st) as [[c st1] |] eqn:T; [| discriminate].
    unfold timedRead in T. apply timedRead_loop_frame in T.
    destruct T as (M1 & _ & O1 & _).
    destruct ((c <? 0) || (c =? term)).
    + inversion H; subst. split; [lia |]. intros j _ _. apply peek_same_mem; assumption.
    + rewrite (wrap32_small (index + 1)) in H by lia.
      apply IH in H; [| lia | lia]. destruct H as [Hr F].
      split; [lia |]. intros j Hj Hout. rewrite F by lia.
      rewrite peek_store_other by (apply cell_distinct; lia).
      apply peek_same_mem; assumption.
  - inversion H; subst. split; [lia |]. intros j _ _. reflexivity.
Qed.

(** What [readBytesUntil] can have changed in the block of the buffer. *)
Lemma readBytesUntil_range fuel term buffer length timeout st r st' :
  readBytesUntil fuel term buffer length timeout st = Some (r, st') ->
  0 <= length < 2 ^ 32 ->
  0 <= r <= length
  /\ (r < length -> peek buffer r st' = 0)
  /\ (forall j, r <= j < 2 ^ 32 -> (j = r -> r = length) ->
                peek buffer j st' = peek buffer j st).
Proof.
  intros H Hl. unfold readBytesUntil in H.
  destruct (Z.ltb_spec length 1).
  - inversion H; subst. split; [lia |]. split; [lia |]. reflexivity.
  - destruct (readBytesUntil_loop fuel fuel term buffer length timeout 0 st)
      as [[index st1] |] eqn:L; [| discriminate].
    apply readBytesUntil_loop_range in L; [| lia | lia]. destruct L as [Hr F].
    inversion H; subst r st'. split; [lia |].
    destruct (Z.ltb_spec index length).
    + split; [intros _; apply peek_store_same |].
      intros j Hj Hne. rewrite peek_store_other by (apply cell_distinct; lia).
      apply F; lia.
    + split; [lia |]. intros j Hj _. apply F; lia.
Qed.

(** X6. Every call of [readBytesUntil] that returns has kept to the
    [length] bytes it was given: the count returned is at most [length],
    a NUL has been stored at that index exactly when the count is below
    [length], and every byte of the block from there on is as it was.
    The call returns whenever the time-out is below [UINT32_MAX]. *)
Theorem readBytesUntil_keeps_to_length fuel term buffer length timeout st :
  0 <= length < 2 ^ 32 ->
  (forall r st',
      readBytesUntil fuel term buffer length timeout st = Some (r, st') ->
      0 <= r <= length
      /\ (r < length -> peek buffer r st' = 0)
      /\ (forall j, r <= j < 2 ^ 32 -> (j = r -> r = length) ->
                    peek buffer j st' = peek buffer j st))
  /\ (0 <= timeout -> timeout + 1 < 2 ^ 32 ->
      (List.length (uart st) + Z.to_nat timeout + 1 < fuel)%nat ->
      exists r st', readBytesUntil fuel term buffer length timeout st = Some (r, st')).
Proof.
  intros Hl. split.
  - intros r st' H. apply (readBytesUntil_range _ _ _ _ _ _ _ _ H Hl).
  - intros Ht Hmax Hf. unfold readBytesUntil.
    destruct (length <? 1); [eexists _, _; reflexivity |].
    destruct (readBytesUntil_loop_total fuel fuel term buffer length timeout 0 st Ht Hmax Hf)
      as ([index st1] & R); [lia |].
    rewrite R. eexists _, _. reflexivity.
Qed.

Lemma readBytesUntil_keeps_to_length_witness :
  let st := boot (wire [65; 66; LF; 68]) 85 in
  (forall r st',
      readBytesUntil 300 LF getInputBuffer 3 250 st = Some (r, st') ->
      0 <= r <= 3
      /\ (r < 3 -> peek getInputBuffer r st' = 0)
      /\ (forall j, r <= j < 2 ^ 32 -> (j = r -> r = 3) ->
                    peek getInputBuffer j st' = peek getInputBuffer j st))
  /\ (0 <= 250 -> 250 + 1 < 2 ^ 32 ->
      (List.length (uart st) + Z.to_nat 250 + 1 < 300)%nat ->
      exists r st', readBytesUntil 300 LF getInputBuffer 3 250 st = Some (r, st')).
Proof.
  intros st. apply (readBytesUntil_keeps_to_length 300 LF getInputBuffer 3 250 st). lia.
Defined.

(** X7. When the terminator arrives after fewer than [length] other
    bytes, each within the time-out, [readBytesUntil] returns their number;
    the buffer holds them followed by NUL, and the terminator has been
    taken from the UART without being stored. *)
Theorem readBytesUntil_stops_at_terminator fuel term buffer length timeout st qs ts bytes rest :
  uart st = qs ++ ts ++ rest ->
  delivers timeout qs bytes -> delivers timeout ts [term] ->
  Forall (stored_byte term) bytes ->
  Z.of_nat (List.length bytes) < length -> length < 2 ^ 32 ->
  timeout < 2 ^ 32 -> (List.length (qs ++ ts) < fuel)%nat ->
  exists st',
    readBytesUntil fuel term buffer length timeout st
    = Some (Z.of_nat (List.length bytes), st')
    /\ uart st' = rest
    /\ holds_line bytes buffer st'.
Proof.
  intros U D Dt V Hlen Hmax Ht Hf.
  destruct (readBytesUntil_terminated fuel term buffer length timeout st qs ts bytes rest
              U D Dt V Hlen Hmax Ht Hf) as (st' & R & U' & _ & P & N).
  exists st'. split; [exact R |]. split; [exact U' |]. split; assumption.
Qed.

Lemma readBytesUntil_stops_at_terminator_witness :
  exists st',
    readBytesUntil 8 59 out_ptr 8 100 (boot (wire [65; 66; 59; 67]) 85)
    = Some (Z.of_nat (List.length [65; 66]), st')
    /\ uart st' = wire [67]
    /\ holds_line [65; 66] out_ptr st'.
Proof.
  apply (readBytesUntil_stops_at_terminator 8 59 out_ptr 8 100
           (boot (wire [65; 66; 59; 67]) 85) (wire [65; 66]) (wire [59]) [65; 66] (wire [67])).
  - reflexivity.
  - on_wire.
  - on_wire.
  - repeat constructor; lia.
  - simpl; lia.
  - lia.
  - lia.
  - simpl; lia.
Defined.

(** X8. When [length] bytes arrive before any terminator, [readBytesUntil]
    returns [length] with the bytes stored and no NUL after them: the byte
    that follows the buffer is left as it was, and what comes next on the
    UART, terminator or not, is not read. *)
Theorem readBytesUntil_full_is_unterminated fuel term buffer length timeout st qs bytes tail :
  uart st = qs ++ tail ->
  delivers timeout qs bytes ->
  Forall (stored_byte term) bytes ->
  Z.of_nat (List.length bytes) = length -> 1 <= length < 2 ^ 32 ->
  timeout < 2 ^ 32 -> (List.length qs < fuel)%nat ->
  exists st',
    readBytesUntil fuel term buffer length timeout st = Some (length, st')
    /\ uart st' = tail
    /\ begins_with bytes buffer st'
    /\ peek buffer length st' = peek buffer length st.
Proof.
  intros U D V Hlen Hmax Ht Hf.
  destruct (readBytesUntil_full fuel term buffer length timeout st qs bytes tail
              U D V Hlen Hmax Ht Hf) as (st' & R & U' & P).
  exists st'. split; [exact R |]. split; [exact U' |]. split; [exact P |].
  destruct (readBytesUntil_range _ _ _ _ _ _ _ _ R) as (_ & _ & F); [lia |].
  apply F; lia.
Qed.

Lemma readBytesUntil_full_is_unterminated_witness :
  exists st',
    readBytesUntil 8 LF getInputBuffer 3 250 (boot (wire [65; 66; 67; LF]) 85) = Some (3, st')
    /\ uart st' = wire [LF]
    /\ begins_with [65; 66; 67] getInputBuffer st'
    /\ peek getInputBuffer 3 st' = peek getInputBuffer 3 (boot (wire [65; 66; 67; LF]) 85).
Proof.
  apply (readBytesUntil_full_is_unterminated 8 LF getInputBuffer 3 250
           (boot (wire [65; 66; 67; LF]) 85) (wire [65; 66; 67]) [65; 66; 67] (wire [LF])).
  - reflexivity.
  - on_wire.
  - repeat constructor; unfold LF; lia.
  - reflexivity.
  - lia.
  - lia.
  - simpl; lia.
Defined.

(** ** Lines that do not end with CR LF *)

(** The last steps of [readLn] when the bytes collected do not end with
    CR: the length is kept. *)
Lemma readLn_keep fuel buffer size timeout st n st1 :
  readBytesUntil fuel LF buffer (wrap32 (size - 1)) timeout st = Some (n, st1) ->
  1 <= n < size -> size < 2 ^ 32 ->
  peek buffer (n - 1) st1 <> CR ->
  readLn fuel buffer size timeout st
  = Some (n, store buffer n 0 (log (Load (blk buffer) (cell buffer (n - 1))) st1)).
Proof.
  intros E Hn Hmax Hc. unfold readLn. rewrite terminator_last, E.
  change (1 <? SODAQ_UBLOX_TERMINATOR_LEN) with true. cbv iota.
  change (SODAQ_UBLOX_TERMINATOR_LEN - 1) with 1.
  rewrite (wrap32_small (n - 1)) by lia.
  unfold load.
  change (nth 0 SODAQ_UBLOX_TERMINATOR 0) with CR.
  destruct (Z.eqb_spec (peek buffer (n - 1) st1) CR); [contradiction | reflexivity].
Qed.

Lemma last_stored (line : list Z) (p : ptr) (st : Machine) :
  line <> [] ->
  (forall i, (i < List.length line)%nat -> peek p (Z.of_nat i) st = nth i line 0) ->
  peek p (Z.of_nat (List.length line) - 1) st = last line 0.
Proof.
  intros Hne P.
  destruct (exists_last Hne) as (l & a & E). subst line.
  rewrite length_app in *. cbn [List.length] in *.
  replace (Z.of_nat (List.length l + 1) - 1) with (Z.of_nat (List.length l)) by lia.
  rewrite (P (List.length l)) by lia.
  rewrite app_nth2 by lia. rewrite Nat.sub_diag. rewrite last_last. reflexivity.
Qed.

Lemma holds_line_kept line buffer n st1 :
  n = Z.of_nat (List.length line) -> n < 2 ^ 32 ->
  (forall i, (i < List.length line)%nat -> peek buffer (Z.of_nat i) st1 = nth i line 0) ->
  holds_line line buffer (store buffer n 0 (log (Load (blk buffer) (cell buffer (n - 1))) st1)).
Proof.
  intros En Hn P. subst n. split.
  - intros i Hi. rewrite peek_store_other by (apply cell_distinct; lia).
    apply (P i Hi).
  - apply peek_store_same.
Qed.

(** X9. A line that ends with LF alone is framed as well: when its bytes
    (the last of them not CR) and then LF arrive in time and fit,
    [readLn] returns the length of the line, the buffer holds the line
    followed by NUL, and the LF has been taken from the UART. *)
Theorem readLn_line_feed_only fuel buffer size timeout st ps line rest :
  uart st = ps ++ rest ->
  delivers timeout ps (line ++ [LF]) ->
  Forall (stored_byte LF) line -> line <> [] -> last line 0 <> CR ->
  Z.of_nat (List.length line) + 1 < size -> size < 2 ^ 32 ->
  timeout < 2 ^ 32 -> (List.length ps < fuel)%nat ->
  exists st',
    readLn fuel buffer size timeout st = Some (Z.of_nat (List.length line), st')
    /\ uart st' = rest
    /\ holds_line line buffer st'.
Proof.
  intros U D V Hne Hl Hsize Hmax Ht Hf.
  destruct (delivers_app_inv timeout line ps [LF] D) as (qs & ts & E & Dq & Dt).
  subst ps. rewrite <- app_assoc in U.
  destruct (readBytesUntil_terminated fuel LF buffer (wrap32 (size - 1)) timeout st
              qs ts line rest U Dq Dt V) as (st1 & R & U1 & _ & P1 & _); try assumption.
  { rewrite wrap32_small by lia. lia. }
  { apply wrap32_range. }
  assert (0 < Z.of_nat (List.length line)) by (destruct line; [congruence | simpl; lia]).
  eexists. split; [| split].
  - apply (readLn_keep fuel buffer size timeout st _ st1 R); try lia.
    rewrite (last_stored line buffer st1 Hne P1). exact Hl.
  - rewrite store_uart. exact U1.
  - apply holds_line_kept; [reflexivity | lia | exact P1].
Qed.

Lemma readLn_line_feed_only_witness :
  exists st',
    readLn 8 getInputBuffer 8 250 (boot (wire [72; 105; LF; 79]) 85)
    = Some (Z.of_nat (List.length [72; 105]), st')
    /\ uart st' = wire [79]
    /\ holds_line [72; 105] getInputBuffer st'.
Proof.
  apply (readLn_line_feed_only 8 getInputBuffer 8 250 (boot (wire [72; 105; LF; 79]) 85)
           (wire [72; 105; LF]) [72; 105] (wire [79])).
  - reflexivity.
  - on_wire.
  - repeat constructor; unfold LF; lia.
  - discriminate.
  - vm_compute; discriminate.
  - simpl; lia.
  - lia.
  - lia.
  - simpl; lia.
Defined.

(** [readBytesUntil] on bytes that are followed by silence. *)
Lemma readBytesUntil_timed_out fuel term buffer length timeout st qs bytes :
  uart st = qs ->
  delivers timeout qs bytes ->
  Forall (stored_byte term) bytes ->
  Z.of_nat (List.length bytes) < length -> length < 2 ^ 32 ->
  0 <= timeout -> timeout + 1 < 2 ^ 32 ->
  (List.length qs < fuel)%nat -> (Z.to_nat timeout < fuel)%nat ->
  exists st',
    readBytesUntil fuel term buffer length timeout st
    = Some (Z.of_nat (List.length bytes), st')
    /\ uart st' = []
    /\ wrap32 (clock st') = wrap32 (clock st + duration qs + (timeout + 1))
    /\ (forall i, (i < List.length bytes)%nat -> peek buffer (Z.of_nat i) st' = nth i bytes 0)
    /\ peek buffer (Z.of_nat (List.length bytes)) st' = 0.
Proof.
  intros U D V Hlen Hmax Ht0 Ht Hf1 Hf2.
  pose proof (delivers_length _ _ _ D) as Lq.
  assert (U0 : uart st = qs ++ []) by (rewrite app_nil_r; exact U).
  destruct (readBytesUntil_loop_consume timeout qs bytes D (fuel - List.length bytes) fuel term
              buffer length 0 st _ U0 V) as (st1 & E & U1 & C1 & P1 & _); try lia.
  replace (List.length bytes + (fuel - List.length bytes))%nat with fuel in E by lia.
  destruct (fuel - List.length bytes)%nat as [| m] eqn:M; [lia |].
  destruct (timedRead_silent fuel timeout st1 U1 Ht0 Ht Hf2) as (st2 & R2 & U2 & C2 & M2 & O2).
  exists (store buffer (Z.of_nat (List.length bytes)) 0 st2).
  unfold readBytesUntil. destruct (Z.ltb_spec length 1); [lia |].
  rewrite E. cbn [readBytesUntil_loop]. rewrite Z.add_0_l.
  destruct (Z.ltb_spec (Z.of_nat (List.length bytes)) length); [| lia].
  rewrite R2. change (-1 <? 0) with true. cbn [orb].
  destruct (Z.ltb_spec (Z.of_nat (List.length bytes)) length); [| lia].
  split; [reflexivity |]. split; [rewrite store_uart; exact U2 |].
  split; [| split].
  - rewrite store_clock, C2. rewrite <- wrap32_add_l, C1, wrap32_add_l. reflexivity.
  - intros i Hlt. rewrite peek_store_other by (apply cell_distinct; lia).
    rewrite (peek_same_mem _ _ st1 st2 M2 O2). apply (P1 i Hlt).
  - apply peek_store_same.
Qed.

(** X10. A line that stops in the middle is returned as a line: when some
    bytes arrive (the last of them not CR) and then nothing, [readLn]
    waits out the time-out of one byte and returns the number of bytes
    that came, the buffer holding them followed by NUL. *)
Theorem readLn_partial_line_on_timeout fuel buffer size timeout st line :
  delivers timeout (uart st) line ->
  Forall (stored_byte LF) line -> line <> [] -> last line 0 <> CR ->
  Z.of_nat (List.length line) + 1 < size -> size < 2 ^ 32 ->
  0 <= timeout -> timeout + 1 < 2 ^ 32 ->
  (List.length (uart st) < fuel)%nat -> (Z.to_nat timeout < fuel)%nat ->
  exists st',
    readLn fuel buffer size timeout st = Some (Z.of_nat (List.length line), st')
    /\ uart st' = []
    /\ wrap32 (clock st') = wrap32 (clock st + duration (uart st) + (timeout + 1))
    /\ holds_line line buffer st'.
Proof.
  intros D V Hne Hl Hsize Hmax Ht0 Ht Hf1 Hf2.
  destruct (readBytesUntil_timed_out fuel LF buffer (wrap32 (size - 1)) timeout st
              (uart st) line eq_refl D V) as (st1 & R & U1 & C1 & P1 & _); try assumption.
  { rewrite wrap32_small by lia. lia. }
  { apply wrap32_range. }
  assert (0 < Z.of_nat (List.length line)) by (destruct line; [congruence | simpl; lia]).
  eexists. split; [| split; [| split]].
  - apply (readLn_keep fuel buffer size timeout st _ st1 R); try lia.
    rewrite (last_stored line buffer st1 Hne P1). exact Hl.
  - rewrite store_uart. exact U1.
  - rewrite store_clock. exact C1.
  - apply holds_line_kept; [reflexivity | lia | exact P1].
Qed.

Lemma readLn_partial_line_on_timeout_witness :
  exists st',
    readLn 300 getInputBuffer 8 250 (boot (wire [72; 105]) 85)
    = Some (Z.of_nat (List.length [72; 105]), st')
    /\ uart st' = []
    /\ wrap32 (clock st')
       = wrap32 (clock (boot (wire [72; 105]) 85)
                 + duration (uart (boot (wire [72; 105]) 85)) + (250 + 1))
    /\ holds_line [72; 105] getInputBuffer st'.
Proof.
  apply (readLn_partial_line_on_timeout 300 getInputBuffer 8 250 (boot (wire [72; 105]) 85)
           [72; 105]).
  - on_wire.
  - repeat constructor; unfold LF; lia.
  - discriminate.
  - vm_compute; discriminate.
  - simpl; lia.
  - lia.
  - lia.
  - lia.
  - simpl; lia.
  - simpl; lia.
Defined.

(** X11. A line longer than the buffer is cut: once [size - 1] bytes
    have come without LF (the last of them not CR), [readLn] returns
    [size - 1] with NUL in the last byte of the buffer; the rest of the
    line stays on the UART, to be returned by the next read as if it were
    a line of its own. *)
Theorem readLn_cuts_long_line fuel buffer size timeout st ps bytes tail :
  uart st = ps ++ tail ->
  delivers timeout ps bytes ->
  Forall (stored_byte LF) bytes -> last bytes 0 <> CR ->
  Z.of_nat (List.length bytes) = size - 1 -> 2 <= size < 2 ^ 32 ->
  timeout < 2 ^ 32 -> (List.length ps < fuel)%nat ->
  exists st',
    readLn fuel buffer size timeout st = Some (size - 1, st')
    /\ uart st' = tail
    /\ holds_line bytes buffer st'.
Proof.
  intros U D V Hl Hlen Hsize Ht Hf.
  assert (Hne : bytes <> []) by (destruct bytes; [simpl in Hlen; lia | discriminate]).
  assert (W : wrap32 (size - 1) = size - 1) by (apply wrap32_small; lia).
  destruct (readBytesUntil_full fuel LF buffer (wrap32 (size - 1)) timeout st ps bytes tail
              U D V) as (st1 & R & U1 & P1); try assumption; try lia.
  rewrite W in R at 2.
  eexists. split; [| split].
  - apply (readLn_keep fuel buffer size timeout st _ st1 R); try lia.
    rewrite <- Hlen. rewrite (last_stored bytes buffer st1 Hne P1). exact Hl.
  - rewrite store_uart. exact U1.
  - apply holds_line_kept; [lia | lia | exact P1].
Qed.

Lemma readLn_cuts_long_line_witness :
  exists st',
    readLn 8 getInputBuffer 4 250 (boot (wire [65; 66; 67; 68; 69; CR; LF]) 85)
    = Some (4 - 1, st')
    /\ uart st' = wire [68; 69; CR; LF]
    /\ holds_line [65; 66; 67] getInputBuffer st'.
Proof.
  apply (readLn_cuts_long_line 8 getInputBuffer 4 250
           (boot (wire [65; 66; 67; 68; 69; CR; LF]) 85)
           (wire [65; 66; 67]) [65; 66; 67] (wire [68; 69; CR; LF])).
  - reflexivity.
  - on_wire.
  - repeat constructor; unfold LF; lia.
  - vm_compute; discriminate.
  - reflexivity.
  - lia.
  - lia.
  - simpl; lia.
Defined.

(** X12. Every call of [readLn] with a buffer of [size] bytes (at least
    one) that returns leaves NUL at the length it returns, and that length
    is below [size] or else is [SIZE_MAX], the index of the byte just
    below the buffer; no other byte outside the buffer is changed. *)
Theorem readLn_touches_buffer_and_byte_below fuel buffer size timeout st len st' :
  readLn fuel buffer size timeout st = Some (len, st') ->
  1 <= size < 2 ^ 32 ->
  peek buffer len st' = 0
  /\ (0 <= len < size \/ len = 2 ^ 32 - 1)
  /\ (forall j, size <= j < 2 ^ 32 - 1 -> peek buffer j st' = peek buffer j st).
Proof.
  intros H Hs. unfold readLn in H.
  destruct (readBytesUntil fuel
              (nth (Z.to_nat (SODAQ_UBLOX_TERMINATOR_LEN - 1)) SODAQ_UBLOX_TERMINATOR 0)
              buffer (wrap32 (size - 1)) timeout st) as [[index st1] |] eqn:R; [| discriminate].
  rewrite (wrap32_small (size - 1)) in R by lia.
  apply readBytesUntil_range in R; [| lia]. destruct R as (Hr & _ & F).
  change (1 <? SODAQ_UBLOX_TERMINATOR_LEN) with true in H. cbv iota in H.
  change (SODAQ_UBLOX_TERMINATOR_LEN - 1) with 1 in H.
  unfold load in H.
  set (st2 := log (Load (blk buffer) (cell buffer (wrap32 (index - 1)))) st1) in H.
  assert (K : forall j, peek buffer j st2 = peek buffer j st1) by reflexivity.
  pose proof (wrap32_range (index - 1)) as Hw.
  assert (Hw1 : 1 <= index -> wrap32 (index - 1) = index - 1)
    by (intros; apply wrap32_small; lia).
  assert (Hw0 : index = 0 -> wrap32 (index - 1) = 2 ^ 32 - 1)
    by (intros; subst index; reflexivity).
  destruct (peek buffer (wrap32 (index - 1)) st1 =? nth 0 SODAQ_UBLOX_TERMINATOR 0);
    inversion H; subst len st'; (split; [apply peek_store_same |]); split.
  - destruct (Z.eq_dec index 0); [right; auto | left; rewrite Hw1; lia].
  - intros j Hj. rewrite peek_store_other.
    + rewrite K. apply F; lia.
    + apply cell_distinct; [lia |].
      destruct (Z.eq_dec index 0); [rewrite Hw0 by assumption | rewrite Hw1 by lia]; lia.
  - left. lia.
  - intros j Hj. rewrite peek_store_other by (apply cell_distinct; lia).
    rewrite K. apply F; lia.
Qed.

Lemma readLn_touches_buffer_and_byte_below_witness :
  let st := boot (wire [65; 66; 67; 68; 69; CR; LF]) 85 in
  let st' := final (readLn 8 getInputBuffer 4 250 st) st in
  peek getInputBuffer 3 st' = 0
  /\ (0 <= 3 < 4 \/ 3 = 2 ^ 32 - 1)
  /\ (forall j, 4 <= j < 2 ^ 32 - 1 -> peek getInputBuffer j st' = peek getInputBuffer j st).
Proof.
  apply (readLn_touches_buffer_and_byte_below 8 getInputBuffer 4 250
           (boot (wire [65; 66; 67; 68; 69; CR; LF]) 85)).
  - vm_compute. reflexivity.
  - lia.
Defined.

(** X13. [readLn] always returns when the time-out is below [UINT32_MAX]:
    each byte read uses up a poll that found a byte, and a read that finds
    none ends with the time-out, so the polls needed are bounded by what
    the UART has to deliver plus one time-out. *)
Theorem readLn_always_returns fuel buffer size timeout st :
  0 <= timeout -> timeout + 1 < 2 ^ 32 ->
  (List.length (uart st) + Z.to_nat timeout + 1 < fuel)%nat ->
  exists len st', readLn fuel buffer size timeout st = Some (len, st').
Proof.
  intros Ht Hmax Hf.
  destruct (readLn_total fuel buffer size timeout st Ht Hmax Hf) as ([len st'] & R).
  exists len, st'. exact R.
Qed.

Lemma readLn_always_returns_witness :
  exists len st',
    readLn 300 getInputBuffer 8 250 (boot [(1, 72); (400, -1); (1, 105)] 85) = Some (len, st').
Proof.
  apply (readLn_always_returns 300 getInputBuffer 8 250
           (boot [(1, 72); (400, -1); (1, 105)] 85)).
  - lia.
  - lia.
  - simpl; lia.
Defined.

(** ** Reading a number of bytes *)

(** The loop of [readBytes] stores the bytes that are delivered. *)
Lemma readBytes_loop_consume timeout ps bytes :
  delivers timeout ps bytes ->
  forall n fuel buffer length count st tail,
    uart st = ps ++ tail ->
    Forall (fun c => 0 <= c < 256) bytes ->
    0 <= count -> count + Z.of_nat (List.length bytes) <= length -> length < 2 ^ 32 ->
    timeout < 2 ^ 32 -> (List.length ps < fuel)%nat ->
    exists st',
      readBytes_loop (List.length bytes + n) fuel buffer length timeout count st
      = readBytes_loop n fuel buffer length timeout
          (count + Z.of_nat (List.length bytes)) st'
      /\ uart st' = tail
      /\ wrap32 (clock st') = wrap32 (clock st + duration ps)
      /\ (forall i, (i < List.length bytes)%nat ->
                    peek buffer (count + Z.of_nat i) st' = nth i bytes 0)
      /\ (forall j, 0 <= j < 2 ^ 32 ->
                    ~ count <= j < count + Z.of_nat (List.length bytes) ->
                    peek buffer j st' = peek buffer j st).
Proof.
  induction 1 as [| ms d c ps bytes I Hc D IH];
    intros n fuel buffer length count st tail U V Hi Hlen Hmax Ht Hf.
  - exists st. simpl. rewrite !Z.add_0_r. repeat split; auto.
    intros i Hlt. inversion Hlt.
  - rewrite <- app_assoc in U. cbn [app] in U.
    inversion V as [| c' l' Hc1 V']; subst.
    cbn [List.length] in Hlen. rewrite Nat2Z.inj_succ in Hlen.
    rewrite length_app in Hf. cbn [List.length] in Hf.
    destruct (timedRead_arrives fuel timeout st ms d c (ps ++ tail) U I Ht Hc)
      as (st0 & R0 & U0 & C0 & M0 & O0); [lia |].
    set (st1 := store buffer count c st0).
    destruct (IH n fuel buffer length (count + 1) st1 tail)
      as (st' & E & U' & C' & P' & F'); try assumption; try lia.
    { unfold st1. rewrite store_uart. exact U0. }
    exists st'. split; [| split; [| split; [| split]]].
    + cbn [List.length Nat.add readBytes_loop].
      destruct (Z.ltb_spec count length); [| lia].
      rewrite R0.
      destruct (Z.ltb_spec c 0); [lia |].
      rewrite (wrap32_small (count + 1)) by lia.
      rewrite (Z.mod_small c 256) by lia.
      fold st1. rewrite E. f_equal. rewrite Nat2Z.inj_succ. lia.
    + exact U'.
    + rewrite C'. unfold st1. rewrite store_clock.
      rewrite <- wrap32_add_l, C0, wrap32_add_l. f_equal.
      rewrite duration_app, duration_cons. ring.
    + intros i Hlt. destruct i as [| i].
      * rewrite Z.add_0_r. rewrite F' by lia. unfold st1. apply peek_store_same.
      * change (nth (S i) (c :: bytes) 0) with (nth i bytes 0).
        rewrite <- (P' i) by (simpl in Hlt; lia).
        f_equal. rewrite Nat2Z.inj_succ. lia.
    + intros j Hj Hout. cbn [List.length] in Hout. rewrite Nat2Z.inj_succ in Hout.
      rewrite F' by lia. unfold st1.
      rewrite peek_store_other by (apply cell_distinct; lia).
      apply peek_same_mem; assumption.
Qed.

(** X14. When [length] bytes arrive, each within the time-out,
    [readBytes] returns [length] and the buffer holds them in order; what
    follows on the UART is not read, and every other byte of the block is
    as it was: nothing is stored past the bytes, not even a NUL. *)
Theorem readBytes_reads_length fuel buffer length timeout st qs bytes tail :
  uart st = qs ++ tail ->
  delivers timeout qs bytes ->
  Forall (fun c => 0 <= c < 256) bytes ->
  Z.of_nat (List.length bytes) = length -> length < 2 ^ 32 ->
  timeout < 2 ^ 32 -> (List.length qs < fuel)%nat ->
  exists st',
    readBytes fuel buffer length timeout st = Some (length, st')
    /\ uart st' = tail
    /\ begins_with bytes buffer st'
    /\ (forall j, length <= j < 2 ^ 32 -> peek buffer j st' = peek buffer j st).
Proof.
  intros U D V Hlen Hmax Ht Hf.
  pose proof (delivers_length _ _ _ D) as Lq.
  destruct (readBytes_loop_consume timeout qs bytes D (fuel - List.length bytes) fuel
              buffer length 0 st _ U V) as (st1 & E & U1 & _ & P1 & F1); try lia.
  replace (List.length bytes + (fuel - List.length bytes))%nat with fuel in E by lia.
  destruct (fuel - List.length bytes)%nat as [| m] eqn:M; [lia |].
  exists st1. unfold readBytes. rewrite E. cbn [readBytes_loop]. rewrite Z.add_0_l.
  destruct (Z.ltb_spec (Z.of_nat (List.length bytes)) length); [lia |].
  rewrite Hlen.
  split; [reflexivity |]. split; [exact U1 |]. split.
  - intros i Hi. apply (P1 i Hi).
  - intros j Hj. apply F1; lia.
Qed.

Lemma readBytes_reads_length_witness :
  exists st',
    readBytes 8 out_ptr 3 100 (boot (wire [0; 255; 10; 65]) 85) = Some (3, st')
    /\ uart st' = wire [65]
    /\ begins_with [0; 255; 10] out_ptr st'
    /\ (forall j, 3 <= j < 2 ^ 32 ->
                  peek out_ptr j st' = peek out_ptr j (boot (wire [0; 255; 10; 65]) 85)).
Proof.
  apply (readBytes_reads_length 8 out_ptr 3 100 (boot (wire [0; 255; 10; 65]) 85)
           (wire [0; 255; 10]) [0; 255; 10] (wire [65])).
  - reflexivity.
  - on_wire.
  - repeat constructor; lia.
  - reflexivity.
  - lia.
  - lia.
  - simpl; lia.
Defined.

(** X15. When fewer than [length] bytes arrive and then nothing,
    [readBytes] waits out the time-out of one byte and returns the number
    of bytes that came; the buffer holds them, and the bytes after them
    are as they were. *)
Theorem readBytes_short_on_silence fuel buffer length timeout st bytes :
  delivers timeout (uart st) bytes ->
  Forall (fun c => 0 <= c < 256) bytes ->
  Z.of_nat (List.length bytes) < length -> length < 2 ^ 32 ->
  0 <= timeout -> timeout + 1 < 2 ^ 32 ->
  (List.length (uart st) < fuel)%nat -> (Z.to_nat timeout < fuel)%nat ->
  exists st',
    readBytes fuel buffer length timeout st = Some (Z.of_nat (List.length bytes), st')
    /\ wrap32 (clock st') = wrap32 (clock st + duration (uart st) + (timeout + 1))
    /\ begins_with bytes buffer st'
    /\ (forall j, Z.of_nat (List.length bytes) <= j < 2 ^ 32 ->
                  peek buffer j st' = peek buffer j st).
Proof.
  intros D V Hlen Hmax Ht0 Ht Hf1 Hf2.
  pose proof (delivers_length _ _ _ D) as Lq.
  assert (U0 : uart st = uart st ++ []) by (rewrite app_nil_r; reflexivity).
  destruct (readBytes_loop_consume timeout (uart st) bytes D (fuel - List.length bytes) fuel
              buffer length 0 st _ U0 V) as (st1 & E & U1 & C1 & P1 & F1); try lia.
  replace (List.length bytes + (fuel - List.length bytes))%nat with fuel in E by lia.
  destruct (fuel - List.length bytes)%nat as [| m] eqn:M; [lia |].
  destruct (timedRead_silent fuel timeout st1 U1 Ht0 Ht Hf2) as (st2 & R2 & U2 & C2 & M2 & O2).
  exists st2. unfold readBytes. rewrite E. cbn [readBytes_loop]. rewrite Z.add_0_l.
  destruct (Z.ltb_spec (Z.of_nat (List.length bytes)) length); [| lia].
  rewrite R2. change (-1 <? 0) with true. cbv iota.
  split; [reflexivity |]. split; [| split].
  - rewrite C2. rewrite <- wrap32_add_l, C1, wrap32_add_l. reflexivity.
  - intros i Hi. rewrite (peek_same_mem _ _ st1 st2 M2 O2). apply (P1 i Hi).
  - intros j Hj. rewrite (peek_same_mem _ _ st1 st2 M2 O2). apply F1; lia.
Qed.

Lemma readBytes_short_on_silence_witness :
  exists st',
    readBytes 200 out_ptr 5 100 (boot (wire [65; 66]) 85)
    = Some (Z.of_nat (List.length [65; 66]), st')
    /\ wrap32 (clock st')
       = wrap32 (clock (boot (wire [65; 66]) 85)
                 + duration (uart (boot (wire [65; 66]) 85)) + (100 + 1))
    /\ begins_with [65; 66] out_ptr st'
    /\ (forall j, Z.of_nat (List.length [65; 66]) <= j < 2 ^ 32 ->
                  peek out_ptr j st' = peek out_ptr j (boot (wire [65; 66]) 85)).
Proof.
  apply (readBytes_short_on_silence 200 out_ptr 5 100 (boot (wire [65; 66]) 85) [65; 66]).
  - on_wire.
  - repeat constructor; lia.
  - simpl; lia.
  - lia.
  - lia.
  - lia.
  - simpl; lia.
  - simpl; lia.
Defined.

Lemma readBytes_loop_range n :
  forall fuel buffer length timeout count st r st',
    readBytes_loop n fuel buffer length timeout count st = Some (r, st') ->
    0 <= count <= length -> length < 2 ^ 32 ->
    count <= r <= length
    /\ (forall j, 0 <= j < 2 ^ 32 -> ~ count <= j < r ->
                  peek buffer j st' = peek buffer j st).
Proof.
  induction n as [| k IH]; intros fuel buffer length timeout count st r st' H Hi Hmax;
    cbn [readBytes_loop] in H; [discriminate |].
  destruct (Z.ltb_spec count length).
  - destruct (timedRead fuel timeout st) as [[c st1] |] eqn:T; [| discriminate].
    unfold timedRead in T. apply timedRead_loop_frame in T.
    destruct T as (M1 & _ & O1 & _).
    destruct (c <? 0).
    + inversion H; subst. split; [lia |].
      intros j _ _. apply peek_same_mem; assumption.
    + rewrite (wrap32_small (count + 1)) in H by lia.
      apply IH in H; [| lia | lia]. destruct H as (Hr & F).
      split; [lia |]. intros j Hj Hout. rewrite F by lia.
      rewrite peek_store_other by (apply cell_distinct; lia).
      apply peek_same_mem; assumption.
  - inversion H; subst. split; [lia |]. intros j _ _. reflexivity.
Qed.

Lemma readBytes_loop_total n :
  forall fuel buffer length timeout count st,
    0 <= timeout -> timeout + 1 < 2 ^ 32 ->
    (List.length (uart st) + Z.to_nat timeout + 1 < fuel)%nat ->
    (List.length (uart st) < n)%nat ->
    exists r, readBytes_loop n fuel buffer length timeout count st = Some r.
Proof.
  induction n as [| n IH]; intros fuel buffer length timeout count st Ht Hmax Hf Hn;
    [lia |].
  cbn [readBytes_loop].
  destruct (count <? length); [| eexists; reflexivity].
  unfold timedRead.
  destruct (timedRead_loop_total (uart st) fuel (millis st) timeout st eq_refl Ht Hmax Hf)
    as (c & st1 & R & L1 & L2).
  rewrite R.
  destruct (Z.ltb_spec c 0); [eexists; reflexivity |].
  apply IH; try assumption; rewrite store_uart; specialize (L2 ltac:(lia)); lia.
Qed.

(** X16. Every call of [readBytes] that returns gives a count of at most
    [length] and has changed no byte of the block at or after that count.
    The call returns whenever the time-out is below [UINT32_MAX]. *)
Theorem readBytes_keeps_to_length fuel buffer length timeout st :
  0 <= length < 2 ^ 32 ->
  (forall r st',
      readBytes fuel buffer length timeout st = Some (r, st') ->
      0 <= r <= length
      /\ (forall j, r <= j < 2 ^ 32 -> peek buffer j st' = peek buffer j st))
  /\ (0 <= timeout -> timeout + 1 < 2 ^ 32 ->
      (List.length (uart st) + Z.to_nat timeout + 1 < fuel)%nat ->
      exists r st', readBytes fuel buffer length timeout st = Some (r, st')).
Proof.
  intros Hl. split.
  - intros r st' H. unfold readBytes in H.
    apply readBytes_loop_range in H; [| lia | lia]. destruct H as (Hr & F).
    split; [lia |]. intros j Hj. apply F; lia.
  - intros Ht Hmax Hf. unfold readBytes.
    destruct (readBytes_loop_total fuel fuel buffer length timeout 0 st Ht Hmax Hf)
      as ([r st'] & R); [lia |].
    exists r, st'. exact R.
Qed.

Lemma readBytes_keeps_to_length_witness :
  let st := boot [(1, 65); (200, -1); (1, 66)] 85 in
  (forall r st',
      readBytes 200 out_ptr 4 100 st = Some (r, st') ->
      0 <= r <= 4
      /\ (forall j, r <= j < 2 ^ 32 -> peek out_ptr j st' = peek out_ptr j st))
  /\ (0 <= 100 -> 100 + 1 < 2 ^ 32 ->
      (List.length (uart st) + Z.to_nat 100 + 1 < 200)%nat ->
      exists r st', readBytes 200 out_ptr 4 100 st = Some (r, st')).
Proof.
  intros st. apply (readBytes_keeps_to_length 200 out_ptr 4 100 st). lia.
Defined.

(** ** Waiting for a prompt *)

Lemma echo_char_retval dp c sc : retval (echo_char dp c sc) = retval sc.
Proof.
  unfold echo_char. destruct (c =? CR); [reflexivity |].
  destruct (c =? LF); [reflexivity |]. destruct (at_bol sc); reflexivity.
Qed.

(** Polls that do not return the prompt and end within the time-out are
    passed over by the loop of [waitForPrompt]. *)
Lemma waitForPrompt_loop_skips ps :
  forall fuel dp prompt start timeout sc st tail,
    uart st = ps ++ tail ->
    Forall (fun p => snd p <> prompt /\ 0 <= fst p) ps ->
    wrap32 (clock st - start) + duration ps <= timeout -> timeout < 2 ^ 32 ->
    exists sc' st',
      waitForPrompt_loop (List.length ps + fuel) dp prompt start timeout sc st
      = waitForPrompt_loop fuel dp prompt start timeout sc' st'
      /\ retval sc' = retval sc
      /\ uart st' = tail
      /\ wrap32 (clock st' - start) = wrap32 (clock st - start) + duration ps
      /\ wrap32 (clock st') = wrap32 (clock st + duration ps)
      /\ input_blk st' = input_blk st /\ out_blk st' = out_blk st
      /\ accesses st' = accesses st.
Proof.
  induction ps as [| [d0 c0] ps IH]; intros fuel dp prompt start timeout sc st tail U V T Hmax.
  - exists sc, st. change (duration []) with 0. rewrite !Z.add_0_r.
    repeat split. exact U.
  - inversion V as [| ? ? [Hc0 Hd0] V']; subst. cbn [fst snd] in *.
    rewrite duration_cons in T.
    assert (Hnn : 0 <= duration ps).
    { clear - V'. unfold duration. induction V' as [| [a b] l [_ Ha] _ IH]; simpl in *; lia. }
    pose proof (wrap32_range (clock st - start)) as Hr.
    set (st1 := tick d0 (ps ++ tail) st).
    assert (E1 : wrap32 (clock st1 - start) = wrap32 (clock st - start) + d0).
    { apply elapsed_step; try lia. unfold st1. cbn [tick clock]. apply wrap32_idem. }
    assert (T1 : is_timedout start timeout st1 = false) by (apply is_timedout_false; lia).
    assert (X : exists sc1,
               waitForPrompt_loop (S (List.length ps + fuel)) dp prompt start timeout sc st
               = waitForPrompt_loop (List.length ps + fuel) dp prompt start timeout sc1 st1
               /\ retval sc1 = retval sc).
    { cbn [waitForPrompt_loop]. unfold uart_read. rewrite U. cbn [app]. fold st1.
      rewrite T1. cbn [negb].
      destruct (c0 <? 0); [exists sc; split; reflexivity |].
      destruct (Z.eqb_spec c0 prompt); [contradiction |].
      exists (echo_char dp c0 sc). split; [reflexivity | apply echo_char_retval]. }
    destruct X as (sc1 & X & R1).
    destruct (IH fuel dp prompt start timeout sc1 st1 tail eq_refl V')
      as (sc' & st' & R & Rv & U' & E' & C' & M' & O' & A'); try lia.
    exists sc', st'.
    split; [| split; [| split; [exact U' | split; [| split; [| split; [| split]]]]]].
    + cbn [List.length Nat.add]. rewrite X. exact R.
    + congruence.
    + rewrite E', E1, duration_cons. ring.
    + rewrite C'. unfold st1. cbn [tick clock]. rewrite wrap32_add_l.
      f_equal. rewrite duration_cons. ring.
    + exact M'.
    + exact O'.
    + exact A'.
Qed.

(** X17. When the prompt character arrives and every poll before it has
    ended within [timeout] ms of the call, [waitForPrompt] returns true.
    The polls up to and including the prompt are used up: the characters
    before it are discarded.  Memory is as it was. *)
Theorem waitForPrompt_finds_prompt fuel dp prompt timeout diag st ps d rest :
  uart st = ps ++ (d, prompt) :: rest ->
  Forall (fun p => snd p <> prompt /\ 0 <= fst p) ps ->
  duration ps <= timeout -> timeout < 2 ^ 32 -> 0 <= prompt ->
  (List.length ps < fuel)%nat ->
  exists diag' st',
    waitForPrompt fuel dp prompt timeout diag st = Some (true, diag', st')
    /\ uart st' = rest
    /\ input_blk st' = input_blk st /\ out_blk st' = out_blk st
    /\ accesses st' = accesses st.
Proof.
  intros U V T Hmax Hp Hf. unfold waitForPrompt, millis.
  assert (E0 : wrap32 (clock st - clock st) = 0) by (rewrite Z.sub_diag; reflexivity).
  destruct (waitForPrompt_loop_skips ps (fuel - List.length ps) dp prompt (clock st) timeout
              (mkScan true false false diag) st _ U V)
    as (sc1 & st1 & R & _ & U1 & _ & _ & M1 & O1 & A1); try lia.
  replace (List.length ps + (fuel - List.length ps))%nat with fuel in R by lia.
  rewrite R.
  destruct (fuel - List.length ps)%nat as [| k] eqn:K; [lia |].
  cbn [waitForPrompt_loop]. unfold uart_read. rewrite U1.
  destruct (Z.ltb_spec prompt 0); [lia |].
  rewrite Z.eqb_refl. cbn [retval].
  eexists _, (tick d rest st1). split; [reflexivity |].
  split; [reflexivity |]. split; [exact M1 |]. split; [exact O1 | exact A1].
Qed.

Lemma waitForPrompt_finds_prompt_witness :
  exists diag' st',
    waitForPrompt 8 true 62 100 [] (boot [(1, 13); (50, -1); (1, 10); (1, 62); (1, 32)] 85)
    = Some (true, diag', st')
    /\ uart st' = [(1, 32)]
    /\ input_blk st'
       = input_blk (boot [(1, 13); (50, -1); (1, 10); (1, 62); (1, 32)] 85)
    /\ out_blk st' = out_blk (boot [(1, 13); (50, -1); (1, 10); (1, 62); (1, 32)] 85)
    /\ accesses st' = accesses (boot [(1, 13); (50, -1); (1, 10); (1, 62); (1, 32)] 85).
Proof.
  apply (waitForPrompt_finds_prompt 8 true 62 100 []
           (boot [(1, 13); (50, -1); (1, 10); (1, 62); (1, 32)] 85)
           [(1, 13); (50, -1); (1, 10)] 1 [(1, 32)]).
  - reflexivity.
  - repeat constructor; simpl; lia.
  - vm_compute; discriminate.
  - lia.
  - lia.
  - simpl; lia.
Defined.

(** X18. When the polls go on past the time-out without returning the
    prompt, [waitForPrompt] returns false at the first poll that ends after
    [timeout] ms, whether bytes keep coming or not; what the UART delivers
    afterwards is still to be read. *)
Theorem waitForPrompt_gives_up_late fuel dp prompt timeout diag st ps d c rest :
  uart st = ps ++ (d, c) :: rest ->
  Forall (fun p => snd p <> prompt /\ 0 <= fst p) ps -> c <> prompt ->
  duration ps <= timeout -> timeout < duration ps + d -> duration ps + d < 2 ^ 32 ->
  (List.length ps < fuel)%nat ->
  exists diag' st',
    waitForPrompt fuel dp prompt timeout diag st = Some (false, diag', st')
    /\ uart st' = rest
    /\ wrap32 (clock st') = wrap32 (clock st + (duration ps + d)).
Proof.
  intros U V Hc T Hlate Hmax Hf. unfold waitForPrompt, millis.
  assert (Hnn : 0 <= duration ps).
  { clear - V. unfold duration. induction V as [| [a b] l [_ Ha] _ IH]; simpl in *; lia. }
  assert (E0 : wrap32 (clock st - clock st) = 0) by (rewrite Z.sub_diag; reflexivity).
  destruct (waitForPrompt_loop_skips ps (fuel - List.length ps) dp prompt (clock st) timeout
              (mkScan true false false diag) st _ U V)
    as (sc1 & st1 & R & Rv & U1 & E1 & C1 & _); try lia.
  replace (List.length ps + (fuel - List.length ps))%nat with fuel in R by lia.
  rewrite R.
  destruct (fuel - List.length ps)%nat as [| k] eqn:K; [lia |].
  set (st2 := tick d rest st1).
  assert (E2 : wrap32 (clock st2 - clock st) = wrap32 (clock st1 - clock st) + d).
  { apply elapsed_step; try lia. unfold st2. cbn [tick clock]. apply wrap32_idem. }
  assert (T2 : is_timedout (clock st) timeout st2 = true).
  { unfold is_timedout, millis. rewrite E2, E1, E0.
    destruct (Z.gtb_spec (0 + duration ps + d) timeout); [reflexivity | lia]. }
  assert (C2 : wrap32 (clock st2) = wrap32 (clock st + (duration ps + d))).
  { unfold st2. cbn [tick clock]. rewrite wrap32_idem, <- wrap32_add_l, C1, wrap32_add_l.
    f_equal. ring. }
  cbn [waitForPrompt_loop]. unfold uart_read. rewrite U1. fold st2. rewrite T2. cbn [negb].
  cbn [retval] in Rv.
  destruct (c <? 0).
  - rewrite Rv. eexists _, st2. split; [reflexivity |]. split; [reflexivity | exact C2].
  - destruct (Z.eqb_spec c prompt); [contradiction |].
    rewrite echo_char_retval, Rv.
    eexists _, st2. split; [reflexivity |]. split; [reflexivity | exact C2].
Qed.

Lemma waitForPrompt_gives_up_late_witness :
  exists diag' st',
    waitForPrompt 8 true 62 10 [] (boot [(6, 65); (6, 66); (1, 62)] 85)
    = Some (false, diag', st')
    /\ uart st' = [(1, 62)]
    /\ wrap32 (clock st')
       = wrap32 (clock (boot [(6, 65); (6, 66); (1, 62)] 85) + (duration [(6, 65)] + 6)).
Proof.
  apply (waitForPrompt_gives_up_late 8 true 62 10 [] (boot [(6, 65); (6, 66); (1, 62)] 85)
           [(6, 65)] 6 66 [(1, 62)]).
  - reflexivity.
  - repeat constructor; simpl; lia.
  - lia.
  - vm_compute; discriminate.
  - vm_compute; reflexivity.
  - vm_compute; reflexivity.
  - simpl; lia.
Defined.

Lemma waitForPrompt_loop_silent k :
  forall fuel dp prompt start timeout sc st,
    uart st = [] ->
    wrap32 (clock st - start) + Z.of_nat k = timeout -> timeout + 1 < 2 ^ 32 ->
    (k < fuel)%nat ->
    exists st',
      waitForPrompt_loop fuel dp prompt start timeout sc st = Some (sc, st')
      /\ uart st' = []
      /\ wrap32 (clock st') = wrap32 (clock st + (Z.of_nat k + 1))
      /\ input_blk st' = input_blk st /\ out_blk st' = out_blk st
      /\ accesses st' = accesses st.
Proof.
  induction k as [| k IH]; intros fuel dp prompt start timeout sc st U E Hmax Hf;
    (destruct fuel as [| fuel]; [lia |]);
    pose proof (wrap32_range (clock st - start)) as Hr;
    set (st1 := tick 1 [] st);
    assert (E1 : wrap32 (clock st1 - start) = wrap32 (clock st - start) + 1)
      by (apply elapsed_step; [unfold st1; cbn [tick clock]; apply wrap32_idem | lia | lia]).
  - exists st1. cbn [waitForPrompt_loop]. unfold uart_read. rewrite U. fold st1.
    change (-1 <? 0) with true. cbv iota.
    unfold is_timedout, millis. rewrite E1.
    destruct (Z.gtb_spec (wrap32 (clock st - start) + 1) timeout); [| lia].
    cbn [negb]. split; [reflexivity |]. split; [reflexivity |].
    split; [| repeat split].
    unfold st1. cbn [tick clock]. rewrite wrap32_idem. reflexivity.
  - destruct (IH fuel dp prompt start timeout sc st1) as (st' & R & U' & C' & M' & O' & A');
      try lia.
    { reflexivity. }
    exists st'. cbn [waitForPrompt_loop]. unfold uart_read. rewrite U. fold st1.
    change (-1 <? 0) with true. cbv iota.
    rewrite (is_timedout_false start timeout st1) by lia. cbn [negb].
    split; [exact R |]. split; [exact U' |].
    split; [| split; [exact M' | split; [exact O' | exact A']]].
    rewrite C'. unfold st1. cbn [tick clock]. rewrite wrap32_add_l. f_equal. lia.
Qed.

(** X19. On a silent line [waitForPrompt] polls until more than
    [timeout] ms have passed and returns false, with nothing sent to the
    diagnostic stream and memory as it was. *)
Theorem waitForPrompt_gives_up_on_silence fuel dp prompt timeout diag st :
  uart st = [] -> 0 <= timeout -> timeout + 1 < 2 ^ 32 ->
  (Z.to_nat timeout < fuel)%nat ->
  exists st',
    waitForPrompt fuel dp prompt timeout diag st = Some (false, diag, st')
    /\ wrap32 (clock st') = wrap32 (clock st + (timeout + 1))
    /\ input_blk st' = input_blk st /\ out_blk st' = out_blk st
    /\ accesses st' = accesses st.
Proof.
  intros U Ht Hmax Hf. unfold waitForPrompt, millis.
  destruct (waitForPrompt_loop_silent (Z.to_nat timeout) fuel dp prompt (clock st) timeout
              (mkScan true false false diag) st U)
    as (st' & R & _ & C' & M' & O' & A'); try lia.
  { rewrite Z.sub_diag. change (wrap32 0) with 0. lia. }
  rewrite R. cbn [done_diag at_bol andb retval diag_out].
  exists st'. split; [reflexivity |].
  rewrite Z2Nat.id in C' by lia. repeat split; assumption.
Qed.

Lemma waitForPrompt_gives_up_on_silence_witness :
  exists st',
    waitForPrompt 200 true 62 100 [] (boot [] 85) = Some (false, [], st')
    /\ wrap32 (clock st') = wrap32 (clock (boot [] 85) + (100 + 1))
    /\ input_blk st' = input_blk (boot [] 85) /\ out_blk st' = out_blk (boot [] 85)
    /\ accesses st' = accesses (boot [] 85).
Proof.
  apply (waitForPrompt_gives_up_on_silence 200 true 62 100 [] (boot [] 85)).
  - reflexivity.
  - lia.
  - lia.
  - simpl; lia.
Defined.

(** ** More on the response loop *)

Lemma readResponse_stores_in_bounds_witness :
  let st := boot (wire (crlf "a" ++ crlf "bcd" ++ crlf "OK")) 85 in
  logged (out_store_ok out_ptr 3) st
    (final (readResponse plain_driver 16 (Some out_ptr) 3 None 1000 st) st).
Proof.
  apply (readResponse_stores_in_bounds plain_driver 16 out_ptr 3 None 1000
           (boot (wire (crlf "a" ++ crlf "bcd" ++ crlf "OK")) 85) GSMResponseOK).
  - reflexivity.
  - lia.
  - vm_compute. reflexivity.
Defined.

Lemma readResponse_zero_capacity_store_witness :
  let st := boot (wire (crlf "+CSQ: 15,99" ++ crlf "OK")) 85 in
  exists new,
    accesses (final (readResponse plain_driver 16 (Some out_ptr) 0 None 1000 st) st)
    = new ++ Store OutBlk (cell out_ptr 0) 0 :: accesses st
    /\ Forall (out_store_ok out_ptr 0) new.
Proof.
  apply (readResponse_zero_capacity_store plain_driver 16 out_ptr None 1000
           (boot (wire (crlf "+CSQ: 15,99" ++ crlf "OK")) 85) GSMResponseOK).
  - reflexivity.
  - vm_compute. reflexivity.
Defined.

Lemma append_line_last_slot_witness :
  append_line out_ptr 8 [] false 3 (8 - 2) (boot [] 85)
  = (8 - 1, store out_ptr (8 - 2) LF (boot [] 85)).
Proof. apply (append_line_last_slot out_ptr 8 [] false 3 (boot [] 85)). lia. Defined.

(** *** An empty expected prefix *)

Lemma classify_line_empty_prefix dev outBuffer outMaxSize p count outSize st :
  hd 0 p = 0 ->
  classify_line dev outBuffer outMaxSize (Some p) count outSize st
  = classify_line dev outBuffer outMaxSize None count outSize st.
Proof.
  intros H. unfold classify_line, usePrefix. rewrite H.
  change (negb (0 =? 0)) with false. cbn [andb negb orb].
  destruct (startsWith (bytes_of "AT") getInputBuffer st); [reflexivity |].
  destruct (startsWith (bytes_of "OK") getInputBuffer st); [reflexivity |].
  destruct (startsWith (bytes_of "ERROR") getInputBuffer st
            || startsWith (bytes_of "+CME ERROR:") getInputBuffer st
            || startsWith (bytes_of "+CMS ERROR:") getInputBuffer st); [reflexivity |].
  destruct (checkURC dev _); [reflexivity |].
  destruct (useOutBuffer outBuffer outMaxSize); [| reflexivity].
  destruct outBuffer as [ob |]; reflexivity.
Qed.

Lemma readResponse_loop_empty_prefix dev fuel outBuffer outMaxSize p timeout from n :
  hd 0 p = 0 ->
  forall outSize st,
    readResponse_loop n dev fuel outBuffer outMaxSize (Some p) timeout from outSize st
    = readResponse_loop n dev fuel outBuffer outMaxSize None timeout from outSize st.
Proof.
  intros H. induction n as [| n IH]; intros outSize st; [reflexivity |].
  cbn [readResponse_loop]. unfold readResponse_iter.
  destruct (negb (is_timedout from timeout st)); [| reflexivity].
  destruct (readLn_input dev fuel 250 st) as [[len st1] |]; [| reflexivity].
  destruct (to_int len <=? 0); [apply IH |].
  rewrite (classify_line_empty_prefix dev outBuffer outMaxSize p _ _ _ H).
  destruct (classify_line dev outBuffer outMaxSize None (to_int len) outSize
              (sodaq_wdt_reset st1)) as [[o | r] st2]; [apply IH | reflexivity].
Qed.

(** X22. An expected prefix that is the empty string counts as no
    prefix: [readResponse] does with it exactly what it does with a null
    prefix. *)
Theorem readResponse_empty_prefix_is_no_prefix dev fuel outBuffer outMaxSize p timeout st :
  hd 0 p = 0 ->
  readResponse dev fuel outBuffer outMaxSize (Some p) timeout st
  = readResponse dev fuel outBuffer outMaxSize None timeout st.
Proof. intros H. unfold readResponse. apply readResponse_loop_empty_prefix. exact H. Qed.

Lemma readResponse_empty_prefix_is_no_prefix_witness :
  readResponse plain_driver 16 (Some out_ptr) 8 (Some []) 1000
    (boot (wire (crlf "15,99" ++ crlf "OK")) 85)
  = readResponse plain_driver 16 (Some out_ptr) 8 None 1000
      (boot (wire (crlf "15,99" ++ crlf "OK")) 85).
Proof.
  apply (readResponse_empty_prefix_is_no_prefix plain_driver 16 (Some out_ptr) 8 [] 1000).
  reflexivity.
Defined.

(** *** Error lines *)

Lemma classify_line_error dev outBuffer outMaxSize prefix count outSize st line :
  holds_line line getInputBuffer st ->
  is_prefix (bytes_of "AT") line = false ->
  is_prefix (bytes_of "OK") line = false ->
  is_prefix (bytes_of "ERROR") line
  || is_prefix (bytes_of "+CME ERROR:") line
  || is_prefix (bytes_of "+CMS ERROR:") line = true ->
  classify_line dev outBuffer outMaxSize prefix count outSize st
  = (Return GSMResponseError, st).
Proof.
  intros H A K E. unfold classify_line.
  rewrite (startsWith_line _ line _ st H nonul_AT), A.
  rewrite (startsWith_line _ line _ st H nonul_OK), K.
  rewrite (startsWith_line _ line _ st H nonul_ERROR).
  rewrite (startsWith_line _ line _ st H nonul_CME).
  rewrite (startsWith_line _ line _ st H nonul_CMS).
  rewrite E. reflexivity.
Qed.

(** X23. When echoed lines that begin with AT and then a line that
    begins with ERROR, +CME ERROR: or +CMS ERROR: arrive, no byte after a
    pause of more than 250 ms, each line shorter with its CR LF than the
    line buffer, the echoes within the time-out, [readResponse] returns
    GSMResponseError; the rest of the error line (the error code) is not
    copied anywhere: of the output buffer only the first byte has changed,
    set to NUL when the call began. *)
Theorem echo_then_error dev fuel outBuffer outMaxSize prefix timeout st lines ep line rest :
  uart st = List.concat lines ++ ep ++ rest ->
  Forall (echoed (_inputBufferSize dev) fuel) lines ->
  delivers 250 ep (line ++ [CR; LF]) ->
  framed (_inputBufferSize dev) line ->
  is_prefix (bytes_of "AT") line = false ->
  is_prefix (bytes_of "OK") line = false ->
  is_prefix (bytes_of "ERROR") line
  || is_prefix (bytes_of "+CME ERROR:") line
  || is_prefix (bytes_of "+CMS ERROR:") line = true ->
  punctual (List.concat lines) ->
  duration (List.concat lines) <= timeout -> timeout < 2 ^ 32 ->
  (List.length lines < fuel)%nat -> (List.length ep < fuel)%nat ->
  (forall ob, outBuffer = Some ob -> blk ob = OutBlk) ->
  exists st',
    readResponse dev fuel outBuffer outMaxSize prefix timeout st = Some (GSMResponseError, st')
    /\ out_blk st' = match outBuffer with
                     | Some ob => upd (out_blk st) (cell ob 0) 0
                     | None => out_blk st
                     end
    /\ uart st' = rest
    /\ urc_offers st' = urc_offers st.
Proof.
  intros U E P F A K Er Pn T Hmax Hf1 Hf2 Hb.
  pose proof (duration_nonneg _ Pn).
  unfold readResponse, millis.
  set (st0 := match outBuffer with Some ob => store ob 0 0 st | None => st end).
  assert (C0 : clock st0 = clock st)
    by (unfold st0; destruct outBuffer; [apply store_clock | reflexivity]).
  assert (U0 : uart st0 = List.concat lines ++ ep ++ rest)
    by (unfold st0; destruct outBuffer; [rewrite store_uart |]; exact U).
  assert (K0 : urc_offers st0 = urc_offers st)
    by (unfold st0; destruct outBuffer; [apply store_urc | reflexivity]).
  assert (O0 : out_blk st0 = match outBuffer with
                             | Some ob => upd (out_blk st) (cell ob 0) 0
                             | None => out_blk st
                             end).
  { unfold st0. destruct outBuffer as [ob |]; [| reflexivity].
    unfold store. rewrite (Hb ob eq_refl). reflexivity. }
  assert (E0 : wrap32 (clock st0 - clock st) = 0).
  { rewrite C0, Z.sub_diag. reflexivity. }
  destruct (loop_skips_echoes dev fuel outBuffer outMaxSize prefix timeout (clock st)
              (ep ++ rest) lines (fuel - List.length lines) 0 st0 U0 E Pn)
    as (st1 & L & U1 & C1 & O1 & K1 & _); try lia.
  replace (List.length lines + (fuel - List.length lines))%nat with fuel in L by lia.
  rewrite L.
  destruct (fuel - List.length lines)%nat as [| m] eqn:M; [lia |].
  destruct (readResponse_iter_line dev fuel outBuffer outMaxSize prefix 0 st1 ep
              line rest U1 P F Hf2)
    as (st2 & R & H2 & U2 & _ & O2 & _ & K2).
  rewrite (classify_line_error dev outBuffer outMaxSize prefix _ 0 st2 line H2 A K Er) in R.
  exists st2. split; [| split; [| split]].
  - apply loop_return; [| exact R]. apply is_timedout_false. lia.
  - congruence.
  - exact U2.
  - congruence.
Qed.

Lemma echo_then_error_witness :
  exists st',
    readResponse plain_driver 32 (Some out_ptr) 8 None 1000
      (boot (wire (crlf "AT+X") ++ wire (crlf "+CME ERROR: 10") ++ []) 85)
    = Some (GSMResponseError, st')
    /\ out_blk st'
       = upd (out_blk (boot (wire (crlf "AT+X") ++ wire (crlf "+CME ERROR: 10") ++ []) 85))
             (cell out_ptr 0) 0
    /\ uart st' = []
    /\ urc_offers st'
       = urc_offers (boot (wire (crlf "AT+X") ++ wire (crlf "+CME ERROR: 10") ++ []) 85).
Proof.
  apply (echo_then_error plain_driver 32 (Some out_ptr) 8 None 1000
           (boot (wire (crlf "AT+X") ++ wire (crlf "+CME ERROR: 10") ++ []) 85)
           [wire (crlf "AT+X")] (wire (crlf "+CME ERROR: 10")) (bytes_of "+CME ERROR: 10") []).
  - reflexivity.
  - constructor; [| constructor]. exists (bytes_of "AT+X").
    split; [on_wire |]. split; [is_framed |]. split; [reflexivity | simpl; lia].
  - on_wire.
  - is_framed.
  - reflexivity.
  - reflexivity.
  - reflexivity.
  - repeat constructor; simpl; lia.
  - vm_compute; discriminate.
  - lia.
  - simpl; lia.
  - simpl; lia.
  - intros ob Hob. injection Hob as <-. reflexivity.
Defined.

(** *** Payload lines without an expected prefix *)

Lemma hasPrefix_of_none outBuffer outMaxSize line :
  hasPrefix_of outBuffer outMaxSize None line = false.
Proof. reflexivity. Qed.

Lemma nth_firstn_lt (k : nat) :
  forall (l : list Z) i, (i < k)%nat -> nth i (firstn k l) 0 = nth i l 0.
Proof.
  induction k as [| k IH]; intros l i Hi; [lia |].
  destruct l as [| a l]; [reflexivity |].
  destruct i as [| i]; [reflexivity |]. cbn [firstn nth]. apply IH. lia.
Qed.

(** [append_line] when the bytes do not fit: they are clipped to the room
    below the last byte of the buffer. *)
Lemma append_line_clipped ob outMaxSize pre hasPrefix count outSize st body :
  blk ob = OutBlk -> 0 < outMaxSize <= 2 ^ 31 -> 0 <= outSize ->
  append_count pre hasPrefix count = Z.of_nat (List.length body) ->
  begins_with body (append_src pre hasPrefix) st ->
  append_start outSize < outMaxSize - 1 ->
  outMaxSize - 1 < append_start outSize + Z.of_nat (List.length body) < 2 ^ 32 ->
  exists st',
    append_line ob outMaxSize pre hasPrefix count outSize st = (outMaxSize - 1, st')
    /\ out_io st st'
    /\ (0 < outSize -> peek ob outSize st' = LF)
    /\ begins_with (firstn (Z.to_nat (outMaxSize - 1 - append_start outSize)) body)
         (ptr_add ob (append_start outSize)) st'
    /\ peek ob (outMaxSize - 1) st' = 0
    /\ (forall j, 0 <= j < outSize -> peek ob j st' = peek ob j st).
Proof.
  intros Bo HM Ho Hc Hb Hs Hfit.
  set (n := List.length body) in *.
  set (start := append_start outSize) in *.
  set (room := outMaxSize - 1 - start).
  set (sta := if 0 <? outSize then store ob outSize LF st else st).
  assert (Hstart : outSize <= start /\ (0 < outSize -> start = outSize + 1)
                   /\ (outSize <= 0 -> start = outSize)).
  { unfold start, append_start. destruct (Z.ltb_spec 0 outSize); lia. }
  assert (Hroom : 0 < room < Z.of_nat n) by (unfold room; lia).
  assert (Fa : out_io st sta).
  { unfold sta. destruct (0 <? outSize); [apply out_io_store; exact Bo | apply out_io_refl]. }
  assert (La : 0 < outSize -> peek ob outSize sta = LF).
  { intros H. unfold sta. destruct (Z.ltb_spec 0 outSize); [| lia]. apply peek_store_same. }
  assert (Ka : forall j, 0 <= j < outSize -> peek ob j sta = peek ob j st).
  { intros j Hj. unfold sta. destruct (0 <? outSize); [| reflexivity].
    apply peek_store_other. apply cell_distinct; lia. }
  assert (E1 : (if (0 <? outSize) && (outSize <? wrap32 (outMaxSize - 1))
                then (wrap32 (outSize + 1), store ob outSize LF st)
                else (outSize, st)) = (start, sta)).
  { rewrite (wrap32_small (outMaxSize - 1)) by lia. unfold sta, start, append_start.
    destruct (Z.ltb_spec 0 outSize); cbn [andb]; [| reflexivity].
    destruct (Z.ltb_spec outSize (outMaxSize - 1)); [| lia].
    rewrite wrap32_small by lia. reflexivity. }
  set (stm := memcpy (ptr_add ob start) (append_src pre hasPrefix) (Z.to_nat room) sta).
  destruct (memcpy_out (Z.to_nat room) (ptr_add ob start) (append_src pre hasPrefix) sta)
    as (Fm & Pm & Qm).
  { exact Bo. }
  { unfold append_src. destruct hasPrefix; reflexivity. }
  { lia. }
  fold stm in Fm, Pm, Qm.
  assert (Bs : blk (append_src pre hasPrefix) = InputBlk)
    by (unfold append_src; destruct hasPrefix; reflexivity).
  exists (store ob (outMaxSize - 1) 0 stm).
  split; [| split; [| split; [| split; [| split]]]].
  - unfold append_line. rewrite E1.
    rewrite (wrap32_small (outMaxSize - 1)) by lia.
    destruct (Z.ltb_spec start (outMaxSize - 1)); [| lia].
    assert (E2 : (if hasPrefix
                  then (to_int (count - to_int (strlen pre)),
                        ptr_add getInputBuffer (to_int (strlen pre)))
                  else (count, getInputBuffer))
                 = (Z.of_nat n, append_src pre hasPrefix)).
    { unfold append_src. unfold append_count in Hc. destruct hasPrefix; rewrite Hc; reflexivity. }
    rewrite E2. cbv zeta.
    rewrite !(wrap32_small (start + Z.of_nat n)) by lia.
    destruct (Z.gtb_spec (start + Z.of_nat n) (outMaxSize - 1)); [| lia].
    fold room. rewrite (to_int_small room) by lia.
    rewrite (wrap32_small room) by lia.
    replace (start + room) with (outMaxSize - 1) by (unfold room; lia).
    rewrite (wrap32_small (outMaxSize - 1)) by lia.
    reflexivity.
  - eapply out_io_trans; [exact Fa |]. eapply out_io_trans; [exact Fm |].
    apply out_io_store. exact Bo.
  - intros H. rewrite peek_store_other by (apply cell_distinct; lia).
    specialize (Qm (outSize - start)). rewrite !peek_ptr_add in Qm.
    replace (start + (outSize - start)) with outSize in Qm by lia.
    rewrite Qm by lia. apply La. exact H.
  - intros i Hi. rewrite length_firstn in Hi. rewrite peek_ptr_add.
    rewrite peek_store_other by (apply cell_distinct; lia).
    rewrite <- peek_ptr_add. rewrite (Pm i) by lia.
    rewrite (peek_input_out_io _ _ st sta Bs Fa).
    rewrite nth_firstn_lt by lia. apply Hb. fold n. lia.
  - apply peek_store_same.
  - intros j Hj. rewrite peek_store_other by (apply cell_distinct; lia).
    specialize (Qm (j - start)). rewrite !peek_ptr_add in Qm.
    replace (start + (j - start)) with j in Qm by lia.
    rewrite Qm by lia. apply Ka. exact Hj.
Qed.

(** What a turn does with a framed line that is neither echo nor marker
    when no prefix is expected, the output buffer is enabled and the hook
    does not claim the line: the whole line goes to [append_line]. *)
Lemma unprefixed_line_turn dev fuel ob outMaxSize outSize st ps line rest :
  uart st = ps ++ rest ->
  delivers 250 ps (line ++ [CR; LF]) ->
  framed (_inputBufferSize dev) line -> (List.length ps < fuel)%nat ->
  plain line -> NoNul line -> checkURC dev line = false -> 0 < outMaxSize ->
  exists st2,
    readResponse_iter dev fuel (Some ob) outMaxSize None outSize st
    = Some (let (o, s) := append_line ob outMaxSize [] false (Z.of_nat (List.length line))
                            outSize (offer_urc line st2) in
            (Continue o, s))
    /\ holds_line line getInputBuffer st2
    /\ uart st2 = rest
    /\ out_blk st2 = out_blk st
    /\ urc_offers st2 = urc_offers st.
Proof.
  intros U P F Hf Hpl N Hk HM.
  destruct (readResponse_iter_line dev fuel (Some ob) outMaxSize None outSize st ps line rest
              U P F Hf) as (st2 & R & H & U2 & _ & O2 & _ & K2).
  rewrite (classify_line_plain dev (Some ob) outMaxSize None _ outSize st2 line
             H Hpl N (Forall_nil _) (framed_length _ _ F)) in R.
  rewrite hasPrefix_of_none in R. cbv zeta in R. cbn [negb orb] in R.
  rewrite Hk in R. cbn [usePrefix negb andb useOutBuffer prefix_bytes] in R.
  destruct (Z.ltb_spec 0 outMaxSize); [| lia].
  exists st2. split; [exact R |]. repeat split; try assumption; apply H.
Qed.

(** X24. With no expected prefix and an enabled output buffer, a framed
    line that is neither echo nor marker and that the URC hook does not
    claim is appended whole when it fits the room below the last byte: one
    LF in front of it exactly when the buffer already holds a byte, NUL
    after it, what the buffer held is kept.  The hook has been offered the
    line. *)
Theorem whole_line_appended dev fuel ob outMaxSize outSize st ps line rest :
  uart st = ps ++ rest ->
  delivers 250 ps (line ++ [CR; LF]) ->
  framed (_inputBufferSize dev) line -> (List.length ps < fuel)%nat ->
  plain line -> NoNul line -> checkURC dev line = false ->
  blk ob = OutBlk -> 0 < outMaxSize < 2 ^ 32 -> 0 <= outSize ->
  append_start outSize < outMaxSize - 1 ->
  append_start outSize + Z.of_nat (List.length line) <= outMaxSize - 1 ->
  exists st',
    readResponse_iter dev fuel (Some ob) outMaxSize None outSize st
    = Some (Continue (append_start outSize + Z.of_nat (List.length line)), st')
    /\ (0 < outSize -> peek ob outSize st' = LF)
    /\ begins_with line (ptr_add ob (append_start outSize)) st'
    /\ peek ob (append_start outSize + Z.of_nat (List.length line)) st' = 0
    /\ (forall j, 0 <= j < outSize -> peek ob j st' = peek ob j st)
    /\ urc_offers st' = line :: urc_offers st.
Proof.
  intros U P F Hf Hpl N Hk Bo HM Ho Hs Hfit.
  destruct (unprefixed_line_turn dev fuel ob outMaxSize outSize st ps line rest
              U P F Hf Hpl N Hk) as (st2 & R & H & _ & O2 & K2); [lia |].
  destruct (append_line_fits ob outMaxSize [] false (Z.of_nat (List.length line)) outSize
              (offer_urc line st2) line)
    as (st' & A & Fo & Sep & B & Z0 & Old); try assumption.
  - reflexivity.
  - exact (proj1 H).
  - rewrite A in R. destruct Fo as (_ & _ & _ & _ & Fk).
    exists st'. split; [exact R |].
    split; [exact Sep |]. split; [exact B |]. split; [exact Z0 |]. split.
    + intros j Hj. rewrite (Old j Hj).
      apply (peek_out_blk ob j st (offer_urc line st2) Bo). exact O2.
    + rewrite Fk. cbn [offer_urc urc_offers]. rewrite K2. reflexivity.
Qed.

Lemma whole_line_appended_witness :
  exists st',
    readResponse_iter plain_driver 16 (Some out_ptr) 8 None 0 (boot (wire (crlf "15,99")) 85)
    = Some (Continue (append_start 0 + Z.of_nat (List.length (bytes_of "15,99"))), st')
    /\ (0 < 0 -> peek out_ptr 0 st' = LF)
    /\ begins_with (bytes_of "15,99") (ptr_add out_ptr (append_start 0)) st'
    /\ peek out_ptr (append_start 0 + Z.of_nat (List.length (bytes_of "15,99"))) st' = 0
    /\ (forall j, 0 <= j < 0 -> peek out_ptr j st' = peek out_ptr j (boot (wire (crlf "15,99")) 85))
    /\ urc_offers st' = bytes_of "15,99" :: urc_offers (boot (wire (crlf "15,99")) 85).
Proof.
  apply (whole_line_appended plain_driver 16 out_ptr 8 0 (boot (wire (crlf "15,99")) 85)
           (wire (crlf "15,99")) (bytes_of "15,99") []).
  - reflexivity.
  - on_wire.
  - is_framed.
  - simpl; lia.
  - repeat split.
  - repeat constructor; discriminate.
  - reflexivity.
  - reflexivity.
  - lia.
  - lia.
  - vm_compute; reflexivity.
  - vm_compute; discriminate.
Defined.

(** X25. A line too long for the room that is left is clipped, not
    refused: when the room below the last byte is not used up but the line
    does not fit it, the bytes of the line that fit are appended (after
    the separator) and NUL is stored in the last byte; [outSize] becomes
    [outMaxSize - 1]. *)
Theorem long_line_clipped dev fuel ob outMaxSize outSize st ps line rest :
  uart st = ps ++ rest ->
  delivers 250 ps (line ++ [CR; LF]) ->
  framed (_inputBufferSize dev) line -> (List.length ps < fuel)%nat ->
  plain line -> NoNul line -> checkURC dev line = false ->
  blk ob = OutBlk -> 0 < outMaxSize <= 2 ^ 31 -> 0 <= outSize ->
  append_start outSize < outMaxSize - 1 ->
  outMaxSize - 1 < append_start outSize + Z.of_nat (List.length line) ->
  exists st',
    readResponse_iter dev fuel (Some ob) outMaxSize None outSize st
    = Some (Continue (outMaxSize - 1), st')
    /\ (0 < outSize -> peek ob outSize st' = LF)
    /\ begins_with (firstn (Z.to_nat (outMaxSize - 1 - append_start outSize)) line)
         (ptr_add ob (append_start outSize)) st'
    /\ peek ob (outMaxSize - 1) st' = 0
    /\ (forall j, 0 <= j < outSize -> peek ob j st' = peek ob j st).
Proof.
  intros U P F Hf Hpl N Hk Bo HM Ho Hs Hfit.
  destruct (unprefixed_line_turn dev fuel ob outMaxSize outSize st ps line rest
              U P F Hf Hpl N Hk) as (st2 & R & H & _ & O2 & K2); [lia |].
  destruct F as (_ & _ & Hsz & Hmax).
  destruct (append_line_clipped ob outMaxSize [] false (Z.of_nat (List.length line)) outSize
              (offer_urc line st2) line)
    as (st' & A & Fo & Sep & B & Z0 & Old); try assumption.
  - reflexivity.
  - exact (proj1 H).
  - lia.
  - rewrite A in R.
    exists st'. split; [exact R |].
    split; [exact Sep |]. split; [exact B |]. split; [exact Z0 |].
    intros j Hj. rewrite (Old j Hj).
    apply (peek_out_blk ob j st (offer_urc line st2) Bo). exact O2.
Qed.

Lemma long_line_clipped_witness :
  exists st',
    readResponse_iter plain_driver 16 (Some out_ptr) 4 None 0 (boot (wire (crlf "15,99")) 85)
    = Some (Continue (4 - 1), st')
    /\ (0 < 0 -> peek out_ptr 0 st' = LF)
    /\ begins_with (firstn (Z.to_nat (4 - 1 - append_start 0)) (bytes_of "15,99"))
         (ptr_add out_ptr (append_start 0)) st'
    /\ peek out_ptr (4 - 1) st' = 0
    /\ (forall j, 0 <= j < 0 -> peek out_ptr j st' = peek out_ptr j (boot (wire (crlf "15,99")) 85)).
Proof.
  apply (long_line_clipped plain_driver 16 out_ptr 4 0 (boot (wire (crlf "15,99")) 85)
           (wire (crlf "15,99")) (bytes_of "15,99") []).
  - reflexivity.
  - on_wire.
  - is_framed.
  - simpl; lia.
  - repeat split.
  - repeat constructor; discriminate.
  - reflexivity.
  - reflexivity.
  - lia.
  - lia.
  - vm_compute; reflexivity.
  - vm_compute; reflexivity.
Defined.

(** X26. With a non-empty expected prefix, a framed line that is neither
    echo nor marker, does not begin with the prefix and is not claimed by
    the URC hook is dropped: [outSize] and the output buffer are as
    before, and the loop goes on.  The hook has been offered the line. *)
Theorem unmatched_line_dropped dev fuel outBuffer outMaxSize p outSize st ps line rest :
  uart st = ps ++ rest ->
  delivers 250 ps (line ++ [CR; LF]) ->
  framed (_inputBufferSize dev) line -> (List.length ps < fuel)%nat ->
  plain line -> NoNul line ->
  p <> [] -> NoNul p -> is_prefix p line = false -> checkURC dev line = false ->
  exists st',
    readResponse_iter dev fuel outBuffer outMaxSize (Some p) outSize st
    = Some (Continue outSize, st')
    /\ out_blk st' = out_blk st
    /\ uart st' = rest
    /\ urc_offers st' = line :: urc_offers st.
Proof.
  intros U P F Hf Hpl N Hp Np Hpre Hk.
  destruct (readResponse_iter_line dev fuel outBuffer outMaxSize (Some p) outSize st ps line rest
              U P F Hf) as (st2 & R & H & U2 & _ & O2 & _ & K2).
  rewrite (classify_line_plain dev outBuffer outMaxSize (Some p) _ outSize st2 line
             H Hpl N Np (framed_length _ _ F)) in R.
  assert (HP : hasPrefix_of outBuffer outMaxSize (Some p) line = false).
  { unfold hasPrefix_of. cbn [prefix_bytes]. rewrite Hpre. apply andb_false_r. }
  assert (UP : usePrefix (Some p) = true).
  { destruct p as [| a r]; [congruence |]. inversion Np; subst. cbn [usePrefix hd].
    destruct (Z.eqb_spec a 0); [contradiction | reflexivity]. }
  rewrite HP in R. cbv zeta in R. cbn [negb orb] in R. rewrite Hk, UP in R.
  cbn [negb andb] in R.
  exists (offer_urc line st2). split; [exact R |].
  split; [exact O2 |]. split; [exact U2 |].
  cbn [offer_urc urc_offers]. rewrite K2. reflexivity.
Qed.

Lemma unmatched_line_dropped_witness :
  exists st',
    readResponse_iter plain_driver 16 (Some out_ptr) 8 (Some (bytes_of "+CSQ: ")) 0
      (boot (wire (crlf "+CREG: 1")) 85)
    = Some (Continue 0, st')
    /\ out_blk st' = out_blk (boot (wire (crlf "+CREG: 1")) 85)
    /\ uart st' = []
    /\ urc_offers st' = bytes_of "+CREG: 1" :: urc_offers (boot (wire (crlf "+CREG: 1")) 85).
Proof.
  apply (unmatched_line_dropped plain_driver 16 (Some out_ptr) 8 (bytes_of "+CSQ: ") 0
           (boot (wire (crlf "+CREG: 1")) 85) (wire (crlf "+CREG: 1")) (bytes_of "+CREG: 1") []).
  - reflexivity.
  - on_wire.
  - is_framed.
  - simpl; lia.
  - repeat split.
  - repeat constructor; discriminate.
  - discriminate.
  - repeat constructor; discriminate.
  - reflexivity.
  - reflexivity.
Defined.

(** *** The call returns *)

Lemma timedRead_loop_uart fuel :
  forall s t st c st',
    timedRead_loop fuel s t st = Some (c, st') ->
    (List.length (uart st') <= List.length (uart st))%nat
    /\ (uart st <> [] -> (List.length (uart st') < List.length (uart st))%nat).
Proof.
  induction fuel as [| f IH]; intros s t st c st' T; [discriminate |].
  cbn [timedRead_loop] in T. unfold uart_read in T.
  destruct (uart st) as [| [d0 c0] rest] eqn:U.
  - change (0 <=? -1) with false in T. cbv iota in T.
    destruct (negb (is_timedout s t (tick 1 [] st))).
    + apply IH in T. simpl in T. split; [simpl; lia | congruence].
    + inversion T; subst. simpl. split; [lia | congruence].
  - destruct (0 <=? c0).
    + inversion T; subst. simpl. split; [lia | intros _; lia].
    + destruct (negb (is_timedout s t (tick d0 rest st))).
      * apply IH in T. simpl in *. split; [lia | intros _; lia].
      * inversion T; subst. simpl. split; [lia | intros _; lia].
Qed.

Lemma readBytesUntil_loop_uart n :
  forall fuel term buffer length timeout index st r st',
    readBytesUntil_loop n fuel term buffer length timeout index st = Some (r, st') ->
    (List.length (uart st') <= List.length (uart st))%nat
    /\ (index < length -> uart st <> [] ->
        (List.length (uart st') < List.length (uart st))%nat).
Proof.
  induction n as [| k IH]; intros fuel term buffer length timeout index st r st' H;
    cbn [readBytesUntil_loop] in H; [discriminate |].
  destruct (Z.ltb_spec index length).
  - destruct (timedRead fuel timeout st) as [[c st1] |] eqn:T; [| discriminate].
    unfold timedRead in T. apply timedRead_loop_uart in T. destruct T as [T1 T2].
    destruct ((c <? 0) || (c =? term)).
    + inversion H; subst. split; [exact T1 | intros _; exact T2].
    + apply IH in H. destruct H as [H1 _]. rewrite store_uart in H1.
      split; [lia |]. intros _ Hne. specialize (T2 Hne). lia.
  - inversion H; subst. split; [lia | lia].
Qed.

Lemma readLn_uart fuel buffer size timeout st len st' :
  readLn fuel buffer size timeout st = Some (len, st') ->
  2 <= size < 2 ^ 32 ->
  (List.length (uart st') <= List.length (uart st))%nat
  /\ (uart st <> [] -> (List.length (uart st') < List.length (uart st))%nat).
Proof.
  intros H Hs. unfold readLn, readBytesUntil in H.
  rewrite (wrap32_small (size - 1)) in H by lia.
  destruct (Z.ltb_spec (size - 1) 1); [lia |].
  destruct (readBytesUntil_loop fuel fuel _ buffer (size - 1) timeout 0 st)
    as [[index st1] |] eqn:L; [| discriminate].
  apply readBytesUntil_loop_uart in L. destruct L as [L1 L2].
  specialize (L2 ltac:(lia)).
  assert (E : uart st' = uart st1).
  { change (1 <? SODAQ_UBLOX_TERMINATOR_LEN) with true in H. cbv iota in H.
    unfold load in H.
    match type of H with
    | context [if ?c =? ?d then _ else _] => destruct (c =? d)
    end; inversion H; subst;
      rewrite store_uart; cbn [log uart];
      match goal with
      | |- context [if ?c then _ else _] => destruct c
      end; rewrite ?store_uart; reflexivity. }
  rewrite E. split; assumption.
Qed.

Lemma memcpy_uart n :
  forall dst src st, uart (memcpy dst src n st) = uart st.
Proof.
  induction n as [| n IH]; intros dst src st; [reflexivity |].
  cbn [memcpy]. rewrite IH. apply store_uart.
Qed.

Lemma append_line_uart ob outMaxSize prefix hasPrefix count outSize st :
  uart (snd (append_line ob outMaxSize prefix hasPrefix count outSize st)) = uart st.
Proof.
  unfold append_line.
  destruct ((0 <? outSize) && (outSize <? wrap32 (outMaxSize - 1)));
    match goal with
    | |- context [if ?c <? ?d then _ else _] => destruct (c <? d)
    end; cbn [snd]; try reflexivity;
    destruct hasPrefix; cbn [snd];
    repeat (rewrite ?store_uart, ?memcpy_uart); reflexivity.
Qed.

Lemma classify_line_uart dev outBuffer outMaxSize prefix count outSize st :
  uart (snd (classify_line dev outBuffer outMaxSize prefix count outSize st)) = uart st.
Proof.
  unfold classify_line.
  destruct (startsWith (bytes_of "AT") getInputBuffer st); [reflexivity |].
  destruct (startsWith (bytes_of "OK") getInputBuffer st); [reflexivity |].
  destruct (startsWith (bytes_of "ERROR") getInputBuffer st
            || startsWith (bytes_of "+CME ERROR:") getInputBuffer st
            || startsWith (bytes_of "+CMS ERROR:") getInputBuffer st); [reflexivity |].
  set (pre := match prefix with Some p => p | None => [] end).
  set (line := cstring _ _ _).
  destruct (usePrefix prefix && useOutBuffer outBuffer outMaxSize
            && startsWith pre getInputBuffer st); cbn [negb orb].
  - destruct outBuffer as [ob |]; [| reflexivity].
    pose proof (append_line_uart ob outMaxSize pre true count outSize st) as W.
    destruct (append_line ob outMaxSize pre true count outSize st). exact W.
  - destruct (checkURC dev line); [reflexivity |].
    destruct (negb (usePrefix prefix) && useOutBuffer outBuffer outMaxSize); [| reflexivity].
    destruct outBuffer as [ob |]; [| reflexivity].
    pose proof (append_line_uart ob outMaxSize pre false count outSize (offer_urc line st)) as W.
    destruct (append_line ob outMaxSize pre false count outSize (offer_urc line st)). exact W.
Qed.

(** Every turn completes, and uses up at least one poll of the script as
    long as there is one. *)
Lemma readResponse_iter_total dev fuel outBuffer outMaxSize prefix outSize st :
  2 <= _inputBufferSize dev < 2 ^ 32 ->
  (List.length (uart st) + 251 < fuel)%nat ->
  exists step st',
    readResponse_iter dev fuel outBuffer outMaxSize prefix outSize st = Some (step, st')
    /\ (List.length (uart st') <= List.length (uart st))%nat
    /\ (uart st <> [] -> (List.length (uart st') < List.length (uart st))%nat).
Proof.
  intros Hs Hf.
  destruct (readLn_total fuel getInputBuffer (_inputBufferSize dev) 250 st) as ([len st1] & R);
    try lia.
  destruct (readLn_uart _ _ _ _ _ _ _ R Hs) as [L1 L2].
  unfold readResponse_iter, readLn_input. rewrite R.
  destruct (to_int len <=? 0).
  - eexists _, _. split; [reflexivity |]. split; assumption.
  - pose proof (classify_line_uart dev outBuffer outMaxSize prefix (to_int len) outSize
                  (sodaq_wdt_reset st1)) as K.
    destruct (classify_line dev outBuffer outMaxSize prefix (to_int len) outSize
                (sodaq_wdt_reset st1)) as [step st'].
    cbn [snd] in K. exists step, st'. split; [reflexivity |].
    rewrite K. split; assumption.
Qed.

Lemma readResponse_loop_total dev fuel outBuffer outMaxSize prefix timeout from m :
  forall n outSize st,
    (List.length (uart st) <= m)%nat ->
    2 <= _inputBufferSize dev < 2 ^ 32 -> 0 <= timeout -> timeout + 251 < 2 ^ 32 ->
    (m + 251 < fuel)%nat -> (m + Z.to_nat timeout + 1 < n)%nat ->
    exists r st',
      readResponse_loop n dev fuel outBuffer outMaxSize prefix timeout from outSize st
      = Some (r, st').
Proof.
  assert (S0 : forall n outSize st,
             uart st = [] ->
             2 <= _inputBufferSize dev < 2 ^ 32 -> 0 <= timeout -> timeout + 251 < 2 ^ 32 ->
             (251 < fuel)%nat -> (Z.to_nat timeout + 1 < n)%nat ->
             exists r st',
               readResponse_loop n dev fuel outBuffer outMaxSize prefix timeout from outSize st
               = Some (r, st')).
  { intros n outSize st U Hs Ht Hmax Hf Hn.
    pose proof (wrap32_range (clock st - from)) as Hr.
    destruct (readResponse_loop_silent dev fuel outBuffer outMaxSize prefix timeout from
                (Z.to_nat timeout + 1) n outSize st U Hs) as (st' & R & _); try lia.
    exists GSMResponseTimeout, st'. exact R. }
  induction m as [| m IH]; intros n outSize st Hm Hs Ht Hmax Hf Hn.
  - apply S0; try assumption; try lia.
    destruct (uart st); [reflexivity | simpl in Hm; lia].
  - destruct (uart st) as [| e script] eqn:U.
    + apply S0; try assumption; lia.
    + destruct n as [| n]; [lia |]. cbn [readResponse_loop].
      destruct (negb (is_timedout from timeout st)); [| eexists _, _; reflexivity].
      destruct (readResponse_iter_total dev fuel outBuffer outMaxSize prefix outSize st Hs)
        as (step & st1 & R & _ & L); [rewrite U in *; simpl in *; lia |].
      rewrite R. destruct step as [o | r]; [| eexists _, _; reflexivity].
      apply IH; try assumption; try lia.
      specialize (L ltac:(rewrite U; discriminate)). rewrite U in L. simpl in *. lia.
Qed.

(** X27. [readResponse] always returns when the line buffer has two
    bytes or more and the time-out leaves room for one line read before
    the clock value wraps ([timeout + 251 < 2^32]): each turn of the loop
    uses up part of what the UART has to deliver, and once the line is
    silent each turn takes 251 ms until the time-out has elapsed. *)
Theorem readResponse_always_returns dev fuel outBuffer outMaxSize prefix timeout st :
  2 <= _inputBufferSize dev < 2 ^ 32 -> 0 <= timeout -> timeout + 251 < 2 ^ 32 ->
  (List.length (uart st) + Z.to_nat timeout + 252 < fuel)%nat ->
  exists r st', readResponse dev fuel outBuffer outMaxSize prefix timeout st = Some (r, st').
Proof.
  intros Hs Ht Hmax Hf. unfold readResponse.
  apply (readResponse_loop_total dev fuel outBuffer outMaxSize prefix timeout (millis st)
           (List.length (uart st))); try assumption; try lia.
  destruct outBuffer; [rewrite store_uart |]; lia.
Qed.

Lemma readResponse_always_returns_witness :
  exists r st',
    readResponse plain_driver 600 (Some out_ptr) 8 None 300
      (boot [(1, 65); (400, -1); (1, 10)] 85) = Some (r, st').
Proof.
  apply (readResponse_always_returns plain_driver 600 (Some out_ptr) 8 None 300
           (boot [(1, 65); (400, -1); (1, 10)] 85)).
  - vm_compute. split; [discriminate | reflexivity].
  - lia.
  - lia.
  - simpl; lia.
Defined.

(** ** Strings and commands *)

(** X29. [startsWith(pre, str)] compares no further than the string in
    memory goes: when the buffer holds a line followed by NUL, the result
    is true exactly when the characters of [pre] are the first characters
    of the line; a line shorter than [pre] does not match, and the bytes
    after the NUL are not looked at. *)
Theorem startsWith_is_prefix_of_line pre line p st :
  holds_line line p st -> NoNul pre -> startsWith pre p st = is_prefix pre line.
Proof. intros H N. apply startsWith_line; assumption. Qed.

Lemma startsWith_is_prefix_of_line_witness :
  startsWith (bytes_of "OK") getInputBuffer
    (store getInputBuffer 1 0 (store getInputBuffer 0 79 (boot [] 75)))
  = is_prefix (bytes_of "OK") [79].
Proof.
  apply (startsWith_is_prefix_of_line (bytes_of "OK") [79] getInputBuffer
           (store getInputBuffer 1 0 (store getInputBuffer 0 79 (boot [] 75)))).
  - split.
    + intros i Hi. destruct i as [| i]; [reflexivity | simpl in Hi; lia].
    + reflexivity.
  - repeat constructor; discriminate.
Defined.

Lemma debugPrint_app dp a b d :
  debugPrint dp (a ++ b) d = debugPrint dp b (debugPrint dp a d).
Proof. unfold debugPrint. destruct dp; [apply app_assoc | reflexivity]. Qed.

Lemma debugPrint_nil dp d : debugPrint dp [] d = d.
Proof. unfold debugPrint. destruct dp; [apply app_nil_r | reflexivity]. Qed.

(** The text that [writeProlog] sends to the diagnostic stream. *)
Lemma print_eq dp p co :
  print dp p co
  = (strlen p,
     mkConsole true (modem_tx co ++ c_chars p)
       (debugPrint dp ((if _appendCommand co then [] else bytes_of ">> ") ++ c_chars p)
          (diag_tx co))).
Proof.
  unfold print, writeProlog. rewrite debugPrint_app.
  destruct co as [[|] tx dg]; cbn [negb _appendCommand modem_tx diag_tx].
  - rewrite debugPrint_nil. reflexivity.
  - reflexivity.
Qed.

Lemma print_all_appending dp pieces :
  forall tx dg,
    print_all dp pieces (mkConsole true tx dg)
    = (map strlen pieces,
       mkConsole true (tx ++ List.concat (map c_chars pieces))
         (debugPrint dp (List.concat (map c_chars pieces)) dg)).
Proof.
  induction pieces as [| p r IH]; intros tx dg.
  - cbn [print_all map List.concat]. rewrite app_nil_r, debugPrint_nil. reflexivity.
  - cbn [print_all]. rewrite print_eq. cbn [_appendCommand modem_tx diag_tx app].
    rewrite IH. cbn [map List.concat].
    rewrite debugPrint_app, app_assoc. reflexivity.
Qed.

Lemma println_eq dp co :
  println dp co
  = (1, mkConsole false (modem_tx co ++ [CR])
          (debugPrint dp ([CR; LF] ++ (if _appendCommand co then [] else bytes_of ">> ")
                          ++ [CR]) (diag_tx co))).
Proof.
  unfold println, print_char, writeProlog, debugPrintln.
  rewrite !debugPrint_app.
  destruct co as [[|] tx dg]; cbn [negb _appendCommand modem_tx diag_tx].
  - rewrite debugPrint_nil. reflexivity.
  - reflexivity.
Qed.

(** X30. A command sent in pieces with [print] and ended with
    [println()] reaches the modem as the characters of the pieces followed
    by a single CR, whatever the diagnostic stream is and whatever was
    sent before; each [print] returns the length of its piece and
    [println()] returns 1.  The diagnostic stream, when there is one,
    gets the prolog [>> ] once, before the first piece (unless a command
    was already under way), then the pieces, a line end and the CR. *)
Theorem send_command_bytes dp pieces co :
  exists dg,
    send_command dp pieces co
    = (map strlen pieces, 1,
       mkConsole false (modem_tx co ++ List.concat (map c_chars pieces) ++ [CR]) dg)
    /\ (dp = false -> dg = diag_tx co)
    /\ (dp = true -> pieces <> [] ->
        dg = diag_tx co ++ (if _appendCommand co then [] else bytes_of ">> ")
             ++ List.concat (map c_chars pieces) ++ [CR; LF; CR]).
Proof.
  unfold send_command. destruct pieces as [| p r].
  - cbn [print_all map List.concat app]. rewrite println_eq.
    eexists. split; [reflexivity |]. split; [| congruence].
    intros ->. reflexivity.
  - cbn [print_all]. rewrite print_eq, print_all_appending, println_eq.
    cbn [_appendCommand modem_tx diag_tx map List.concat app].
    rewrite <- !app_assoc.
    eexists. split; [reflexivity |]. split.
    + intros ->. reflexivity.
    + intros -> _. unfold debugPrint. rewrite <- !app_assoc. reflexivity.
Qed.

(** * The call as a sequence of turns *)

Lemma readResponse_unfold dev fuel outBuffer outMaxSize prefix timeout st :
  readResponse dev fuel outBuffer outMaxSize prefix timeout st
  = readResponse_loop fuel dev fuel outBuffer outMaxSize prefix timeout (millis st) 0
      (cleared outBuffer st).
Proof. reflexivity. Qed.

Lemma turns_snoc dev fuel outBuffer outMaxSize prefix timeout from k o st o1 st1 :
  turns dev fuel outBuffer outMaxSize prefix timeout from k o st o1 st1 ->
  forall o2 st2,
    is_timedout from timeout st1 = false ->
    readResponse_iter dev fuel outBuffer outMaxSize prefix o1 st1 = Some (Continue o2, st2) ->
    turns dev fuel outBuffer outMaxSize prefix timeout from (S k) o st o2 st2.
Proof.
  induction 1 as [o st | k o st oa sta o1 st1 T R _ IH]; intros o2 st2 T2 R2.
  - eapply turns_more; [exact T2 | exact R2 | apply turns_none].
  - eapply turns_more; [exact T | exact R | apply IH; assumption].
Qed.

(** The loop passes over the turns that do not return. *)
Lemma turns_loop dev fuel outBuffer outMaxSize prefix timeout from k o st o1 st1 :
  turns dev fuel outBuffer outMaxSize prefix timeout from k o st o1 st1 ->
  forall n,
    readResponse_loop (k + n) dev fuel outBuffer outMaxSize prefix timeout from o st
    = readResponse_loop n dev fuel outBuffer outMaxSize prefix timeout from o1 st1.
Proof.
  induction 1 as [o st | k o st oa sta o1 st1 T R _ IH]; intros n; [reflexivity |].
  cbn [Nat.add]. rewrite (loop_continue _ _ _ _ _ _ _ _ _ _ _ _ T R). apply IH.
Qed.

(** Every run of the loop that returns is a sequence of turns that do not
    return, followed by the time-out at the head of a turn or by a turn
    that returns. *)
Lemma readResponse_loop_trace dev fuel outBuffer outMaxSize prefix timeout from n :
  forall o st r st',
    readResponse_loop n dev fuel outBuffer outMaxSize prefix timeout from o st = Some (r, st') ->
    exists k o0 st0,
      turns dev fuel outBuffer outMaxSize prefix timeout from k o st o0 st0
      /\ ((r = GSMResponseTimeout /\ st' = st0 /\ is_timedout from timeout st0 = true)
          \/ (is_timedout from timeout st0 = false
              /\ readResponse_iter dev fuel outBuffer outMaxSize prefix o0 st0
                 = Some (Return r, st'))).
Proof.
  induction n as [| n IH]; intros o st r st' H; [discriminate |].
  cbn [readResponse_loop] in H.
  destruct (is_timedout from timeout st) eqn:T; cbn [negb] in H.
  - inversion H; subst. exists 0%nat, o, st'. split; [apply turns_none |].
    left. repeat split. exact T.
  - destruct (readResponse_iter dev fuel outBuffer outMaxSize prefix o st)
      as [[[o1 | r1] st1] |] eqn:R; [| | discriminate].
    + destruct (IH o1 st1 r st' H) as (k & o0 & st0 & Tu & D).
      exists (S k), o0, st0. split; [| exact D].
      eapply turns_more; eauto.
    + inversion H; subst. exists 0%nat, o, st. split; [apply turns_none |].
      right. split; assumption.
Qed.

(** What [classify_line] has seen when it returns. *)
Lemma classify_line_return dev outBuffer outMaxSize prefix count outSize st r st' :
  classify_line dev outBuffer outMaxSize prefix count outSize st = (Return r, st') ->
  st' = st
  /\ startsWith (bytes_of "AT") getInputBuffer st = false
  /\ ((r = GSMResponseOK /\ startsWith (bytes_of "OK") getInputBuffer st = true)
      \/ (r = GSMResponseError
          /\ startsWith (bytes_of "OK") getInputBuffer st = false
          /\ startsWith (bytes_of "ERROR") getInputBuffer st
             || startsWith (bytes_of "+CME ERROR:") getInputBuffer st
             || startsWith (bytes_of "+CMS ERROR:") getInputBuffer st = true)).
Proof.
  unfold classify_line.
  destruct (startsWith (bytes_of "AT") getInputBuffer st); [discriminate |].
  destruct (startsWith (bytes_of "OK") getInputBuffer st).
  { intros H. inversion H; subst. split; [reflexivity |]. split; [reflexivity |].
    left. split; reflexivity. }
  destruct (startsWith (bytes_of "ERROR") getInputBuffer st
            || startsWith (bytes_of "+CME ERROR:") getInputBuffer st
            || startsWith (bytes_of "+CMS ERROR:") getInputBuffer st).
  { intros H. inversion H; subst. split; [reflexivity |]. split; [reflexivity |].
    right. repeat split. }
  set (pre := match prefix with Some p => p | None => [] end).
  set (line := cstring _ _ _).
  destruct (usePrefix prefix && useOutBuffer outBuffer outMaxSize
            && startsWith pre getInputBuffer st); cbn [negb orb].
  - destruct outBuffer as [ob |]; [| discriminate].
    destruct (append_line ob outMaxSize pre true count outSize st). discriminate.
  - destruct (checkURC dev line); [discriminate |].
    destruct (negb (usePrefix prefix) && useOutBuffer outBuffer outMaxSize); [| discriminate].
    destruct outBuffer as [ob |]; [| discriminate].
    destruct (append_line ob outMaxSize pre false count outSize (offer_urc line st)).
    discriminate.
Qed.

Lemma orb3_begins st :
  startsWith (bytes_of "ERROR") getInputBuffer st
  || startsWith (bytes_of "+CME ERROR:") getInputBuffer st
  || startsWith (bytes_of "+CMS ERROR:") getInputBuffer st = true
  <-> (begins_with (bytes_of "ERROR") getInputBuffer st
       \/ begins_with (bytes_of "+CME ERROR:") getInputBuffer st
       \/ begins_with (bytes_of "+CMS ERROR:") getInputBuffer st).
Proof.
  rewrite !orb_true_iff.
  rewrite (startsWith_begins _ getInputBuffer st nonul_ERROR).
  rewrite (startsWith_begins _ getInputBuffer st nonul_CME).
  rewrite (startsWith_begins _ getInputBuffer st nonul_CMS).
  tauto.
Qed.

Lemma startsWith_false_iff pre p st :
  NoNul pre -> (startsWith pre p st = false <-> ~ begins_with pre p st).
Proof.
  intros N. rewrite <- (startsWith_begins pre p st N).
  destruct (startsWith pre p st); split; congruence.
Qed.

(** A turn that returns has a terminal marker in the line buffer. *)
Lemma readResponse_iter_return dev fuel outBuffer outMaxSize prefix o st r st' :
  readResponse_iter dev fuel outBuffer outMaxSize prefix o st = Some (Return r, st') ->
  marker_line r st'.
Proof.
  unfold readResponse_iter. intros H.
  destruct (readLn_input dev fuel 250 st) as [[len s1] |]; [| discriminate].
  destruct (to_int len <=? 0); [discriminate |].
  inversion H as [H1]. apply classify_line_return in H1.
  destruct H1 as (-> & A & D). unfold marker_line.
  split; [apply (startsWith_false_iff _ _ _ nonul_AT); exact A |].
  destruct D as [[-> K] | (-> & K & E)].
  - apply (startsWith_begins _ _ _ nonul_OK). exact K.
  - split; [apply (startsWith_false_iff _ _ _ nonul_OK); exact K |].
    apply orb3_begins. exact E.
Qed.

(** The classification of a non-empty line, rule by rule. *)
Lemma classify_line_rules dev outBuffer outMaxSize prefix count outSize st :
  (begins_with (bytes_of "AT") getInputBuffer st ->
   classify_line dev outBuffer outMaxSize prefix count outSize st = (Continue outSize, st))
  /\ (~ begins_with (bytes_of "AT") getInputBuffer st ->
      begins_with (bytes_of "OK") getInputBuffer st ->
      classify_line dev outBuffer outMaxSize prefix count outSize st
      = (Return GSMResponseOK, st))
  /\ (~ begins_with (bytes_of "AT") getInputBuffer st ->
      ~ begins_with (bytes_of "OK") getInputBuffer st ->
      begins_with (bytes_of "ERROR") getInputBuffer st
      \/ begins_with (bytes_of "+CME ERROR:") getInputBuffer st
      \/ begins_with (bytes_of "+CMS ERROR:") getInputBuffer st ->
      classify_line dev outBuffer outMaxSize prefix count outSize st
      = (Return GSMResponseError, st))
  /\ (~ begins_with (bytes_of "AT") getInputBuffer st ->
      ~ begins_with (bytes_of "OK") getInputBuffer st ->
      ~ (begins_with (bytes_of "ERROR") getInputBuffer st
         \/ begins_with (bytes_of "+CME ERROR:") getInputBuffer st
         \/ begins_with (bytes_of "+CMS ERROR:") getInputBuffer st) ->
      exists o' st',
        classify_line dev outBuffer outMaxSize prefix count outSize st = (Continue o', st')
        /\ urc_offers st'
           = (if usePrefix prefix && useOutBuffer outBuffer outMaxSize
                 && startsWith (prefix_bytes prefix) getInputBuffer st
              then []
              else [cstring (Z.to_nat (_inputBufferSize dev)) getInputBuffer st])
             ++ urc_offers st).
Proof.
  split; [| split; [| split]].
  - intros A. unfold classify_line.
    apply (startsWith_begins _ _ _ nonul_AT) in A. rewrite A. reflexivity.
  - intros A K. unfold classify_line.
    apply (startsWith_false_iff _ _ _ nonul_AT) in A. rewrite A.
    apply (startsWith_begins _ _ _ nonul_OK) in K. rewrite K. reflexivity.
  - intros A K E. unfold classify_line.
    apply (startsWith_false_iff _ _ _ nonul_AT) in A. rewrite A.
    apply (startsWith_false_iff _ _ _ nonul_OK) in K. rewrite K.
    apply orb3_begins in E. rewrite E. reflexivity.
  - intros A K E. unfold classify_line.
    apply (startsWith_false_iff _ _ _ nonul_AT) in A. rewrite A.
    apply (startsWith_false_iff _ _ _ nonul_OK) in K. rewrite K.
    assert (E' : startsWith (bytes_of "ERROR") getInputBuffer st
                 || startsWith (bytes_of "+CME ERROR:") getInputBuffer st
                 || startsWith (bytes_of "+CMS ERROR:") getInputBuffer st = false).
    { destruct (startsWith (bytes_of "ERROR") getInputBuffer st
                || startsWith (bytes_of "+CME ERROR:") getInputBuffer st
                || startsWith (bytes_of "+CMS ERROR:") getInputBuffer st) eqn:X;
        [| reflexivity].
      exfalso. apply E. apply orb3_begins. exact X. }
    rewrite E'. fold (prefix_bytes prefix).
    set (line := cstring _ _ _).
    destruct (usePrefix prefix && useOutBuffer outBuffer outMaxSize
              && startsWith (prefix_bytes prefix) getInputBuffer st); cbn [negb orb app].
    + destruct outBuffer as [ob |]; [| eexists _, _; split; reflexivity].
      pose proof (append_line_urc ob outMaxSize (prefix_bytes prefix) true count outSize st) as W.
      destruct (append_line ob outMaxSize (prefix_bytes prefix) true count outSize st)
        as [o' s']. exists o', s'. split; [reflexivity | exact W].
    + destruct (checkURC dev line); [eexists _, _; split; reflexivity |].
      destruct (negb (usePrefix prefix) && useOutBuffer outBuffer outMaxSize);
        [| eexists _, _; split; reflexivity].
      destruct outBuffer as [ob |]; [| eexists _, _; split; reflexivity].
      pose proof (append_line_urc ob outMaxSize (prefix_bytes prefix) false count outSize
                    (offer_urc line st)) as W.
      destruct (append_line ob outMaxSize (prefix_bytes prefix) false count outSize
                  (offer_urc line st)) as [o' s'].
      exists o', s'. split; [reflexivity | exact W].
Qed.

(** C6. Every non-empty line that the line read of a turn returns is
    classified by the first rule that matches, each rule comparing the
    first bytes of the line buffer with its literal byte for byte.  In a
    call of [readResponse] that has made [k] turns without returning and
    begins the next before the deadline: a line that begins with AT is
    dropped, the turn changes nothing else and the loop goes on; otherwise
    a line that begins with OK ends the call with GSMResponseOK; otherwise
    a line that begins with ERROR, +CME ERROR: or +CMS ERROR: ends the call
    with GSMResponseError, whatever the expected prefix, the output buffer
    and the URC hook are; any other line does not end the call: it goes to
    the rules for payload and URCs, and is handed to the URC hook unless it
    is taken as a prefixed payload line. *)
Theorem readResponse_classifies_in_order
    dev fuel outBuffer outMaxSize prefix timeout st k outSize st0 len st1 :
  turns dev fuel outBuffer outMaxSize prefix timeout (millis st) k 0 (cleared outBuffer st)
    outSize st0 ->
  (k < fuel)%nat ->
  is_timedout (millis st) timeout st0 = false ->
  readLn_input dev fuel 250 st0 = Some (len, st1) ->
  0 < to_int len ->
  let line := getInputBuffer in
  let st2 := sodaq_wdt_reset st1 in
  let call := readResponse dev fuel outBuffer outMaxSize prefix timeout st in
  let goes_on o' st' :=
    turns dev fuel outBuffer outMaxSize prefix timeout (millis st) (S k) 0
      (cleared outBuffer st) o' st' in
  let error_marker :=
    begins_with (bytes_of "ERROR") line st2
    \/ begins_with (bytes_of "+CME ERROR:") line st2
    \/ begins_with (bytes_of "+CMS ERROR:") line st2 in
  let hasPrefix :=
    usePrefix prefix && useOutBuffer outBuffer outMaxSize
    && startsWith (prefix_bytes prefix) line st2 in
  (begins_with (bytes_of "AT") line st2 -> goes_on outSize st2)
  /\ (~ begins_with (bytes_of "AT") line st2 ->
      begins_with (bytes_of "OK") line st2 ->
      call = Some (GSMResponseOK, st2))
  /\ (~ begins_with (bytes_of "AT") line st2 ->
      ~ begins_with (bytes_of "OK") line st2 ->
      error_marker ->
      call = Some (GSMResponseError, st2))
  /\ (~ begins_with (bytes_of "AT") line st2 ->
      ~ begins_with (bytes_of "OK") line st2 ->
      ~ error_marker ->
      exists o' st',
        goes_on o' st'
        /\ urc_offers st'
           = (if hasPrefix
              then []
              else [cstring (Z.to_nat (_inputBufferSize dev)) line st2])
             ++ urc_offers st2)
  /\ (forall pre, NoNul pre ->
        (startsWith pre line st2 = true <-> begins_with pre line st2)).
Proof.
  intros Tu Hk T0 R Hlen line st2 call goes_on error_marker hasPrefix.
  subst line st2 call goes_on error_marker hasPrefix.
  assert (I : readResponse_iter dev fuel outBuffer outMaxSize prefix outSize st0
              = Some (classify_line dev outBuffer outMaxSize prefix (to_int len) outSize
                        (sodaq_wdt_reset st1))).
  { unfold readResponse_iter. rewrite R.
    destruct (Z.leb_spec (to_int len) 0); [lia | reflexivity]. }
  assert (L : readResponse dev fuel outBuffer outMaxSize prefix timeout st
              = readResponse_loop (S (fuel - k - 1)) dev fuel outBuffer outMaxSize prefix timeout
                  (millis st) outSize st0).
  { rewrite readResponse_unfold.
    replace fuel with (k + S (fuel - k - 1))%nat at 1 by lia.
    apply (turns_loop _ _ _ _ _ _ _ _ _ _ _ _ Tu). }
  destruct (classify_line_rules dev outBuffer outMaxSize prefix (to_int len) outSize
              (sodaq_wdt_reset st1)) as (CA & CK & CE & CN).
  split; [| split; [| split; [| split]]].
  - intros A. apply (turns_snoc _ _ _ _ _ _ _ _ _ _ _ _ Tu); [exact T0 |].
    rewrite I, (CA A). reflexivity.
  - intros A K. rewrite L. apply loop_return; [exact T0 |].
    rewrite I, (CK A K). reflexivity.
  - intros A K E. rewrite L. apply loop_return; [exact T0 |].
    rewrite I, (CE A K E). reflexivity.
  - intros A K E. destruct (CN A K E) as (o' & st' & C & U).
    exists o', st'. split; [| exact U].
    apply (turns_snoc _ _ _ _ _ _ _ _ _ _ _ _ Tu); [exact T0 |].
    rewrite I, C. reflexivity.
  - intros pre N. apply startsWith_begins. exact N.
Qed.

Lemma readResponse_classifies_in_order_witness :
  let st := boot (wire (crlf "AT+X" ++ crlf "ERROR")) 85 in
  let prefix := Some (bytes_of "ERR") in
  let st0 :=
    final (readResponse_iter plain_driver 16 (Some out_ptr) 8 prefix 0
             (cleared (Some out_ptr) st)) st in
  let st1 := final (readLn_input plain_driver 16 250 st0) st in
  let line := getInputBuffer in
  let st2 := sodaq_wdt_reset st1 in
  let call := readResponse plain_driver 16 (Some out_ptr) 8 prefix 1000 st in
  let goes_on o' st' :=
    turns plain_driver 16 (Some out_ptr) 8 prefix 1000 (millis st) 2 0
      (cleared (Some out_ptr) st) o' st' in
  let error_marker :=
    begins_with (bytes_of "ERROR") line st2
    \/ begins_with (bytes_of "+CME ERROR:") line st2
    \/ begins_with (bytes_of "+CMS ERROR:") line st2 in
  let hasPrefix :=
    usePrefix prefix && useOutBuffer (Some out_ptr) 8
    && startsWith (prefix_bytes prefix) line st2 in
  (begins_with (bytes_of "AT") line st2 -> goes_on 0 st2)
  /\ (~ begins_with (bytes_of "AT") line st2 ->
      begins_with (bytes_of "OK") line st2 ->
      call = Some (GSMResponseOK, st2))
  /\ (~ begins_with (bytes_of "AT") line st2 ->
      ~ begins_with (bytes_of "OK") line st2 ->
      error_marker ->
      call = Some (GSMResponseError, st2))
  /\ (~ begins_with (bytes_of "AT") line st2 ->
      ~ begins_with (bytes_of "OK") line st2 ->
      ~ error_marker ->
      exists o' st',
        goes_on o' st'
        /\ urc_offers st'
           = (if hasPrefix
              then []
              else [cstring (Z.to_nat (_inputBufferSize plain_driver)) line st2])
             ++ urc_offers st2)
  /\ (forall pre, NoNul pre ->
        (startsWith pre line st2 = true <-> begins_with pre line st2)).
Proof.
  intros st prefix st0 st1.
  apply (readResponse_classifies_in_order plain_driver 16 (Some out_ptr) 8 prefix 1000
           st 1 0 st0 5 st1).
  - apply (turns_more _ _ _ _ _ _ _ 0 0 (cleared (Some out_ptr) st) 0 st0 0 st0).
    + vm_compute. reflexivity.
    + vm_compute. reflexivity.
    + apply turns_none.
  - lia.
  - vm_compute. reflexivity.
  - vm_compute. reflexivity.
  - vm_compute. reflexivity.
Defined.

(** C8, as the code has it.  Every call of [readResponse] that returns
    has made a number of turns that did not return, each begun before the
    deadline, and then either finds at the head of a turn that more than
    [timeout] ms have elapsed since the call began and returns
    GSMResponseTimeout, the state (and with it the output buffer) being
    exactly what those turns left, or makes one more turn, begun before
    the deadline, that classifies a terminal marker and ends the call with
    GSMResponseOK or GSMResponseError, however late that line was read.
    The call returns for every input when the line buffer has two bytes or
    more and [timeout + 251 < 2^32]; with a time-out of [UINT32_MAX] it
    never returns GSMResponseTimeout.  From any point at which the line
    has gone silent, the loop turns without touching the output buffer
    until the time-out has elapsed at the head of a turn.  A turn whose
    line read returned no byte leaves [outSize] and the output buffer as
    they were and the loop goes on. *)
Theorem timeout_keeps_buffer :
  (forall dev fuel outBuffer outMaxSize prefix timeout st r st',
      readResponse dev fuel outBuffer outMaxSize prefix timeout st = Some (r, st') ->
      exists k outSize st0,
        turns dev fuel outBuffer outMaxSize prefix timeout (millis st) k 0
          (cleared outBuffer st) outSize st0
        /\ ((r = GSMResponseTimeout /\ st' = st0
             /\ is_timedout (millis st) timeout st0 = true)
            \/ (is_timedout (millis st) timeout st0 = false
                /\ readResponse_iter dev fuel outBuffer outMaxSize prefix outSize st0
                   = Some (Return r, st')
                /\ marker_line r st')))
  /\ (forall dev fuel outBuffer outMaxSize prefix timeout st,
        2 <= _inputBufferSize dev < 2 ^ 32 -> 0 <= timeout -> timeout + 251 < 2 ^ 32 ->
        (List.length (uart st) + Z.to_nat timeout + 252 < fuel)%nat ->
        exists r st',
          readResponse dev fuel outBuffer outMaxSize prefix timeout st = Some (r, st'))
  /\ (forall dev fuel outBuffer outMaxSize prefix st st',
        readResponse dev fuel outBuffer outMaxSize prefix (2 ^ 32 - 1) st
        <> Some (GSMResponseTimeout, st'))
  /\ (forall dev fuel n outBuffer outMaxSize prefix timeout from outSize st k,
        uart st = [] -> 2 <= _inputBufferSize dev < 2 ^ 32 -> (250 < fuel)%nat ->
        timeout + 251 < 2 ^ 32 ->
        timeout < wrap32 (clock st - from) + 251 * Z.of_nat k -> (k < n)%nat ->
        exists st',
          readResponse_loop n dev fuel outBuffer outMaxSize prefix timeout from outSize st
          = Some (GSMResponseTimeout, st')
          /\ is_timedout from timeout st' = true
          /\ out_blk st' = out_blk st
          /\ urc_offers st' = urc_offers st)
  /\ (forall dev fuel outBuffer outMaxSize prefix outSize st len st1,
        readLn_input dev fuel 250 st = Some (len, st1) -> to_int len <= 0 ->
        exists st',
          readResponse_iter dev fuel outBuffer outMaxSize prefix outSize st
          = Some (Continue outSize, st')
          /\ out_blk st' = out_blk st).
Proof.
  split; [| split; [| split; [| split]]].
  - intros dev fuel outBuffer outMaxSize prefix timeout st r st' H.
    rewrite readResponse_unfold in H.
    apply readResponse_loop_trace in H. destruct H as (k & o & st0 & Tu & D).
    exists k, o, st0. split; [exact Tu |].
    destruct D as [D | [T R]]; [left; exact D | right].
    split; [exact T |]. split; [exact R |].
    eapply readResponse_iter_return. exact R.
  - intros dev fuel outBuffer outMaxSize prefix timeout st Hs Ht Hmax Hf.
    rewrite readResponse_unfold.
    apply (readResponse_loop_total dev fuel outBuffer outMaxSize prefix timeout (millis st)
             (List.length (uart st))); try assumption; try lia.
    unfold cleared. destruct outBuffer; [rewrite store_uart |]; lia.
  - intros dev fuel outBuffer outMaxSize prefix st st' H.
    unfold readResponse in H. apply readResponse_loop_timeout in H.
    unfold is_timedout in H.
    destruct (Z.gtb_spec (wrap32 (millis st' - millis st)) (2 ^ 32 - 1)); [| discriminate].
    pose proof (wrap32_range (millis st' - millis st)). lia.
  - intros dev fuel n outBuffer outMaxSize prefix timeout from outSize st k U Hs Hf Hmax Hk Hn.
    eapply readResponse_loop_silent; eauto.
  - intros dev fuel outBuffer outMaxSize prefix outSize st len st1 R Hl.
    exists (sodaq_wdt_reset st1). unfold readResponse_iter. rewrite R.
    destruct (Z.leb_spec (to_int len) 0); [| lia].
    split; [reflexivity |].
    apply (readLn_frame fuel getInputBuffer _ 250 st len st1 eq_refl R).
Qed.

Lemma timeout_keeps_buffer_witness :
  let busy := boot (wire (crlf "+CREG: 1" ++ crlf "+CREG: 2" ++ crlf "+CREG: 3")) 85 in
  let st := boot [] 85 in
  (exists k outSize st0,
      turns plain_driver 300 (Some out_ptr) 8 None 15 (millis busy) k 0
        (cleared (Some out_ptr) busy) outSize st0
      /\ ((GSMResponseTimeout = GSMResponseTimeout
           /\ final (readResponse plain_driver 300 (Some out_ptr) 8 None 15 busy) busy = st0
           /\ is_timedout (millis busy) 15 st0 = true)
          \/ (is_timedout (millis busy) 15 st0 = false
              /\ readResponse_iter plain_driver 300 (Some out_ptr) 8 None outSize st0
                 = Some (Return GSMResponseTimeout,
                         final (readResponse plain_driver 300 (Some out_ptr) 8 None 15 busy)
                           busy)
              /\ marker_line GSMResponseTimeout
                   (final (readResponse plain_driver 300 (Some out_ptr) 8 None 15 busy)
                      busy))))
  /\ (exists r st',
        readResponse plain_driver 300 (Some out_ptr) 8 None 15 busy = Some (r, st'))
  /\ readResponse plain_driver 300 (Some out_ptr) 8 None (2 ^ 32 - 1) busy
     <> Some (GSMResponseTimeout, busy)
  /\ (exists st',
        readResponse_loop 300 plain_driver 300 (Some out_ptr) 8 None 300 0 0 st
        = Some (GSMResponseTimeout, st')
        /\ is_timedout 0 300 st' = true
        /\ out_blk st' = out_blk st
        /\ urc_offers st' = urc_offers st)
  /\ (exists st',
        readResponse_iter plain_driver 300 (Some out_ptr) 8 None 0 st
        = Some (Continue 0, st')
        /\ out_blk st' = out_blk st).
Proof.
  intros busy st. split; [| split; [| split; [| split]]].
  - apply (proj1 timeout_keeps_buffer plain_driver 300%nat (Some out_ptr) 8 None 15 busy).
    vm_compute. reflexivity.
  - apply (proj1 (proj2 timeout_keeps_buffer) plain_driver 300%nat (Some out_ptr) 8 None 15
             busy).
    + vm_compute. split; [discriminate | reflexivity].
    + lia.
    + lia.
    + simpl. lia.
  - apply (proj1 (proj2 (proj2 timeout_keeps_buffer)) plain_driver 300%nat (Some out_ptr) 8
             None busy busy).
  - apply (proj1 (proj2 (proj2 (proj2 timeout_keeps_buffer))) plain_driver 300%nat 300%nat
             (Some out_ptr) 8 None 300 0 0 st 2%nat).
    + reflexivity.
    + unfold plain_driver, SODAQ_UBLOX_DEFAULT_INPUT_BUFFER_SIZE. simpl. lia.
    + lia.
    + lia.
    + vm_compute. reflexivity.
    + lia.
  - apply (proj2 (proj2 (proj2 (proj2 timeout_keeps_buffer))) plain_driver 300%nat
             (Some out_ptr) 8 None 0 st 0 (final (readLn_input plain_driver 300 250 st) st)).
    + vm_compute. reflexivity.
    + vm_compute. discriminate.
Defined.
